(** * ci_parser: aggregation of JUnit result files into a suite registry

    A shallow embedding of [build-scripts/ci_parser/ci_parser.py]:
    the discovery filter, the per-file worker [process_xml_file], the
    orchestrator [extract_junit_from_test_run] and the report emitter
    [append_failure_results], together with the properties of the
    extraction-and-aggregation pipeline. *)

From Stdlib Require Import String Ascii List Arith Lia Bool Permutation Sorted.
From stdpp Require Import base list strings gmap.
Import ListNotations.
Set Warnings "-register-all".
Open Scope string_scope.
Open Scope list_scope.

(** ** Python values used by the script *)

(** [x in s] on [str]: [x] occurs in [s] as a contiguous substring. *)
Fixpoint str_in (x s : string) : bool :=
  String.prefix x s ||
  match s with
  | EmptyString => false
  | String _ s' => str_in x s'
  end.

(** [any(x in s for x in xs)]. *)
Definition any_in (xs : list string) (s : string) : bool :=
  existsb (fun x => str_in x s) xs.

(** The exceptions that travel through the script. *)
Inductive exn :=
| FileNotFoundError (msg : string)
| ParseError
| EOFError
| UnboundLocalError (var : string)
| KeyError (key : string)
| AttributeError (name : string)
| OSError (msg : string).

(** A call either returns a value or raises. *)
Inductive result (A : Type) :=
| Return (a : A)
| Raise (e : exn).
Arguments Return {A} a.
Arguments Raise {A} e.

(** ** Parsed XML documents ([xml.etree.ElementTree]) *)

Inductive Element :=
| mkElement (tag : string) (attrib : list (string * string))
            (children : list Element).

Definition tag (e : Element) : string :=
  match e with mkElement t _ _ => t end.
Definition attrib (e : Element) : list (string * string) :=
  match e with mkElement _ a _ => a end.
Definition children (e : Element) : list Element :=
  match e with mkElement _ _ c => c end.

(** [elem.get(key)]. *)
Fixpoint attrib_get (key : string) (a : list (string * string)) : option string :=
  match a with
  | [] => None
  | (k, v) :: a' => if String.eqb k key then Some v else attrib_get key a'
  end.

Definition get (e : Element) (key : string) : option string :=
  attrib_get key (attrib e).

(** [str(v)] of an optional attribute: [str(None)] is the text ["None"]. *)
Definition str (v : option string) : string :=
  match v with
  | Some s => s
  | None => "None"
  end.

(** [elem.iter(t)]: the element itself, then all its descendants, in
    document order, keeping those whose tag is [t]. *)
Fixpoint iter (t : string) (e : Element) : list Element :=
  match e with
  | mkElement t' _ cs =>
      (if String.eqb t' t then [e] else []) ++
      (fix iter_all (l : list Element) : list Element :=
         match l with
         | [] => []
         | c :: l' => iter t c ++ iter_all l'
         end) cs
  end.

(** [elem.findall('.//' + t)]: all descendants with tag [t]; the element
    itself is not a candidate. *)
Definition findall_descendants (t : string) (e : Element) : list Element :=
  flat_map (iter t) (children e).

(** What [ET.parse(xml_input).getroot()] does on the content of a file. *)
Inductive parse_outcome :=
| Parsed (root : Element)
| ParseRaises (e : exn).

(** A discovered file: its path and what parsing its content yields. *)
Record XmlFile := {
  xml_path : string;
  xml_content : parse_outcome
}.

(** ** The logger

    Every logging call of the script is one constructor of [message],
    carrying the values its f-string interpolates; a record pairs it with
    the level of the [logger] method that was called. *)
Inductive level := DEBUG | INFO | PROGRESS | WARNING | ERROR_LEVEL | CRITICAL.

Inductive message :=
| MsgRaised (msg : string)                              (* log_and_raise *)
| MsgExtracting (n : nat) (input_dir : string)          (* line 112 *)
| MsgFileList                                           (* line 120 *)
| MsgFileListed (file : string)                         (* line 122 *)
| MsgSawException                                       (* line 131 *)
| MsgTotalArchive (n : nat)                             (* line 138 *)
| MsgTotalFiles (n : nat)                               (* line 139 *)
| MsgTotalSuites (n : nat)                              (* line 140 *)
| MsgTotalTests (n : nat)                               (* line 141 *)
| MsgPassed (n : nat)                                   (* line 153 *)
| MsgFailed (n : nat)                                   (* line 154 *)
| MsgSkipped (n : nat)                                  (* line 155 *)
| MsgProcessing (xml_file suite_name : string)          (* line 176 *)
| MsgDuplicate (suite_name xml_file : string)           (* line 180 *)
| MsgParseSkipped (xml_file : string) (e : exn) (suite_name : string) (* line 198 *)
| MsgUnexpected (xml_file active_file : string) (e : exn) (* line 201 *)
| MsgPrinting (failed : nat) (suite_name : string)      (* line 207 *)
| MsgTestcase (name : string)                           (* line 209 *)
| MsgNoTests (file_name : string)                       (* line 230 *)
| MsgDump (root : Element)                              (* lines 232, 243 *)
| MsgIterNothing (file_name : string) (test_count : nat) (* line 242 *)
| MsgNoFailed (suite_name : string)                     (* line 272 *)
| MsgCap (total : nat) (output : string)                (* line 284 *)
| MsgAppended (output : string).                        (* line 294 *)

Definition log_record : Type := level * message.
Definition log : Type := list log_record.

(** The parsed command line, read as a global by the functions. *)
Record Args := {
  arg_input : string;
  arg_output : string;
  arg_debug : bool
}.

(** ** Test cases and suites ([junit_helpers])

    The script imports [JUnitTestCase], [JUnitTestSuite] and
    [JUnitTestStatus] from the module [junit_helpers], whose source is not
    at hand. They are modelled here from the data model of the
    specification. *)

(** Modelled from the spec: the enumeration [JUnitTestStatus] of
    [junit_helpers], with the four statuses of a test case. *)
Inductive JUnitTestStatus := PASSED | FAILURE | SKIPPED | ERROR.

Definition status_eqb (a b : JUnitTestStatus) : bool :=
  match a, b with
  | PASSED, PASSED | FAILURE, FAILURE | SKIPPED, SKIPPED | ERROR, ERROR => true
  | _, _ => false
  end.

(** Modelled from the spec: the [JUnitTestCase] record of [junit_helpers],
    which is not part of the sources at hand. A test case holds its name,
    its class path, its status, its duration (absent when the attribute
    is) and the failure text, present only when the status is not
    [PASSED]. *)
Record JUnitTestCase := {
  tc_name : string;
  tc_classname : string;
  tc_status : JUnitTestStatus;
  tc_time : option string;
  tc_detail : option string
}.

Definition has_child (t : string) (e : Element) : bool :=
  existsb (fun c => String.eqb (tag c) t) (children e).

Definition child_message (t : string) (e : Element) : option string :=
  match List.filter (fun c => String.eqb (tag c) t) (children e) with
  | c :: _ => Some (str (get c "message"))
  | [] => None
  end.

(** Modelled from the spec: the constructor [JUnitTestCase(testcase)] of
    [junit_helpers]. The status is read off the presence of a
    failure-detail child element. *)
Definition new_testcase (testcase : Element) : JUnitTestCase :=
  let status :=
    if has_child "failure" testcase then FAILURE
    else if has_child "error" testcase then ERROR
    else if has_child "skipped" testcase then SKIPPED
    else PASSED in
  {| tc_name := str (get testcase "name");
     tc_classname := str (get testcase "classname");
     tc_status := status;
     tc_time := get testcase "time";
     tc_detail :=
       match status with
       | FAILURE => child_message "failure" testcase
       | ERROR => child_message "error" testcase
       | SKIPPED => child_message "skipped" testcase
       | PASSED => None
       end |}.

(** Modelled from the spec: the counting rule of [junit_helpers], by which
    [ERROR] folds into [FAILURE]. *)
Definition counted_as (s : JUnitTestStatus) : JUnitTestStatus :=
  match s with
  | ERROR => FAILURE
  | s' => s'
  end.

(** Modelled from the spec: the [JUnitTestSuite] record of [junit_helpers]:
    the name, the test cases in insertion order, the set of contributing
    files and the archive the suite was read from. *)
Record JUnitTestSuite := {
  suite_name : string;
  suite_tests : list JUnitTestCase;
  suite_files : list string;
  suite_archive : option string
}.

(** Modelled from the spec: [JUnitTestSuite(name)], a new empty suite. *)
Definition new_suite (name : string) : JUnitTestSuite :=
  {| suite_name := name; suite_tests := []; suite_files := [];
     suite_archive := None |}.

(** Modelled from the spec: [JUnitTestSuite.set_archive] of
    [junit_helpers], which records the originating file. *)
Definition set_archive (archive : string) (s : JUnitTestSuite) : JUnitTestSuite :=
  {| suite_name := suite_name s; suite_tests := suite_tests s;
     suite_files := suite_files s; suite_archive := Some archive |}.

(** Modelled from the spec: [JUnitTestSuite.add_file] of [junit_helpers].
    The contributing files are a set: a path already recorded is not
    added twice. *)
Definition add_file (file_name : string) (s : JUnitTestSuite) : JUnitTestSuite :=
  {| suite_name := suite_name s; suite_tests := suite_tests s;
     suite_files :=
       if existsb (String.eqb file_name) (suite_files s) then suite_files s
       else suite_files s ++ [file_name];
     suite_archive := suite_archive s |}.

(** Modelled from the spec: [JUnitTestSuite.add_testcase] of
    [junit_helpers], which appends to the ordered collection of cases. *)
Definition add_testcase (c : JUnitTestCase) (s : JUnitTestSuite) : JUnitTestSuite :=
  {| suite_name := suite_name s; suite_tests := suite_tests s ++ [c];
     suite_files := suite_files s; suite_archive := suite_archive s |}.

(** Modelled from the spec: [JUnitTestSuite.get_tests(status)] of
    [junit_helpers], the cases that count under a status, in order. *)
Definition get_tests (st : JUnitTestStatus) (s : JUnitTestSuite) : list JUnitTestCase :=
  List.filter (fun c => status_eqb (counted_as (tc_status c)) st) (suite_tests s).

(** Modelled from the spec: [JUnitTestSuite.count(status)] of
    [junit_helpers]. *)
Definition count (st : JUnitTestStatus) (s : JUnitTestSuite) : nat :=
  length (get_tests st s).

(** Modelled from the spec: the queries [passed()], [failed()] and
    [skipped()] of [junit_helpers]. *)
Definition passed (s : JUnitTestSuite) : nat := count PASSED s.
Definition failed (s : JUnitTestSuite) : nat := count FAILURE s.
Definition skipped (s : JUnitTestSuite) : nat := count SKIPPED s.

(** Modelled from the spec: [is_empty()] of [junit_helpers], no test case
    recorded, and [file_count()], the number of contributing files. *)
Definition is_empty (s : JUnitTestSuite) : bool :=
  match suite_tests s with [] => true | _ => false end.
Definition file_count (s : JUnitTestSuite) : nat := length (suite_files s).

(** ** The registry: a Python [dict] keyed by suite name

    A [dict] keeps its keys in insertion order; assigning to a key that is
    present replaces the value in place, assigning to a new key appends. *)
Module PyDict.
Section Dict.
Context {V : Type}.

Definition t : Type := list (string * V).

Fixpoint get (k : string) (d : t) : option V :=
  match d with
  | [] => None
  | (k', v) :: d' => if String.eqb k k' then Some v else get k d'
  end.

(** [k in d] *)
Definition contains (k : string) (d : t) : bool :=
  match get k d with Some _ => true | None => false end.

(** [d[k] = v] *)
Fixpoint setitem (k : string) (v : V) (d : t) : t :=
  match d with
  | [] => [(k, v)]
  | (k', v') :: d' =>
      if String.eqb k k' then (k, v) :: d' else (k', v') :: setitem k v d'
  end.

Definition keys (d : t) : list string := map fst d.
Definition values (d : t) : list V := map snd d.
End Dict.
Arguments t V : clear implicits.
End PyDict.

Definition registry : Type := PyDict.t JUnitTestSuite.

(** ** The extraction worker *)

(** [extract_test_cases(suite, file_name, root)] (lines 212-244). The
    suite object is mutated in place by the source; here the mutated suite
    is returned next to the log and the count. *)
Definition extract_test_cases (args : Args) (suite : JUnitTestSuite)
    (file_name : string) (root : Element) : JUnitTestSuite * log * nat :=
  let xml_exclusions := ["logback"; "checkstyle"] in
  if any_in xml_exclusions file_name then (suite, [], 0)
  else
    let test_count := length (findall_descendants "testcase" root) in
    if Nat.eqb test_count 0 then
      (suite,
       [(WARNING, MsgNoTests file_name)] ++
       (if arg_debug args then [(INFO, MsgDump root)] else []),
       0)
    else
      let suite := add_file file_name suite in
      let found := iter "testcase" root in
      let suite :=
        fold_left (fun s testcase => add_testcase (new_testcase testcase) s)
                  found suite in
      (suite,
       match found with
       | [] => [(ERROR_LEVEL, MsgIterNothing file_name test_count);
                (ERROR_LEVEL, MsgDump root)]
       | _ :: _ => []
       end,
       test_count).

(** The local variables of [process_xml_file] that its [except] clauses
    read; [None] is a name that has not been assigned yet. *)
Record locals := {
  l_suite_name : option string;
  l_active_file : option string
}.

(** How the [try] block of [process_xml_file] ends: it runs to its end
    (with the two counters), executes [return 0,0], or raises. *)
Inductive completion :=
| Normal (test_file_count test_count : nat)
| Returned (r : nat * nat)
| Raised (e : exn).

(** Lines 185-196: the part of the [try] block that follows the claim of
    the suite name. *)
Definition claimed_block (args : Args) (xml_file suite_name : string)
    (root : Element) (test_suites : registry)
    : locals * registry * log * completion :=
  match PyDict.get suite_name test_suites with
  | None =>
      ({| l_suite_name := Some suite_name; l_active_file := None |},
       test_suites, [], Raised (KeyError suite_name))
  | Some active_suite =>
      let active_suite := set_archive xml_file active_suite in
      if str_in ".xml" xml_file then
        let '(active_suite, lg, fc) :=
          extract_test_cases args active_suite xml_file root in
        ({| l_suite_name := Some suite_name; l_active_file := Some xml_file |},
         PyDict.setitem suite_name active_suite test_suites, lg,
         if Nat.eqb fc 0 then Normal 0 0 else Normal 1 fc)
      else
        ({| l_suite_name := Some suite_name; l_active_file := Some "" |},
         PyDict.setitem suite_name active_suite test_suites, [],
         Normal 0 0)
  end.

(** Lines 173-196: the [try] block. *)
Definition try_block (args : Args) (f : XmlFile) (test_suites : registry)
    : locals * registry * log * completion :=
  let xml_file := xml_path f in
  match xml_content f with
  | ParseRaises e =>
      ({| l_suite_name := None; l_active_file := None |},
       test_suites, [], Raised e)
  | Parsed root =>
      let suite_name := str (get root "name") in
      let lg := [(PROGRESS, MsgProcessing xml_file suite_name)] in
      if PyDict.contains suite_name test_suites then
        ({| l_suite_name := Some suite_name; l_active_file := None |},
         test_suites,
         lg ++ [(ERROR_LEVEL, MsgDuplicate suite_name xml_file)],
         Returned (0, 0))
      else
        let test_suites :=
          PyDict.setitem suite_name (new_suite suite_name) test_suites in
        let '(l, test_suites, lg', c) :=
          claimed_block args xml_file suite_name root test_suites in
        (l, test_suites, lg ++ lg', c)
  end.

(** Lines 197-202: the two [except] clauses. Each formats its message
    before it logs, and the message reads a local variable: reading a name
    that was never assigned raises [UnboundLocalError] from inside the
    clause, before anything is logged. *)
Definition except_clauses (xml_file : string) (l : locals) (e : exn)
    : log * result (nat * nat) :=
  match e with
  | EOFError | ParseError =>
      match l_suite_name l with
      | None => ([], Raise (UnboundLocalError "suite_name"))
      | Some suite_name =>
          ([(ERROR_LEVEL, MsgParseSkipped xml_file e suite_name)],
           Return (0, 0))
      end
  | _ =>
      match l_active_file l with
      | None => ([], Raise (UnboundLocalError "active_file"))
      | Some active_file =>
          ([(CRITICAL, MsgUnexpected xml_file active_file e)], Raise e)
      end
  end.

(** How the function is left once the [try] block has ended: through the
    [return] of line 203, through the [return 0,0] of line 181, or through
    an [except] clause. *)
Definition leave (xml_file : string) (l : locals) (c : completion)
    : log * result (nat * nat) :=
  match c with
  | Normal test_file_count test_count =>
      ([], Return (test_file_count, test_count))
  | Returned r => ([], Return r)
  | Raised e => except_clauses xml_file l e
  end.

(** [process_xml_file(xml_file, input_dir, test_suites)] (lines 159-203):
    the registry after the call, what was logged, and the returned pair
    [(file count, test count)] or the exception that leaves the worker.
    The source does not use [input_dir]. *)
Definition process_xml_file (args : Args) (f : XmlFile) (test_suites : registry)
    : registry * log * result (nat * nat) :=
  let '(l, test_suites, lg, c) := try_block args f test_suites in
  let '(lg', r) := leave (xml_path f) l c in
  (test_suites, lg ++ lg', r).

(** ** Discovery and the orchestrator *)

(** [log_and_raise(msg, error_type)] (lines 305-307). *)
Definition log_and_raise {A : Type} (msg : string) (error_type : string -> exn)
    : log * result A :=
  ([(CRITICAL, MsgRaised msg)], Raise (error_type msg)).

(** [check_file_condition(function, msg)] (lines 297-302). *)
Definition check_file_condition (function : unit -> bool) (msg : string)
    : log * result unit :=
  if negb (function tt) then log_and_raise msg FileNotFoundError
  else ([], Return tt).

(** The three filter settings of [extract_junit_from_test_run], constants
    of the source (lines 94, 99 and 103). *)
Definition xml_exclusions : list string := ["split"; "result_details"].
Definition xml_inclusions : option (list string) := None.
Definition debug_file : option string := None.

(** Lines 105-110: the candidate files among those that
    [Path(input_dir).rglob('*.xml')] enumerates. *)
Definition candidate_files (rglob : list XmlFile) : list XmlFile :=
  match debug_file with
  | Some d => List.filter (fun file => str_in d (xml_path file)) rglob
  | None =>
      match xml_inclusions with
      | Some incl =>
          List.filter (fun file => any_in incl (xml_path file)) rglob
      | None =>
          List.filter (fun file => negb (any_in xml_exclusions (xml_path file)))
                      rglob
      end
  end.

Definition not_found_message (input_dir : string) : string :=
  String.append "Found 0 .xml files in path: "
    (String.append input_dir ". Cannot proceed with .xml extraction.").

(** Lines 105-112: discovery, which ends with the check that at least one
    candidate is left. *)
Definition discover (input_dir : string) (rglob : list XmlFile)
    : log * result (list XmlFile) :=
  let xml_files := candidate_files rglob in
  match check_file_condition (fun _ => negb (Nat.eqb (length xml_files) 0))
          (not_found_message input_dir) with
  | (lg, Raise e) => (lg, Raise e)
  | (lg, Return _) =>
      (lg ++ [(DEBUG, MsgExtracting (length xml_files) input_dir)],
       Return xml_files)
  end.

(** The counters of lines 114-116. *)
Record counters := {
  archive_count : nat;
  test_file_count : nat;
  test_count : nat
}.

(** The pool of line 127, with every worker running from its first to its
    last line before the next one starts, in the order given: the registry
    they leave, their logs, and their futures in completion order. *)
Fixpoint run_workers (args : Args) (xml_files : list XmlFile)
    (test_suites : registry) : registry * log * list (result (nat * nat)) :=
  match xml_files with
  | [] => (test_suites, [], [])
  | xml_file :: rest =>
      let '(test_suites, lg, future) :=
        process_xml_file args xml_file test_suites in
      let '(test_suites, lg', futures) := run_workers args rest test_suites in
      (test_suites, lg ++ lg', future :: futures)
  end.

(** Lines 128-136: the loop over [as_completed(futures)]. *)
Fixpoint collect (futures : list (result (nat * nat))) (c : counters)
    : log * result counters :=
  match futures with
  | [] => ([], Return c)
  | Raise exception :: _ => ([(CRITICAL, MsgSawException)], Raise exception)
  | Return (files, tests) :: rest =>
      collect rest
        {| archive_count := archive_count c;
           test_file_count := test_file_count c + files;
           test_count := test_count c + tests |}
  end.

(** [print_errors(suite)] (lines 206-209). *)
Definition print_errors (suite : JUnitTestSuite) : log :=
  (WARNING, MsgPrinting (failed suite) (suite_name suite)) ::
  map (fun testcase => (WARNING, MsgTestcase (tc_name testcase)))
      (get_tests FAILURE suite).

(** Lines 142-151: the sums over [test_suites.values()]. *)
Fixpoint tally (suites : list JUnitTestSuite) (acc : nat * nat * nat)
    : log * (nat * nat * nat) :=
  match suites with
  | [] => ([], acc)
  | suite :: rest =>
      let '(passed_, failed_, skipped_) := acc in
      let lg := if Nat.eqb (failed suite) 0 then [] else print_errors suite in
      let '(lg', acc') :=
        tally rest (passed_ + passed suite, failed_ + failed suite,
                    skipped_ + skipped suite) in
      (lg ++ lg', acc')
  end.

(** The totals that lines 138-155 report. *)
Record totals := {
  total_archives : nat;
  total_files : nat;
  total_suites : nat;
  total_tests : nat;
  total_passed : nat;
  total_failed : nat;
  total_skipped : nat
}.

(** Lines 114-156, from the candidate files on. [completion] is the order
    in which the pool runs and completes the workers, each one from its
    first to its last line before the next one starts ([aggregate_pool]
    lets their steps interleave). The source only logs the totals; they
    are returned here as well, next to the registry. *)
Definition aggregate (args : Args) (completion : list XmlFile)
    : log * result (registry * totals) :=
  let c0 := {| archive_count := 0; test_file_count := 0; test_count := 0 |} in
  let test_suites : registry := [] in
  let '(test_suites, lg_workers, futures) :=
    run_workers args completion test_suites in
  match collect futures c0 with
  | (lg, Raise e) => (lg_workers ++ lg, Raise e)
  | (lg, Return c) =>
      let '(lg_errors, (passed_, failed_, skipped_)) :=
        tally (PyDict.values test_suites) (0, 0, 0) in
      (lg_workers ++ lg ++
       [(PROGRESS, MsgTotalArchive (archive_count c));
        (PROGRESS, MsgTotalFiles (test_file_count c));
        (PROGRESS, MsgTotalSuites (length (PyDict.keys test_suites)));
        (PROGRESS, MsgTotalTests (test_count c))] ++
       lg_errors ++
       [(PROGRESS, MsgPassed passed_);
        (PROGRESS, MsgFailed failed_);
        (PROGRESS, MsgSkipped skipped_)],
       Return (test_suites,
               {| total_archives := archive_count c;
                  total_files := test_file_count c;
                  total_suites := length (PyDict.keys test_suites);
                  total_tests := test_count c;
                  total_passed := passed_;
                  total_failed := failed_;
                  total_skipped := skipped_ |}))
  end.

(** [extract_junit_from_test_run(input_dir)] (lines 86-156). [rglob] is
    what the directory walk enumerates and [sched] the order in which the
    pool completes the candidate files. *)
Definition extract_junit_from_test_run (args : Args)
    (sched : list XmlFile -> list XmlFile)
    (input_dir : string) (rglob : list XmlFile)
    : log * result (registry * totals) :=
  match discover input_dir rglob with
  | (lg, Raise e) => (lg, Raise e)
  | (lg, Return xml_files) =>
      let lg_list :=
        (INFO, MsgFileList) ::
        map (fun file => (INFO, MsgFileListed (xml_path file))) xml_files in
      let '(lg', r) := aggregate args (sched xml_files) in
      (lg ++ lg_list ++ lg', r)
  end.

(** ** The report emitter *)

(** What [append_failure_results] appends to the parsed report. *)
Inductive fragment :=
| FailureDetailsHeader                  (* the div of lines 258-260 *)
| StyleTags                             (* line 261 *)
| FailureTable (suite_name : string) (failure_count : nat)
               (rows : list JUnitTestCase).   (* lines 275-280 *)

(** The parsed report: the text it was parsed from and what was appended
    to it since. *)
Record Soup := {
  soup_source : string;
  soup_appended : list fragment
}.

(** The two questions the emitter asks of the [bs4] library: whether the
    parsed document has a [body], and how the document is serialised by
    [prettify(formatter=None)]. *)
Record Bs4 := {
  has_body : string -> bool;
  prettify : Soup -> string
}.

(** [sorted(keys)] on [str] keys. *)
Fixpoint insert_sorted (k : string) (l : list string) : list string :=
  match l with
  | [] => [k]
  | k' :: l' =>
      if String.leb k k' then k :: l else k' :: insert_sorted k l'
  end.

Definition sorted (l : list string) : list string :=
  fold_right insert_sorted [] l.

(** Lines 266-285: the loop over the sorted suite names, from the name
    list and the running total on: the tables appended, the log, and
    whether a lookup raised. *)
Fixpoint failure_tables (output : string) (test_suites : registry)
    (names : list string) (total_failure_count : nat)
    : list fragment * log * result unit :=
  match names with
  | [] => ([], [], Return tt)
  | suite_name :: rest =>
      match PyDict.get suite_name test_suites with
      | None => ([], [], Raise (KeyError suite_name))
      | Some suite =>
          let failure_count := count FAILURE suite in
          let '(tables, lg) :=
            if Nat.eqb failure_count 0
            then ([], [(DEBUG, MsgNoFailed suite_name)])
            else ([FailureTable suite_name failure_count
                     (get_tests FAILURE suite)], []) in
          let total_failure_count := total_failure_count + failure_count in
          if Nat.ltb 200 total_failure_count then
            (tables, lg ++ [(CRITICAL, MsgCap total_failure_count output)],
             Return tt)
          else
            let '(tables', lg', r) :=
              failure_tables output test_suites rest total_failure_count in
            (tables ++ tables', lg ++ lg', r)
      end
  end.

(** The file system: the content of every file that exists, the log file
    of the logger apart. *)
Abbreviation filesystem := (gmap string string).

(** Where the file operations of the emitter may fail: nowhere, while
    [shutil.copyfile] has copied [copied] characters, when the target is
    opened for writing, or after [written] characters of the new document
    have reached the target. *)
Inductive io_fault :=
| NoFault
| CopyFails (copied : nat)
| OpenFails
| WriteFails (written : nat).

Definition backup_path (output : string) : string :=
  String.append output ".bak".

(** Line 288: [shutil.copyfile(output, output + '.bak')]. *)
Definition backup (fault : io_fault) (output : string) (fs : filesystem)
    : filesystem * result unit :=
  match fs !! output with
  | None => (fs, Raise (FileNotFoundError output))
  | Some content =>
      match fault with
      | CopyFails copied =>
          (<[backup_path output := String.substring 0 copied content]> fs,
           Raise (OSError "copyfile"))
      | _ => (<[backup_path output := content]> fs, Return tt)
      end
  end.

(** Lines 292-293: the target is opened with mode ['w'], which empties it,
    and the new document is written to it. *)
Definition overwrite (fault : io_fault) (output new_content : string)
    (fs : filesystem) : filesystem * result unit :=
  match fault with
  | OpenFails => (fs, Raise (OSError "open"))
  | WriteFails written =>
      (<[output := String.substring 0 written new_content]> fs,
       Raise (OSError "write"))
  | _ => (<[output := new_content]> fs, Return tt)
  end.

(** [append_failure_results(test_suites, output)] (lines 249-294). *)
Definition append_failure_results (bs : Bs4) (fault : io_fault)
    (test_suites : registry) (output : string) (fs : filesystem)
    : filesystem * log * result unit :=
  match fs !! output with
  | None => (fs, [], Raise (FileNotFoundError output))
  | Some content =>
      if negb (has_body bs content) then (fs, [], Raise (AttributeError "append"))
      else
        let '(tables, lg, r) :=
          failure_tables output test_suites
            (sorted (PyDict.keys test_suites)) 0 in
        match r with
        | Raise e => (fs, lg, Raise e)
        | Return _ =>
            let soup :=
              {| soup_source := content;
                 soup_appended := FailureDetailsHeader :: StyleTags :: tables |} in
            match backup fault output fs with
            | (fs, Raise e) => (fs, lg, Raise e)
            | (fs, Return _) =>
                match overwrite fault output (prettify bs soup) fs with
                | (fs, Raise e) => (fs, lg, Raise e)
                | (fs, Return _) =>
                    (fs, lg ++ [(PROGRESS, MsgAppended output)], Return tt)
                end
            end
        end
  end.

(** ** The pool with its workers interleaved

    [process_xml_file] runs on the threads of a [ThreadPoolExecutor] with
    no lock around the registry. A worker is cut here at the two places
    where it touches the registry: the membership test of line 179 and the
    assignment of line 183; a third step runs lines 185-203. *)

(** Where a worker stands. *)
Inductive pc :=
| AtParse                                           (* before line 173 *)
| AtInsert (suite_name : string) (root : Element)   (* before line 183 *)
| AtClaimed (suite_name : string) (root : Element)  (* before line 185 *)
| Finished (r : result (nat * nat)).

(** What a step of a worker did to the registry claim. *)
Inductive event :=
| EvParseFailed
| EvRejected (suite_name : string)      (* line 179 found the name *)
| EvCheckPassed (suite_name : string)   (* line 179 did not find the name *)
| EvInserted (suite_name : string)      (* line 183 *)
| EvExtracted (suite_name : string).    (* lines 185-203 *)

Definition worker_step (args : Args) (f : XmlFile) (c : pc)
    (test_suites : registry) : pc * registry * log * list event :=
  let xml_file := xml_path f in
  match c with
  | AtParse =>
      match xml_content f with
      | ParseRaises e =>
          let '(lg, r) :=
            except_clauses xml_file
              {| l_suite_name := None; l_active_file := None |} e in
          (Finished r, test_suites, lg, [EvParseFailed])
      | Parsed root =>
          let suite_name := str (get root "name") in
          let lg := [(PROGRESS, MsgProcessing xml_file suite_name)] in
          if PyDict.contains suite_name test_suites then
            (Finished (Return (0, 0)), test_suites,
             lg ++ [(ERROR_LEVEL, MsgDuplicate suite_name xml_file)],
             [EvRejected suite_name])
          else
            (AtInsert suite_name root, test_suites, lg,
             [EvCheckPassed suite_name])
      end
  | AtInsert suite_name root =>
      (AtClaimed suite_name root,
       PyDict.setitem suite_name (new_suite suite_name) test_suites,
       [], [EvInserted suite_name])
  | AtClaimed suite_name root =>
      let '(l, test_suites, lg, c') :=
        claimed_block args xml_file suite_name root test_suites in
      let '(lg', r) := leave xml_file l c' in
      (Finished r, test_suites, lg ++ lg', [EvExtracted suite_name])
  | Finished r => (Finished r, test_suites, [], [])
  end.

(** The pool: the shared registry, every submitted worker with the place
    where it stands, the log, and the claim events so far, each with the
    index of the worker that made it. *)
Record pool := {
  shared : registry;
  workers : list (XmlFile * pc);
  pool_log : log;
  pool_trace : list (nat * event)
}.

(** Line 127: every candidate file is submitted. *)
Definition submit (xml_files : list XmlFile) : pool :=
  {| shared := [];
     workers := map (fun f => (f, AtParse)) xml_files;
     pool_log := [];
     pool_trace := [] |}.

(** Worker [i] is given the processor for one step. *)
Definition pool_step (args : Args) (p : pool) (i : nat) : pool :=
  match workers p !! i with
  | None => p
  | Some (f, c) =>
      let '(c', test_suites, lg, evs) := worker_step args f c (shared p) in
      {| shared := test_suites;
         workers := <[i := (f, c')]> (workers p);
         pool_log := pool_log p ++ lg;
         pool_trace := pool_trace p ++ map (pair i) evs |}
  end.

(** A schedule names the worker that runs at each step. *)
Definition run_schedule (args : Args) (schedule : list nat) (p : pool) : pool :=
  fold_left (pool_step args) schedule p.

(** ** The entry point *)

(** The records that [main] logs itself (lines 75-82); the records of the
    functions it calls are carried along as they are. *)
Inductive main_message :=
| Logged (m : message)
| MsgSuite (suite_name : string)                        (* line 75 *)
| MsgSuitePassed (n : nat)                              (* line 76 *)
| MsgSuiteFailure (n : nat)                             (* line 77 *)
| MsgSuiteSkipped (n : nat)                             (* line 78 *)
| MsgEmptyNoFiles (suite_name : string) (archive : option string) (* line 80 *)
| MsgEmptyUnexpected (suite_name : string).             (* line 82 *)

Definition main_log : Type := list (level * main_message).

Definition logged (lg : log) : main_log :=
  map (fun r => (fst r, Logged (snd r))) lg.

(** The blank report of line 70. *)
Definition blank_report : string :=
  "<html><head><body><h1>CI Summary – Test Failures</h1></body></head></html>".

(** Lines 75-82: what [main] logs for one suite. *)
Definition report_suite (suite : JUnitTestSuite) : main_log :=
  [(INFO, MsgSuite (suite_name suite));
   (INFO, MsgSuitePassed (passed suite));
   (INFO, MsgSuiteFailure (failed suite));
   (INFO, MsgSuiteSkipped (skipped suite))] ++
  (if is_empty suite && Nat.eqb (file_count suite) 0
   then [(WARNING, MsgEmptyNoFiles (suite_name suite) (suite_archive suite))]
   else if is_empty suite
   then [(WARNING, MsgEmptyUnexpected (suite_name suite))]
   else []).

Definition cannot_find_message (input : string) : string :=
  String.append "Cannot find " (String.append input ". Aborting.").

(** [main()] (lines 64-83). [tree] is what is found at [args.input]:
    nothing when the path does not exist, else the [*.xml] files that the
    recursive walk enumerates. [fault] is where the file operations of the
    emitter fail; the write of the blank report is taken to succeed.
    [fs] holds the files other than the log file: what the logger of
    line 59 writes there is the log that is returned. *)
Definition main (args : Args) (bs : Bs4) (fault : io_fault)
    (sched : list XmlFile -> list XmlFile)
    (tree : option (list XmlFile)) (fs : filesystem)
    : filesystem * main_log * result unit :=
  match check_file_condition
          (fun _ => match tree with Some _ => true | None => false end)
          (cannot_find_message (arg_input args)) with
  | (lg, Raise e) => (fs, logged lg, Raise e)
  | (lg, Return _) =>
      let fs :=
        match fs !! arg_output args with
        | Some _ => fs
        | None => <[arg_output args := blank_report]> fs
        end in
      let rglob := match tree with Some l => l | None => [] end in
      match extract_junit_from_test_run args sched (arg_input args) rglob with
      | (lg1, Raise e) => (fs, logged (lg ++ lg1), Raise e)
      | (lg1, Return (test_suites, _)) =>
          let lg2 := flat_map report_suite (PyDict.values test_suites) in
          let '(fs, lg3, r) :=
            append_failure_results bs fault test_suites (arg_output args) fs in
          (fs, logged (lg ++ lg1) ++ lg2 ++ logged lg3, r)
      end
  end.

(** ** Vocabulary of the statements *)

(** The suite name a file declares, when its content parses. *)
Definition declared_name (f : XmlFile) : option string :=
  match xml_content f with
  | Parsed root => Some (str (get root "name"))
  | ParseRaises _ => None
  end.

(** All elements below [e], at any depth, in document order. *)
Fixpoint descendants (e : Element) : list Element :=
  match e with
  | mkElement _ _ cs =>
      (fix below (l : list Element) : list Element :=
         match l with
         | [] => []
         | c :: l' => c :: descendants c ++ below l'
         end) cs
  end.

Definition is_testcase (e : Element) : bool := String.eqb (tag e) "testcase".

(** The secondary, file-name exclusion of [extract_test_cases]. *)
Definition excluded_by_name (file_name : string) : bool :=
  any_in ["logback"; "checkstyle"] file_name.

(** What lines 185-196 make of a suite that was just claimed by the file
    itself: the suite, the log and the returned pair. *)
Definition contribution (args : Args) (xml_file suite_name : string)
    (root : Element) : JUnitTestSuite * log * (nat * nat) :=
  let active_suite := set_archive xml_file (new_suite suite_name) in
  if str_in ".xml" xml_file then
    let '(s, lg, fc) := extract_test_cases args active_suite xml_file root in
    (s, lg, if Nat.eqb fc 0 then (0, 0) else (1, fc))
  else (active_suite, [], (0, 0)).

(** The totals of a run that reported some. *)
Definition reported {A : Type} (r : log * result (A * totals)) : option totals :=
  match snd r with
  | Return (_, t) => Some t
  | Raise _ => None
  end.

(** What a file whose suite name is free leaves in the registry, and the
    future of its worker. *)
Definition entry_of (args : Args) (f : XmlFile) : list (string * JUnitTestSuite) :=
  match xml_content f with
  | Parsed root =>
      let n := str (get root "name") in
      [(n, fst (fst (contribution args (xml_path f) n root)))]
  | ParseRaises _ => []
  end.

Definition future_of (args : Args) (f : XmlFile) : result (nat * nat) :=
  match xml_content f with
  | Parsed root =>
      Return (snd (contribution args (xml_path f) (str (get root "name")) root))
  | ParseRaises e =>
      snd (except_clauses (xml_path f)
             {| l_suite_name := None; l_active_file := None |} e)
  end.

(** The suite names that the files of a list declare, one per file that
    parses. *)
Definition declared_names (xml_files : list XmlFile) : list string :=
  omap declared_name xml_files.

(** The registry that the pool leaves when its workers run one at a time
    in the given order. *)
Definition final_registry (args : Args) (order : list XmlFile) : registry :=
  fst (fst (run_workers args order [])).

(** How many entries of a registry carry the name [n]. *)
Definition entries_named (n : string) (d : registry) : nat :=
  length (List.filter (String.eqb n) (PyDict.keys d)).

(** The value of a call that returned. *)
Definition returned {A : Type} (r : result A) : option A :=
  match r with
  | Return a => Some a
  | Raise _ => None
  end.

(** The totals that belong to the counters and the registry of a run. *)
Definition totals_of (c : counters) (test_suites : registry) : totals :=
  {| total_archives := archive_count c;
     total_files := test_file_count c;
     total_suites := length (PyDict.keys test_suites);
     total_tests := test_count c;
     total_passed := list_sum (map passed (PyDict.values test_suites));
     total_failed := list_sum (map failed (PyDict.values test_suites));
     total_skipped := list_sum (map skipped (PyDict.values test_suites)) |}.

(** In a trace, no check for a name passes after the name was inserted. *)
Definition no_pass_after_insert (trace : list (nat * event)) : Prop :=
  forall t1 i n t2 j,
    trace = t1 ++ (i, EvInserted n) :: t2 -> ~ In (j, EvCheckPassed n) t2.

(** Every name whose insertion is on the trace is in the shared registry. *)
Definition inserted_names_present (p : pool) : Prop :=
  forall i n,
    In (i, EvInserted n) (pool_trace p) -> In n (PyDict.keys (shared p)).

(** The failing test cases of the suites with the given names: the
    running total of the emitter once it is through these names. *)
Definition failures_of (test_suites : registry) (names : list string) : nat :=
  list_sum
    (map (fun n =>
            match PyDict.get n test_suites with
            | Some suite => count FAILURE suite
            | None => 0
            end) names).

(** The table of a suite, when it has a failing test case. *)
Definition table_of (test_suites : registry) (n : string) : list fragment :=
  match PyDict.get n test_suites with
  | Some suite =>
      if Nat.eqb (count FAILURE suite) 0 then []
      else [FailureTable n (count FAILURE suite) (get_tests FAILURE suite)]
  | None => []
  end.

Definition is_cap_record (r : log_record) : bool :=
  match r with
  | (CRITICAL, MsgCap _ _) => true
  | _ => false
  end.

Definition table_name (t : fragment) : string :=
  match t with
  | FailureTable n _ _ => n
  | _ => ""
  end.

(** Induction over a document, with the hypothesis for every child. *)
Fixpoint Element_nested_ind (P : Element -> Prop)
    (H : forall t a cs, Forall P cs -> P (mkElement t a cs))
    (e : Element) : P e :=
  match e with
  | mkElement t a cs =>
      H t a cs
        ((fix all (l : list Element) : Forall P l :=
            match l with
            | [] => @List.Forall_nil _ P
            | c :: l' => @List.Forall_cons _ P c l' (Element_nested_ind P H c) (all l')
            end) cs)
  end.

(** The schedule that lets every worker run its three steps in a row,
    one worker after the other. *)
Definition serial_schedule (first n : nat) : list nat :=
  flat_map (fun i => [i; i; i]) (seq first n).

(** A worker that has passed the membership test carries the name and the
    root of its own file. *)
Definition worker_consistent (w : XmlFile * pc) : Prop :=
  match snd w with
  | AtInsert n root | AtClaimed n root =>
      xml_content (fst w) = Parsed root /\ n = str (get root "name")
  | AtParse | Finished _ => True
  end.

(** A worker that is past line 183, or has left, finds the name of its
    file in the registry [d]. *)
Definition worker_claimed (d : registry) (w : XmlFile * pc) : Prop :=
  match snd w with
  | AtClaimed _ _ | Finished _ =>
      forall n, declared_name (fst w) = Some n -> In n (PyDict.keys d)
  | AtParse | AtInsert _ _ => True
  end.

Definition pool_consistent (p : pool) : Prop :=
  Forall (fun w => worker_consistent w /\ worker_claimed (shared p) w)
         (workers p).

Definition has_finished (w : XmlFile * pc) : Prop :=
  match snd w with
  | Finished _ => True
  | _ => False
  end.

(** ** Sample inputs *)

Definition sample_args : Args :=
  {| arg_input := "ci"; arg_output := "ci_summary.html"; arg_debug := false |}.

Definition passing_case (name : string) : Element :=
  mkElement "testcase" [("name", name)] [].

Definition failing_case (name : string) : Element :=
  mkElement "testcase" [("name", name)]
    [mkElement "failure" [("message", "assertion failed")] []].

(** A result file with [n] failing test cases, one level below the root. *)
Definition failing_file (path suite : string) (n : nat) : XmlFile :=
  {| xml_path := path;
     xml_content :=
       Parsed (mkElement "testsuite" [("name", suite)]
                 (repeat (failing_case "t") n)) |}.

(** A report in a [checkstyle] directory that shares the extension and
    the format of the result files. *)
Definition lint_root : Element :=
  mkElement "testsuite" [("name", "lint")] [passing_case "style"].

Definition lint_report : XmlFile :=
  {| xml_path := "ci/checkstyle/main.xml"; xml_content := Parsed lint_root |}.

(** Two result files that declare the same suite name. *)
Definition dup1 : XmlFile := failing_file "ci/dup1.xml" "flaky" 1.
Definition dup2 : XmlFile := failing_file "ci/dup2.xml" "flaky" 2.

(** A suite with [n] failing test cases. *)
Definition failing_suite (name : string) (n : nat) : JUnitTestSuite :=
  {| suite_name := name;
     suite_tests :=
       repeat {| tc_name := "t"; tc_classname := "c"; tc_status := FAILURE;
                 tc_time := None; tc_detail := Some "assertion failed" |} n;
     suite_files := [String.append name ".xml"];
     suite_archive := Some (String.append name ".xml") |}.

(** A broken run: 250 failing test cases, 200 of them in suite [a] and 50
    in suite [b]. *)
Definition broken_run : registry :=
  [("b", failing_suite "b" 50); ("a", failing_suite "a" 200)].

(** A run where the cap is passed by the first suite: 201 failures in
    suite [a] and 49 in suite [b], 250 in all. *)
Definition capped_run : registry :=
  [("b", failing_suite "b" 49); ("a", failing_suite "a" 201)].

(** A result file whose test cases sit at different depths. *)
Definition unit_root : Element :=
  mkElement "testsuites" [("name", "unit")]
    [mkElement "testsuite" [("name", "inner")]
       [passing_case "t1"; failing_case "t2"];
     passing_case "t3"].

Definition unit_file : XmlFile :=
  {| xml_path := "ci/unit/TEST-unit.xml"; xml_content := Parsed unit_root |}.

(** A stand-in for the [bs4] library. *)
Definition sample_bs : Bs4 :=
  {| has_body := str_in "<body";
     prettify := fun soup =>
       String.append (soup_source soup) "<!-- failure details -->" |}.

Definition sample_report : string := "<html><body><h1>CI</h1></body></html>".

(** A truncated document. *)
Definition truncated_file : XmlFile :=
  {| xml_path := "ci/truncated.xml"; xml_content := ParseRaises ParseError |}.

(** ** Vocabulary of the further properties *)

(** The test cases recorded in all suites of a registry. *)
Definition recorded_tests (d : registry) : nat :=
  list_sum (map (fun s => length (suite_tests s)) (PyDict.values d)).

(** The files and the tests that a future counts, and their sums over a
    list of futures. *)
Definition files_of (r : result (nat * nat)) : nat :=
  match r with Return (a, _) => a | Raise _ => 0 end.

Definition tests_of (r : result (nat * nat)) : nat :=
  match r with Return (_, b) => b | Raise _ => 0 end.

Definition files_sum (futures : list (result (nat * nat))) : nat :=
  list_sum (map files_of futures).

Definition tests_sum (futures : list (result (nat * nat))) : nat :=
  list_sum (map tests_of futures).

(** The root of a file that parses is not itself a test case. *)
Definition root_is_no_testcase (f : XmlFile) : Prop :=
  match xml_content f with
  | Parsed root => is_testcase root = false
  | ParseRaises _ => True
  end.

(** Ascending order on [str], as [sorted] uses it. *)
Definition str_le (a b : string) : Prop := String.leb a b = true.

(** The failing test cases that a fragment of the report lists. *)
Definition table_failures (t : fragment) : nat :=
  match t with
  | FailureTable _ n _ => n
  | _ => 0
  end.

(** The fragment is the failure table of the suite filed under its name,
    and that suite has a failing test case. *)
Definition table_of_failing_suite (test_suites : registry) (t : fragment) : Prop :=
  exists n suite,
    PyDict.get n test_suites = Some suite /\
    count FAILURE suite <> 0 /\
    t = FailureTable n (count FAILURE suite) (get_tests FAILURE suite).

(** The report with which the emitter starts when [main] calls it: the
    one that exists, or the blank one that [main] has just written. *)
Definition starting_report (output : string) (fs : filesystem) : string :=
  match fs !! output with
  | Some content => content
  | None => blank_report
  end.

Definition is_printing_record (r : log_record) : bool :=
  match r with
  | (_, MsgPrinting _ _) => true
  | _ => false
  end.

Definition is_testcase_record (r : log_record) : bool :=
  match r with
  | (_, MsgTestcase _) => true
  | _ => false
  end.

(** Where a worker stands against the shared registry [d] when it is the
    only one to declare its name: before line 183 the name is free,
    after it the name holds the new suite, and once the worker has left,
    its future and its entry are those of the file on its own. *)
Definition worker_alone (args : Args) (d : registry) (w : XmlFile * pc) : Prop :=
  match snd w with
  | AtParse =>
      forall n, declared_name (fst w) = Some n -> PyDict.get n d = None
  | AtInsert n root =>
      xml_content (fst w) = Parsed root /\ n = str (get root "name") /\
      PyDict.get n d = None
  | AtClaimed n root =>
      xml_content (fst w) = Parsed root /\ n = str (get root "name") /\
      PyDict.get n d = Some (new_suite n)
  | Finished r =>
      r = future_of args (fst w) /\
      forall n, declared_name (fst w) = Some n ->
                PyDict.get n d = PyDict.get n (entry_of args (fst w))
  end.

(** The pool when every worker is alone with its name, and the registry
    holds declared names only. *)
Definition pool_alone (args : Args) (p : pool) : Prop :=
  (forall j w, workers p !! j = Some w -> worker_alone args (shared p) w) /\
  (forall k, In k (PyDict.keys (shared p)) ->
             In k (declared_names (map fst (workers p)))).

(** The steps that a worker still has to take before it has left. *)
Definition steps_left (c : pc) : nat :=
  match c with
  | AtParse => 3
  | AtInsert _ _ => 2
  | AtClaimed _ _ => 1
  | Finished _ => 0
  end.

Definition is_unexpected_empty_record (r : level * main_message) : bool :=
  match r with
  | (_, MsgEmptyUnexpected _) => true
  | _ => false
  end.

(** Every worker whose membership test found the name of its file has
    left with [(0, 0)]. *)
Definition rejected_have_left (p : pool) : Prop :=
  forall j n,
    In (j, EvRejected n) (pool_trace p) ->
    exists f,
      workers p !! j = Some (f, Finished (Return (0, 0))) /\
      declared_name f = Some n.

(** ** The orchestrator over the interleaved pool

    [aggregate] lets every worker run from its first to its last line
    before the next one starts. Here the workers of line 127 take their
    steps as a schedule says, so that the lines of two calls of
    [process_xml_file] may alternate. *)

(** The futures of the workers that have left, in the order of their
    submission. *)
Definition pool_futures (p : pool) : list (result (nat * nat)) :=
  omap (fun w : XmlFile * pc =>
          match snd w with
          | Finished r => Some r
          | AtParse | AtInsert _ _ | AtClaimed _ _ => None
          end) (workers p).

(** The pool at the exit of the [with] block of line 126. The workers
    take their steps as [schedule] says; the exit of the block waits for
    every worker, so that those which the schedule has not let finish
    take their remaining steps then, one worker after the other. *)
Definition run_pool (args : Args) (schedule : list nat)
    (xml_files : list XmlFile) : pool :=
  run_schedule args (schedule ++ serial_schedule 0 (length xml_files))
    (submit xml_files).

(** Lines 128-155: the loop over the futures, in the order in which
    [as_completed] yields them, and the totals from the registry. *)
Definition collect_and_report (lg_workers : log) (test_suites : registry)
    (futures : list (result (nat * nat))) : log * result (registry * totals) :=
  let c0 := {| archive_count := 0; test_file_count := 0; test_count := 0 |} in
  match collect futures c0 with
  | (lg, Raise e) => (lg_workers ++ lg, Raise e)
  | (lg, Return c) =>
      let '(lg_errors, (passed_, failed_, skipped_)) :=
        tally (PyDict.values test_suites) (0, 0, 0) in
      (lg_workers ++ lg ++
       [(PROGRESS, MsgTotalArchive (archive_count c));
        (PROGRESS, MsgTotalFiles (test_file_count c));
        (PROGRESS, MsgTotalSuites (length (PyDict.keys test_suites)));
        (PROGRESS, MsgTotalTests (test_count c))] ++
       lg_errors ++
       [(PROGRESS, MsgPassed passed_);
        (PROGRESS, MsgFailed failed_);
        (PROGRESS, MsgSkipped skipped_)],
       Return (test_suites,
               {| total_archives := archive_count c;
                  total_files := test_file_count c;
                  total_suites := length (PyDict.keys test_suites);
                  total_tests := test_count c;
                  total_passed := passed_;
                  total_failed := failed_;
                  total_skipped := skipped_ |}))
  end.

(** Lines 114-156 over the interleaved pool. [schedule] is the
    interleaving of the workers and [completion] the order in which
    [as_completed] yields their futures. *)
Definition aggregate_pool (args : Args) (schedule : list nat)
    (completion : list (result (nat * nat)) -> list (result (nat * nat)))
    (xml_files : list XmlFile) : log * result (registry * totals) :=
  let p := run_pool args schedule xml_files in
  collect_and_report (pool_log p) (shared p) (completion (pool_futures p)).

(** * Properties *)

(** ** The dictionary *)

Section DictFacts.
Context {V : Type}.
Implicit Types (d : PyDict.t V) (k : string) (v : V).

Lemma get_setitem_eq k v d : PyDict.get k (PyDict.setitem k v d) = Some v.
Proof.
  induction d as [|[k' v'] d IH]; simpl.
  - now rewrite String.eqb_refl.
  - destruct (String.eqb_spec k k') as [->|Hne]; simpl.
    + now rewrite String.eqb_refl.
    + destruct (String.eqb_spec k k'); [contradiction|exact IH].
Qed.

Lemma get_setitem_ne k k' v d :
  k <> k' -> PyDict.get k' (PyDict.setitem k v d) = PyDict.get k' d.
Proof.
  intros Hne. induction d as [|[k0 v0] d IH]; simpl.
  - destruct (String.eqb_spec k' k); [congruence|reflexivity].
  - destruct (String.eqb_spec k k0) as [->|Hk]; simpl.
    + destruct (String.eqb_spec k' k0); [congruence|reflexivity].
    + destruct (String.eqb_spec k' k0); [reflexivity|exact IH].
Qed.

Lemma get_None_keys k d : PyDict.get k d = None <-> ~ In k (PyDict.keys d).
Proof.
  induction d as [|[k' v'] d IH]; simpl.
  - tauto.
  - destruct (String.eqb_spec k k') as [->|Hne].
    + split; [discriminate|tauto].
    + rewrite IH. split; [intros H [E|HI]; [congruence|tauto]|tauto].
Qed.

Lemma contains_keys k d : PyDict.contains k d = true <-> In k (PyDict.keys d).
Proof.
  unfold PyDict.contains.
  destruct (PyDict.get k d) eqn:E.
  - split; [intros _|reflexivity].
    destruct (in_dec string_dec k (PyDict.keys d)) as [H|H]; [exact H|].
    apply get_None_keys in H. congruence.
  - split; [discriminate|]. intros H. apply get_None_keys in E. tauto.
Qed.

Lemma contains_false k d : PyDict.contains k d = false <-> PyDict.get k d = None.
Proof.
  unfold PyDict.contains. destruct (PyDict.get k d); split; congruence.
Qed.

(** Assigning to a new key appends it. *)
Lemma setitem_fresh k v d :
  PyDict.get k d = None -> PyDict.setitem k v d = d ++ [(k, v)].
Proof.
  induction d as [|[k' v'] d IH]; simpl; [reflexivity|].
  destruct (String.eqb_spec k k'); [discriminate|].
  intros H. now rewrite IH.
Qed.

(** Assigning to the key that was appended last replaces its value. *)
Lemma setitem_last k v v' d :
  PyDict.get k d = None ->
  PyDict.setitem k v' (d ++ [(k, v)]) = d ++ [(k, v')].
Proof.
  induction d as [|[k0 v0] d IH]; simpl.
  - now rewrite String.eqb_refl.
  - destruct (String.eqb_spec k k0); [discriminate|].
    intros H. now rewrite IH.
Qed.

Lemma get_app_fresh k v d :
  PyDict.get k d = None -> PyDict.get k (d ++ [(k, v)]) = Some v.
Proof.
  induction d as [|[k0 v0] d IH]; simpl.
  - now rewrite String.eqb_refl.
  - destruct (String.eqb_spec k k0); [discriminate|exact IH].
Qed.

(** Assigning to a key that is present keeps the keys as they are. *)
Lemma keys_setitem_present k v d :
  In k (PyDict.keys d) -> PyDict.keys (PyDict.setitem k v d) = PyDict.keys d.
Proof.
  induction d as [|[k' v'] d IH]; simpl; [tauto|].
  destruct (String.eqb_spec k k') as [->|Hne]; simpl; [reflexivity|].
  intros [E|HI]; [congruence|]. now rewrite IH.
Qed.

Lemma keys_setitem k v d :
  PyDict.keys (PyDict.setitem k v d) =
  if PyDict.contains k d then PyDict.keys d else PyDict.keys d ++ [k].
Proof.
  destruct (PyDict.contains k d) eqn:E.
  - apply keys_setitem_present, contains_keys, E.
  - apply contains_false in E. rewrite (setitem_fresh _ _ _ E).
    unfold PyDict.keys. now rewrite map_app.
Qed.

Lemma keys_setitem_incl k k' v d :
  In k' (PyDict.keys d) -> In k' (PyDict.keys (PyDict.setitem k v d)).
Proof.
  rewrite keys_setitem. destruct (PyDict.contains k d); [tauto|].
  intros H. apply in_or_app. now left.
Qed.

Lemma keys_setitem_in k v d : In k (PyDict.keys (PyDict.setitem k v d)).
Proof.
  rewrite keys_setitem. destruct (PyDict.contains k d) eqn:E.
  - now apply contains_keys.
  - apply in_or_app. right. now left.
Qed.

(** No assignment ever makes a key occur twice. *)
Lemma NoDup_keys_setitem k v d :
  NoDup (PyDict.keys d) -> NoDup (PyDict.keys (PyDict.setitem k v d)).
Proof.
  intros H. rewrite keys_setitem. destruct (PyDict.contains k d) eqn:E.
  - exact H.
  - apply contains_false, get_None_keys in E.
    apply NoDup_app. split; [exact H|split].
    + intros x Hx Hx'. apply list_elem_of_In in Hx.
      apply list_elem_of_In in Hx'. destruct Hx' as [<-|[]]. tauto.
    + apply NoDup_singleton.
Qed.
End DictFacts.

(** ** The worker, one file at a time *)

Lemma process_xml_file_raises args f e test_suites :
  xml_content f = ParseRaises e ->
  process_xml_file args f test_suites =
  (test_suites,
   fst (except_clauses (xml_path f)
          {| l_suite_name := None; l_active_file := None |} e),
   snd (except_clauses (xml_path f)
          {| l_suite_name := None; l_active_file := None |} e)).
Proof.
  intros H. unfold process_xml_file, try_block. rewrite H. simpl.
  now destruct (except_clauses _ _ e).
Qed.

(** A file whose suite name is taken is turned away and leaves the
    registry as it found it. *)
Lemma process_xml_file_duplicate args f root test_suites :
  xml_content f = Parsed root ->
  PyDict.contains (str (get root "name")) test_suites = true ->
  process_xml_file args f test_suites =
  (test_suites,
   [(PROGRESS, MsgProcessing (xml_path f) (str (get root "name")));
    (ERROR_LEVEL, MsgDuplicate (str (get root "name")) (xml_path f))],
   Return (0, 0)).
Proof.
  intros H Hc. unfold process_xml_file, try_block. rewrite H, Hc. reflexivity.
Qed.

Lemma claimed_block_fresh args xml_file name root (d : registry) :
  PyDict.get name d = None ->
  let '(s, lg, r) := contribution args xml_file name root in
  exists l,
    claimed_block args xml_file name root
      (PyDict.setitem name (new_suite name) d) =
    (l, d ++ [(name, s)], lg,
     Normal (fst r) (snd r)).
Proof.
  intros Hd. unfold contribution, claimed_block.
  rewrite get_setitem_eq, (setitem_fresh _ _ _ Hd).
  destruct (str_in ".xml" xml_file).
  - destruct (extract_test_cases _ _ _ _) as [[s lg] fc].
    eexists. rewrite (setitem_last _ _ _ _ Hd).
    destruct (Nat.eqb fc 0); reflexivity.
  - eexists. now rewrite (setitem_last _ _ _ _ Hd).
Qed.

(** A file whose suite name is free appends one entry, which holds what
    the file alone contributes. *)
Lemma process_xml_file_fresh args f root test_suites :
  xml_content f = Parsed root ->
  PyDict.get (str (get root "name")) test_suites = None ->
  process_xml_file args f test_suites =
  let '(s, lg, r) :=
    contribution args (xml_path f) (str (get root "name")) root in
  (test_suites ++ [(str (get root "name"), s)],
   (PROGRESS, MsgProcessing (xml_path f) (str (get root "name"))) :: lg,
   Return r).
Proof.
  intros H Hd. unfold process_xml_file, try_block. rewrite H.
  assert (Hc : PyDict.contains (str (get root "name")) test_suites = false)
    by now apply contains_false.
  rewrite Hc.
  pose proof (claimed_block_fresh args (xml_path f) _ root _ Hd) as Hb.
  destruct (contribution _ _ _ _) as [[s lg] [a b]].
  destruct Hb as [l ->]. simpl. now rewrite app_nil_r.
Qed.

(** ** The orchestrator: futures and counters *)

Lemma run_workers_app args xs ys test_suites :
  run_workers args (xs ++ ys) test_suites =
  let '(t1, lg1, fs1) := run_workers args xs test_suites in
  let '(t2, lg2, fs2) := run_workers args ys t1 in
  (t2, lg1 ++ lg2, fs1 ++ fs2).
Proof.
  revert test_suites. induction xs as [|x xs IH]; intros test_suites; simpl.
  - now destruct (run_workers args ys test_suites) as [[t2 lg2] fs2].
  - destruct (process_xml_file args x test_suites) as [[t0 lg0] r0].
    rewrite IH.
    destruct (run_workers args xs t0) as [[t1 lg1] fs1].
    destruct (run_workers args ys t1) as [[t2 lg2] fs2].
    now rewrite app_assoc.
Qed.

(** One raised future is enough for the loop of lines 128-136 to raise. *)
Lemma collect_raises futures c e :
  In (Raise e) futures ->
  exists lg e', collect futures c = (lg, Raise e').
Proof.
  revert c. induction futures as [|[[files tests]|e0] futures IH];
    intros c Hin; simpl.
  - destruct Hin.
  - destruct Hin as [Heq|Hin]; [discriminate|]. now apply IH.
  - eauto.
Qed.

(** The loop never touches the archive counter. *)
Lemma collect_archive_count futures c lg c' :
  collect futures c = (lg, Return c') -> archive_count c' = archive_count c.
Proof.
  revert c. induction futures as [|[[files tests]|e0] futures IH];
    intros c H; simpl in H.
  - now inversion H.
  - apply IH in H. exact H.
  - discriminate.
Qed.

(** ** C1: a file that fails to parse *)

(** C1 (as the code behaves): for a file whose content raises
    [ParseError] or [EOFError] in [ET.parse], the [except] clause of
    line 197 reads [suite_name] before it was ever assigned. The worker
    therefore logs nothing, creates no registry entry, and leaves with
    [UnboundLocalError] instead of returning [(0, 0)]; the orchestrator
    then raises it, whatever the other files are. *)
Theorem parse_failure_escapes_worker :
  forall args path test_suites,
    process_xml_file args
      {| xml_path := path; xml_content := ParseRaises ParseError |}
      test_suites =
    (test_suites, [], Raise (UnboundLocalError "suite_name")) /\
    process_xml_file args
      {| xml_path := path; xml_content := ParseRaises EOFError |}
      test_suites =
    (test_suites, [], Raise (UnboundLocalError "suite_name")) /\
    forall before after,
      exists e,
        snd (aggregate args
               (before ++
                {| xml_path := path; xml_content := ParseRaises ParseError |}
                :: after)) = Raise e.
Proof.
  intros args path test_suites. split; [reflexivity|split; [reflexivity|]].
  intros before after. unfold aggregate.
  rewrite run_workers_app.
  destruct (run_workers args before []) as [[t1 lg1] fs1].
  simpl.
  destruct (run_workers args after t1) as [[t2 lg2] fs2].
  destruct (collect_raises (fs1 ++ Raise (UnboundLocalError "suite_name") :: fs2)
              {| archive_count := 0; test_file_count := 0; test_count := 0 |}
              (UnboundLocalError "suite_name")) as (lg & e' & ->).
  - apply in_or_app. right. now left.
  - simpl. now exists e'.
Qed.

(** ** C6: discovery with no candidate file *)

Lemma discover_empty input_dir rglob :
  candidate_files rglob = [] ->
  discover input_dir rglob =
  ([(CRITICAL, MsgRaised (not_found_message input_dir))],
   Raise (FileNotFoundError (not_found_message input_dir))).
Proof.
  intros H. unfold discover, check_file_condition. now rewrite H.
Qed.

Lemma discover_nonempty input_dir rglob :
  candidate_files rglob <> [] ->
  discover input_dir rglob =
  ([(DEBUG, MsgExtracting (length (candidate_files rglob)) input_dir)],
   Return (candidate_files rglob)).
Proof.
  intros H. unfold discover, check_file_condition.
  destruct (candidate_files rglob) as [|x l]; [contradiction|reflexivity].
Qed.

(** C6: when no candidate file is left after the filter, discovery logs
    and raises [FileNotFoundError], and the whole of
    [extract_junit_from_test_run] is that raise, whatever the pool would
    have done: no worker has run. When a candidate is left, discovery
    returns the candidates and raises nothing. *)
Theorem discovery_raises_iff_no_candidate :
  forall input_dir rglob,
    (candidate_files rglob = [] ->
     discover input_dir rglob =
       ([(CRITICAL, MsgRaised (not_found_message input_dir))],
        Raise (FileNotFoundError (not_found_message input_dir))) /\
     forall args sched,
       extract_junit_from_test_run args sched input_dir rglob =
       ([(CRITICAL, MsgRaised (not_found_message input_dir))],
        Raise (FileNotFoundError (not_found_message input_dir)))) /\
    (candidate_files rglob <> [] ->
     discover input_dir rglob =
       ([(DEBUG, MsgExtracting (length (candidate_files rglob)) input_dir)],
        Return (candidate_files rglob))).
Proof.
  intros input_dir rglob. split.
  - intros H. split; [now apply discover_empty|].
    intros args sched. unfold extract_junit_from_test_run.
    now rewrite (discover_empty _ _ H).
  - apply discover_nonempty.
Qed.

(** ** C10: the archive counter *)

Lemma aggregate_archive_count args completion lg test_suites t :
  aggregate args completion = (lg, Return (test_suites, t)) ->
  total_archives t = 0 /\ In (PROGRESS, MsgTotalArchive 0) lg.
Proof.
  unfold aggregate.
  destruct (run_workers args completion []) as [[ts lgw] futures].
  destruct (collect futures _) as [lgc [c|e]] eqn:Hc; [|discriminate].
  apply collect_archive_count in Hc. simpl in Hc.
  destruct (tally (PyDict.values ts) (0, 0, 0)) as [lge [[p f'] s]].
  intros H. inversion H; subst; clear H. simpl. split; [exact Hc|].
  rewrite Hc. apply in_or_app. right. apply in_or_app. right. now left.
Qed.

(** C10: whatever the files and the order of the pool, a run that reports
    totals reports an archive count of zero: it is in the totals and on
    the log as [Total archive count: 0]. *)
Theorem archive_count_always_zero :
  forall args sched input_dir rglob lg test_suites t,
    extract_junit_from_test_run args sched input_dir rglob =
      (lg, Return (test_suites, t)) ->
    total_archives t = 0 /\ In (PROGRESS, MsgTotalArchive 0) lg.
Proof.
  intros args sched input_dir rglob lg test_suites t.
  unfold extract_junit_from_test_run.
  destruct (discover input_dir rglob) as [lgd [xml_files|e]]; [|discriminate].
  destruct (aggregate args (sched xml_files)) as [lga r] eqn:Ha.
  intros H. inversion H; subst; clear H.
  apply aggregate_archive_count in Ha. destruct Ha as [Ht Hin].
  split; [exact Ht|].
  apply in_or_app. right. right. apply in_or_app. now right.
Qed.

(** ** C5: every test case of a document is extracted *)

Lemma iter_unfold t e :
  iter t e =
  (if String.eqb (tag e) t then [e] else []) ++ findall_descendants t e.
Proof.
  destruct e as [t' a cs]. reflexivity.
Qed.

(** [iter] visits the element and everything below it, at any depth. *)
Lemma iter_descendants t e :
  iter t e =
  List.filter (fun c => String.eqb (tag c) t) (e :: descendants e).
Proof.
  induction e as [t' a cs IH] using Element_nested_ind.
  cbn [iter descendants List.filter tag].
  destruct (String.eqb t' t); cbn [app]; [f_equal|];
    (induction IH as [|c cs Hc _ IHcs]; [reflexivity|];
     rewrite Hc, IHcs; cbn [List.filter];
     destruct (String.eqb (tag c) t); cbn [app];
     rewrite ?List.filter_app; reflexivity).
Qed.

(** [findall('.//testcase')] finds the test cases at every depth below
    the root. *)
Lemma findall_descendants_filter t e :
  findall_descendants t e =
  List.filter (fun c => String.eqb (tag c) t) (descendants e).
Proof.
  pose proof (iter_descendants t e) as H. rewrite iter_unfold in H.
  cbn [List.filter] in H.
  destruct (String.eqb (tag e) t); cbn [app] in H; [now inversion H|exact H].
Qed.

Lemma fold_add_testcase found s :
  fold_left (fun s0 testcase => add_testcase (new_testcase testcase) s0) found s =
  {| suite_name := suite_name s;
     suite_tests := suite_tests s ++ map new_testcase found;
     suite_files := suite_files s;
     suite_archive := suite_archive s |}.
Proof.
  revert s. induction found as [|c found IH]; intros s; simpl.
  - rewrite app_nil_r. now destruct s.
  - rewrite IH. simpl. now rewrite <- app_assoc.
Qed.

(** Every recorded test case counts as passed, failed or skipped. *)
Lemma passed_failed_skipped s :
  passed s + failed s + skipped s = length (suite_tests s).
Proof.
  unfold passed, failed, skipped, count, get_tests.
  induction (suite_tests s) as [|c l IH]; simpl; [reflexivity|].
  destruct (tc_status c); simpl; lia.
Qed.

(** C5 (amended): a document that parses, whose root is not itself a
    test case, whose file name holds [.xml] and neither [logback] nor
    [checkstyle], and whose suite name is free, with [N] test-case
    elements at any depth below the root: the worker appends one suite
    with exactly [N] test cases, returns [N] as its test count (and one
    file unless [N] is zero), and the suite's passed, failed and skipped
    counts add up to [N]. *)
Theorem extraction_counts_every_testcase :
  forall args f root test_suites N,
    xml_content f = Parsed root ->
    is_testcase root = false ->
    PyDict.get (str (get root "name")) test_suites = None ->
    str_in ".xml" (xml_path f) = true ->
    excluded_by_name (xml_path f) = false ->
    N = length (List.filter is_testcase (descendants root)) ->
    exists lg suite,
      process_xml_file args f test_suites =
        (test_suites ++ [(str (get root "name"), suite)], lg,
         Return (if Nat.eqb N 0 then 0 else 1, N)) /\
      length (suite_tests suite) = N /\
      passed suite + failed suite + skipped suite = N.
Proof.
  intros args f root test_suites N Hp Hroot Hfree Hxml Hexcl HN.
  rewrite (process_xml_file_fresh _ _ _ _ Hp Hfree).
  unfold contribution. rewrite Hxml. unfold extract_test_cases.
  unfold excluded_by_name in Hexcl. rewrite Hexcl.
  rewrite iter_unfold. unfold is_testcase in Hroot. rewrite Hroot.
  cbn [app]. rewrite findall_descendants_filter.
  fold is_testcase. change (fun c => String.eqb (tag c) "testcase") with is_testcase.
  rewrite <- HN.
  destruct (Nat.eqb N 0) eqn:E0.
  - apply Nat.eqb_eq in E0. subst N. rewrite E0.
    eexists _, _. split; [reflexivity|]. rewrite passed_failed_skipped.
    simpl. split; congruence.
  - rewrite E0.
    eexists _, _. split; [reflexivity|]. rewrite passed_failed_skipped.
    rewrite fold_add_testcase. simpl. rewrite length_map. split; congruence.
Qed.

(** C5 (as stated) fails for a document in a file whose name the
    secondary filter excludes: the document is valid and holds one test
    case, yet its suite stays empty and the worker returns [(0, 0)]. *)
Lemma excluded_file_name_drops_testcases :
  xml_content lint_report = Parsed lint_root /\
  length (List.filter is_testcase (descendants lint_root)) = 1 /\
  process_xml_file sample_args lint_report [] =
  ([("lint",
     {| suite_name := "lint"; suite_tests := []; suite_files := [];
        suite_archive := Some "ci/checkstyle/main.xml" |})],
   [(PROGRESS, MsgProcessing "ci/checkstyle/main.xml" "lint")],
   Return (0, 0)).
Proof.
  repeat split; vm_compute; reflexivity.
Qed.

(** ** C2 and C9: what a worker does to the registry *)

Lemma declared_name_parsed f root :
  xml_content f = Parsed root -> declared_name f = Some (str (get root "name")).
Proof. unfold declared_name. now intros ->. Qed.

(** The keys after a worker: one more, at the end, exactly when the file
    parses and declares a name that is free. *)
Lemma process_xml_file_keys args f test_suites :
  PyDict.keys (fst (fst (process_xml_file args f test_suites))) =
  match declared_name f with
  | Some n =>
      if PyDict.contains n test_suites then PyDict.keys test_suites
      else PyDict.keys test_suites ++ [n]
  | None => PyDict.keys test_suites
  end.
Proof.
  unfold declared_name. destruct (xml_content f) as [root|e] eqn:Hp.
  - destruct (PyDict.contains (str (get root "name")) test_suites) eqn:Hc.
    + now rewrite (process_xml_file_duplicate _ _ _ _ Hp Hc).
    + apply contains_false in Hc.
      rewrite (process_xml_file_fresh _ _ _ _ Hp Hc).
      destruct (contribution _ _ _ _) as [[s lg] r]. simpl.
      unfold PyDict.keys. now rewrite map_app.
  - now rewrite (process_xml_file_raises _ _ _ _ Hp).
Qed.

(** A worker never changes an entry that it finds in the registry. *)
Lemma process_xml_file_preserves args f test_suites n s :
  PyDict.get n test_suites = Some s ->
  PyDict.get n (fst (fst (process_xml_file args f test_suites))) = Some s.
Proof.
  intros Hn. destruct (xml_content f) as [root|e] eqn:Hp.
  - destruct (PyDict.contains (str (get root "name")) test_suites) eqn:Hc.
    + now rewrite (process_xml_file_duplicate _ _ _ _ Hp Hc).
    + apply contains_false in Hc.
      rewrite (process_xml_file_fresh _ _ _ _ Hp Hc).
      destruct (contribution _ _ _ _) as [[s' lg] r]. simpl.
      rewrite <- (setitem_fresh _ s' _ Hc).
      rewrite get_setitem_ne; [exact Hn|]. congruence.
  - now rewrite (process_xml_file_raises _ _ _ _ Hp).
Qed.

Lemma run_workers_cons args f rest test_suites :
  fst (fst (run_workers args (f :: rest) test_suites)) =
  fst (fst (run_workers args rest
              (fst (fst (process_xml_file args f test_suites))))).
Proof.
  cbn [run_workers].
  destruct (process_xml_file args f test_suites) as [[t lg] r].
  cbn [fst]. now destruct (run_workers args rest t) as [[t' lg'] rs].
Qed.

Lemma run_workers_preserves args order test_suites n s :
  PyDict.get n test_suites = Some s ->
  PyDict.get n (fst (fst (run_workers args order test_suites))) = Some s.
Proof.
  revert test_suites. induction order as [|f rest IH]; intros d Hn.
  - exact Hn.
  - rewrite run_workers_cons. apply IH.
    now apply process_xml_file_preserves.
Qed.

Lemma run_workers_NoDup args order test_suites :
  NoDup (PyDict.keys test_suites) ->
  NoDup (PyDict.keys (fst (fst (run_workers args order test_suites)))).
Proof.
  revert test_suites. induction order as [|f rest IH]; intros d Hd.
  - exact Hd.
  - rewrite run_workers_cons. apply IH. rewrite process_xml_file_keys.
    destruct (declared_name f) as [n|]; [|exact Hd].
    destruct (PyDict.contains n d) eqn:Hc; [exact Hd|].
    apply contains_false, get_None_keys in Hc.
    apply NoDup_app. split; [exact Hd|split; [|apply NoDup_singleton]].
    intros x Hx Hx'. apply list_elem_of_In in Hx.
    apply list_elem_of_In in Hx'. destruct Hx' as [<-|[]]. tauto.
Qed.

(** The names in the registry after a run: those that were there and
    those that the files declare. *)
Lemma run_workers_keys args order test_suites n :
  In n (PyDict.keys (fst (fst (run_workers args order test_suites)))) <->
  In n (PyDict.keys test_suites) \/ In n (declared_names order).
Proof.
  revert test_suites. induction order as [|f rest IH]; intros d.
  - simpl. tauto.
  - rewrite run_workers_cons, IH, process_xml_file_keys.
    unfold declared_names. cbn [omap list_omap].
    fold (omap declared_name rest).
    destruct (declared_name f) as [m|]; [|tauto].
    destruct (PyDict.contains m d) eqn:Hc.
    + apply contains_keys in Hc. simpl. split; [tauto|].
      intros [H|[<-|H]]; tauto.
    + rewrite in_app_iff. simpl. tauto.
Qed.

Lemma filter_eqb_absent n (l : list string) :
  ~ In n l -> List.filter (String.eqb n) l = [].
Proof.
  induction l as [|k l IH]; intros H; simpl; [reflexivity|].
  destruct (String.eqb_spec n k) as [->|Hne].
  - exfalso. apply H. now left.
  - apply IH. intros Hin. apply H. now right.
Qed.

Lemma entries_named_NoDup n (d : registry) :
  NoDup (PyDict.keys d) -> In n (PyDict.keys d) -> entries_named n d = 1.
Proof.
  unfold entries_named. induction (PyDict.keys d) as [|k l IH]; intros Hd Hin.
  - destruct Hin.
  - apply NoDup_cons in Hd. destruct Hd as [Hk Hl]. simpl.
    destruct (String.eqb_spec n k) as [->|Hne].
    + simpl. rewrite filter_eqb_absent; [reflexivity|].
      intros H. apply Hk. now apply list_elem_of_In.
    + destruct Hin as [E|Hin]; [congruence|]. now apply IH.
Qed.

Lemma run_workers_app_registry args xs ys test_suites :
  fst (fst (run_workers args (xs ++ ys) test_suites)) =
  fst (fst (run_workers args ys (fst (fst (run_workers args xs test_suites))))).
Proof.
  rewrite run_workers_app.
  destruct (run_workers args xs test_suites) as [[t1 lg1] fs1]. cbn [fst].
  now destruct (run_workers args ys t1) as [[t2 lg2] fs2].
Qed.

Lemma run_workers_futures_length args xs test_suites :
  length (snd (run_workers args xs test_suites)) = length xs.
Proof.
  revert test_suites. induction xs as [|x xs IH]; intros d; [reflexivity|].
  cbn [run_workers]. destruct (process_xml_file args x d) as [[t lg] r].
  specialize (IH t). destruct (run_workers args xs t) as [[t' lg'] rs].
  simpl in *. now rewrite IH.
Qed.

(** The future of the file that runs after [before]. *)
Lemma run_workers_future_at args before f after :
  snd (run_workers args (before ++ f :: after) []) !! length before =
  Some (snd (process_xml_file args f (final_registry args before))).
Proof.
  unfold final_registry. rewrite run_workers_app.
  pose proof (run_workers_futures_length args before []) as Hlen.
  destruct (run_workers args before []) as [[t1 lg1] fs1].
  cbn [fst snd] in *. cbn [run_workers].
  destruct (process_xml_file args f t1) as [[t lg] r].
  destruct (run_workers args after t) as [[t' lg'] rs]. cbn [snd].
  rewrite lookup_app_r by lia. rewrite Hlen, Nat.sub_diag. reflexivity.
Qed.

(** ** The pool: uninterrupted workers, and what every step keeps *)

(** A worker that is never interrupted is [process_xml_file]. *)
Lemma worker_step_uninterrupted args f test_suites :
  let '(c1, d1, lg1, _) := worker_step args f AtParse test_suites in
  let '(c2, d2, lg2, _) := worker_step args f c1 d1 in
  let '(c3, d3, lg3, _) := worker_step args f c2 d2 in
  (d3, lg1 ++ lg2 ++ lg3, c3) =
  (let '(d, lg, r) := process_xml_file args f test_suites in
   (d, lg, Finished r)).
Proof.
  unfold process_xml_file, try_block. cbn [worker_step].
  destruct (xml_content f) as [root|e].
  - destruct (PyDict.contains (str (get root "name")) test_suites).
    + cbn [worker_step leave]. now rewrite !app_nil_r.
    + cbn [worker_step].
      destruct (claimed_block _ _ _ _ _) as [[[l d] lg] c].
      destruct (leave (xml_path f) l c) as [lg' r].
      reflexivity.
  - cbn [leave]. destruct (except_clauses _ _ e) as [lg r].
    cbn [worker_step app]. now rewrite !app_nil_r.
Qed.

(** No step of a worker removes a name from the registry. *)
Lemma worker_step_keys args f c test_suites k :
  In k (PyDict.keys test_suites) ->
  In k (PyDict.keys (snd (fst (fst (worker_step args f c test_suites))))).
Proof.
  intros Hk. destruct c as [|n root|n root|r]; cbn [worker_step].
  - destruct (xml_content f) as [root|e].
    + now destruct (PyDict.contains _ test_suites).
    + now destruct (except_clauses _ _ e).
  - cbn [fst snd]. now apply keys_setitem_incl.
  - unfold claimed_block.
    destruct (PyDict.get n test_suites) as [s|]; cbn [leave].
    + destruct (str_in ".xml" (xml_path f)).
      * destruct (extract_test_cases _ _ _ _) as [[s' lg] fc].
        destruct (Nat.eqb fc 0); cbn [leave fst snd];
          now apply keys_setitem_incl.
      * cbn [leave fst snd]. now apply keys_setitem_incl.
    + now destruct (except_clauses _ _ _).
  - exact Hk.
Qed.

Lemma pool_step_worker args p i f c :
  workers p !! i = Some (f, c) ->
  shared (pool_step args p i) =
    snd (fst (fst (worker_step args f c (shared p)))) /\
  workers (pool_step args p i) =
    <[i := (f, fst (fst (fst (worker_step args f c (shared p)))))]> (workers p).
Proof.
  intros Hw. unfold pool_step. rewrite Hw.
  now destruct (worker_step args f c (shared p)) as [[[c' d] lg] evs].
Qed.

(** Three steps in a row for the worker at index [i], which has not
    started: the registry and the future are those of
    [process_xml_file]. *)
Lemma pool_step_thrice args p i f :
  workers p !! i = Some (f, AtParse) ->
  let p3 := pool_step args (pool_step args (pool_step args p i) i) i in
  shared p3 = fst (fst (process_xml_file args f (shared p))) /\
  workers p3 =
    <[i := (f, Finished (snd (process_xml_file args f (shared p))))]>
      (workers p).
Proof.
  intros Hw p3.
  assert (Hlt : i < length (workers p)) by (eapply lookup_lt_Some, Hw).
  pose proof (worker_step_uninterrupted args f (shared p)) as Hu.
  destruct (pool_step_worker args p i f AtParse Hw) as [Hs1 Hw1].
  destruct (worker_step args f AtParse (shared p)) as [[[c1 d1] lg1] ev1].
  cbn [fst snd] in *.
  assert (Hl1 : workers (pool_step args p i) !! i = Some (f, c1)).
  { rewrite Hw1. now apply list_lookup_insert_eq. }
  destruct (pool_step_worker args _ i f c1 Hl1) as [Hs2 Hw2].
  rewrite Hs1 in Hs2, Hw2.
  destruct (worker_step args f c1 d1) as [[[c2 d2] lg2] ev2].
  cbn [fst snd] in *.
  assert (Hl2 : workers (pool_step args (pool_step args p i) i) !! i =
                Some (f, c2)).
  { rewrite Hw2. apply list_lookup_insert_eq.
    rewrite Hw1, length_insert. exact Hlt. }
  destruct (pool_step_worker args _ i f c2 Hl2) as [Hs3 Hw3].
  rewrite Hs2 in Hs3, Hw3.
  destruct (worker_step args f c2 d2) as [[[c3 d3] lg3] ev3].
  cbn [fst snd] in *.
  destruct (process_xml_file args f (shared p)) as [[d lg] r].
  injection Hu as Hd _ Hc3. cbn [fst snd]. unfold p3. split.
  - now rewrite Hs3.
  - rewrite Hw3, Hw2, Hw1, Hc3. now rewrite !list_insert_insert_eq.
Qed.

(** The workers that run one at a time are the pool under the serial
    schedule. *)
Lemma run_schedule_serial args done rest p :
  workers p = done ++ map (fun f => (f, AtParse)) rest ->
  shared (run_schedule args (serial_schedule (length done) (length rest)) p) =
    fst (fst (run_workers args rest (shared p))) /\
  map snd (workers (run_schedule args
                      (serial_schedule (length done) (length rest)) p)) =
    map snd done ++ map Finished (snd (run_workers args rest (shared p))).
Proof.
  revert done p. induction rest as [|f rest IH]; intros done p Hw.
  - simpl. rewrite Hw. simpl. now rewrite !app_nil_r.
  - change (serial_schedule (length done) (length (f :: rest)))
      with ([length done; length done; length done] ++
            serial_schedule (S (length done)) (length rest)).
    unfold run_schedule. rewrite fold_left_app. cbn [fold_left].
    fold (run_schedule args (serial_schedule (S (length done)) (length rest))).
    assert (Hl : workers p !! length done = Some (f, AtParse)).
    { rewrite Hw. cbn [map]. now apply list_lookup_middle. }
    destruct (pool_step_thrice args p (length done) f Hl) as [Hs3 Hw3].
    set (p3 := pool_step args (pool_step args (pool_step args p (length done))
                                 (length done)) (length done)) in *.
    cbn [run_workers].
    destruct (process_xml_file args f (shared p)) as [[d lg] r].
    cbn [fst snd] in *.
    specialize (IH (done ++ [(f, Finished r)]) p3).
    rewrite length_app in IH. cbn [length] in IH.
    rewrite Nat.add_1_r in IH.
    destruct IH as [IHs IHw].
    { rewrite Hw3, Hw. rewrite <- app_assoc. cbn [map app].
      rewrite insert_app_r_alt by lia. now rewrite Nat.sub_diag. }
    rewrite Hs3 in IHs, IHw.
    destruct (run_workers args rest d) as [[d' lg'] rs]. cbn [fst snd] in *.
    unfold run_schedule in IHs, IHw.
    split; [exact IHs|]. rewrite IHw, map_app. cbn [map].
    now rewrite <- app_assoc.
Qed.

Corollary serial_schedule_run_workers args xml_files :
  shared (run_schedule args (serial_schedule 0 (length xml_files))
            (submit xml_files)) = final_registry args xml_files /\
  map snd (workers (run_schedule args (serial_schedule 0 (length xml_files))
                      (submit xml_files))) =
    map Finished (snd (run_workers args xml_files [])).
Proof.
  apply (run_schedule_serial args [] xml_files (submit xml_files)).
  reflexivity.
Qed.

(** The same two facts with the workers interleaved: no step of any
    worker makes a name occur twice, and a worker whose membership test
    finds the name is turned away without a change to the registry. *)
Lemma worker_step_NoDup args f c (test_suites : registry) :
  NoDup (PyDict.keys test_suites) ->
  NoDup (PyDict.keys (snd (fst (fst (worker_step args f c test_suites))))).
Proof.
  intros Hd. destruct c as [|n root|n root|r]; cbn [worker_step].
  - destruct (xml_content f) as [root|e].
    + now destruct (PyDict.contains _ test_suites).
    + now destruct (except_clauses _ _ e).
  - cbn [fst snd]. now apply NoDup_keys_setitem.
  - unfold claimed_block.
    destruct (PyDict.get n test_suites) as [s|]; cbn [leave].
    + destruct (str_in ".xml" (xml_path f)).
      * destruct (extract_test_cases _ _ _ _) as [[s' lg] fc].
        destruct (Nat.eqb fc 0); cbn [leave fst snd];
          now apply NoDup_keys_setitem.
      * cbn [leave fst snd]. now apply NoDup_keys_setitem.
    + now destruct (except_clauses _ _ _).
  - exact Hd.
Qed.

Lemma pool_step_shared args p i :
  shared (pool_step args p i) =
  match workers p !! i with
  | Some (f, c) => snd (fst (fst (worker_step args f c (shared p))))
  | None => shared p
  end.
Proof.
  unfold pool_step. destruct (workers p !! i) as [[f c]|]; [|reflexivity].
  now destruct (worker_step args f c (shared p)) as [[[c' d] lg] evs].
Qed.

Lemma run_schedule_NoDup args schedule p :
  NoDup (PyDict.keys (shared p)) ->
  NoDup (PyDict.keys (shared (run_schedule args schedule p))).
Proof.
  revert p. induction schedule as [|i schedule IH]; intros p Hp.
  - exact Hp.
  - apply IH. rewrite pool_step_shared.
    destruct (workers p !! i) as [[f c]|]; [|exact Hp].
    now apply worker_step_NoDup.
Qed.

(** No schedule removes a name from the registry. *)
Lemma run_schedule_keys args schedule p k :
  In k (PyDict.keys (shared p)) ->
  In k (PyDict.keys (shared (run_schedule args schedule p))).
Proof.
  revert p. induction schedule as [|i schedule IH]; intros p Hk.
  - exact Hk.
  - apply IH. rewrite pool_step_shared.
    destruct (workers p !! i) as [[f c]|]; [|exact Hk].
    now apply worker_step_keys.
Qed.

Lemma pool_step_rejects args p i f root :
  workers p !! i = Some (f, AtParse) ->
  xml_content f = Parsed root ->
  PyDict.contains (str (get root "name")) (shared p) = true ->
  shared (pool_step args p i) = shared p /\
  workers (pool_step args p i) !! i = Some (f, Finished (Return (0, 0))).
Proof.
  intros Hw Hp Hc. unfold pool_step. rewrite Hw. cbn [worker_step].
  rewrite Hp, Hc. cbn [shared workers]. split; [reflexivity|].
  apply list_lookup_insert_eq. eapply lookup_lt_Some, Hw.
Qed.

Lemma worker_claimed_mono (d d' : registry) w :
  (forall k, In k (PyDict.keys d) -> In k (PyDict.keys d')) ->
  worker_claimed d w -> worker_claimed d' w.
Proof.
  intros Hmono. unfold worker_claimed. destruct (snd w); auto.
Qed.

(** A step keeps the stepping worker consistent with its file, and past
    line 183 its name is in the registry. *)
Lemma worker_step_consistent args f c (d : registry) :
  worker_consistent (f, c) -> worker_claimed d (f, c) ->
  worker_consistent (f, fst (fst (fst (worker_step args f c d)))) /\
  worker_claimed (snd (fst (fst (worker_step args f c d))))
                 (f, fst (fst (fst (worker_step args f c d)))).
Proof.
  intros Hcons Hcl.
  pose proof (worker_step_keys args f c d) as Hmono.
  destruct c as [|n root|n root|r]; cbn [worker_step] in *.
  - unfold worker_consistent, worker_claimed, declared_name. cbn [fst snd].
    destruct (xml_content f) as [root|e] eqn:Hp.
    + destruct (PyDict.contains (str (get root "name")) d) eqn:Hc;
        cbn [fst snd].
      * split; [exact I|]. intros n Hn. inversion Hn; subst.
        now apply contains_keys.
      * now split.
    + destruct (except_clauses _ _ e). cbn [fst snd]. split; [exact I|].
      discriminate.
  - cbn [fst snd] in *. split; [exact Hcons|].
    unfold worker_claimed, worker_consistent in *. cbn [fst snd] in *.
    destruct Hcons as [Hp ->]. intros n' Hn'.
    rewrite (declared_name_parsed _ _ Hp) in Hn'. inversion Hn'; subst.
    apply keys_setitem_in.
  - destruct (claimed_block _ _ _ _ _) as [[[l d'] lg] c'].
    destruct (leave _ l c') as [lg' r]. cbn [fst snd] in *.
    split; [exact I|].
    unfold worker_claimed in *. cbn [fst snd] in *.
    intros n' Hn'. apply Hmono. now apply Hcl.
  - cbn [fst snd]. now split.
Qed.

Lemma pool_step_consistent args p i :
  pool_consistent p -> pool_consistent (pool_step args p i).
Proof.
  intros Hp. unfold pool_consistent in *.
  destruct (workers p !! i) as [[f c]|] eqn:Hw;
    [|unfold pool_step; now rewrite Hw].
  destruct (pool_step_worker args p i f c Hw) as [Hs Hws].
  rewrite Hs, Hws.
  pose proof (proj1 (Forall_lookup _ _) Hp i (f, c) Hw) as [Hcons Hcl].
  destruct (worker_step_consistent args f c (shared p) Hcons Hcl)
    as [Hcons' Hcl'].
  apply Forall_insert; [|now split].
  eapply Forall_impl; [exact Hp|].
  intros w [H1 H2]. split; [exact H1|].
  eapply worker_claimed_mono; [|exact H2].
  apply worker_step_keys.
Qed.

Lemma pool_step_files args p i :
  map fst (workers (pool_step args p i)) = map fst (workers p).
Proof.
  destruct (workers p !! i) as [[f c]|] eqn:Hw;
    [|unfold pool_step; now rewrite Hw].
  destruct (pool_step_worker args p i f c Hw) as [_ ->].
  change (map fst ?l) with (fst <$> l).
  rewrite list_fmap_insert. apply list_insert_id.
  now rewrite list_lookup_fmap, Hw.
Qed.

Lemma run_schedule_consistent args schedule p :
  pool_consistent p ->
  pool_consistent (run_schedule args schedule p) /\
  map fst (workers (run_schedule args schedule p)) = map fst (workers p).
Proof.
  revert p. induction schedule as [|i schedule IH]; intros p Hp.
  - now split.
  - destruct (IH (pool_step args p i)) as [H1 H2];
      [now apply pool_step_consistent|].
    split; [exact H1|]. cbn [run_schedule fold_left] in *.
    unfold run_schedule in H2. rewrite H2. apply pool_step_files.
Qed.

(** When all workers of a pool have left, under any schedule, every name
    that a submitted file declares is in the registry. *)
Lemma run_schedule_finished_keys args schedule xml_files f n :
  Forall has_finished
    (workers (run_schedule args schedule (submit xml_files))) ->
  In f xml_files -> declared_name f = Some n ->
  In n (PyDict.keys (shared (run_schedule args schedule (submit xml_files)))).
Proof.
  intros Hfin Hin Hn.
  destruct (run_schedule_consistent args schedule (submit xml_files))
    as [Hcons Hfiles].
  { unfold pool_consistent, submit. cbn [workers shared].
    apply Forall_fmap, Forall_forall. intros x _. now split. }
  set (p := run_schedule args schedule (submit xml_files)) in *.
  assert (Hf : In f (map fst (workers p))).
  { rewrite Hfiles. unfold submit. cbn [workers].
    rewrite map_map. cbn [fst]. now rewrite map_id. }
  apply in_map_iff in Hf. destruct Hf as ([f' c] & Hfst & Hw).
  cbn [fst] in Hfst. subst f'. apply list_elem_of_In in Hw.
  pose proof (proj1 (Forall_forall _ _) Hfin _ Hw) as Hdone.
  pose proof (proj1 (Forall_forall _ _) Hcons _ Hw) as [_ Hcl].
  unfold has_finished, worker_claimed in *. cbn [fst snd] in *.
  destruct c; try contradiction. now apply Hcl.
Qed.

(** ** C2: a suite name is claimed once *)

(** A worker that finds its name in the registry: the step logs the file
    and the duplicate, and nothing else. *)
Lemma pool_step_rejects_log args p i f root :
  workers p !! i = Some (f, AtParse) ->
  xml_content f = Parsed root ->
  PyDict.contains (str (get root "name")) (shared p) = true ->
  pool_log (pool_step args p i) =
    pool_log p ++
    [(PROGRESS, MsgProcessing (xml_path f) (str (get root "name")));
     (ERROR_LEVEL, MsgDuplicate (str (get root "name")) (xml_path f))].
Proof.
  intros Hw Hp Hc. unfold pool_step. rewrite Hw. cbn [worker_step].
  rewrite Hp, Hc. reflexivity.
Qed.

(** A step changes the entry of a name only when the worker that takes
    it has passed the membership test for that name. *)
Lemma pool_step_frame args p i n :
  PyDict.get n (shared (pool_step args p i)) <> PyDict.get n (shared p) ->
  exists f root,
    workers p !! i = Some (f, AtInsert n root) \/
    workers p !! i = Some (f, AtClaimed n root).
Proof.
  rewrite pool_step_shared.
  destruct (workers p !! i) as [[f c]|]; [|congruence].
  destruct c as [|m root|m root|r]; cbn [worker_step].
  - destruct (xml_content f) as [root|e].
    + destruct (PyDict.contains _ (shared p)); cbn [fst snd]; congruence.
    + destruct (except_clauses _ _ e). cbn [fst snd]. congruence.
  - cbn [fst snd]. intros Hne. destruct (string_dec m n) as [->|Hmn].
    + exists f, root. now left.
    + now rewrite get_setitem_ne in Hne.
  - intros Hne. destruct (string_dec m n) as [->|Hmn].
    + exists f, root. now right.
    + exfalso. apply Hne. unfold claimed_block.
      destruct (PyDict.get m (shared p)) as [s|]; cbn [leave].
      * destruct (str_in ".xml" (xml_path f)).
        -- destruct (extract_test_cases _ _ _ _) as [[s' lg] fc].
           destruct (Nat.eqb fc 0); cbn [leave fst snd];
             now apply get_setitem_ne.
        -- cbn [leave fst snd]. now apply get_setitem_ne.
      * now destruct (except_clauses _ _ _).
  - cbn [fst snd]. congruence.
Qed.

(** The step at which the membership test finds the name is the last
    step of the worker, which returns [(0, 0)]. *)
Lemma worker_step_rejected args f c test_suites n :
  In (EvRejected n) (snd (worker_step args f c test_suites)) ->
  fst (fst (fst (worker_step args f c test_suites))) =
    Finished (Return (0, 0)) /\
  declared_name f = Some n.
Proof.
  unfold declared_name.
  destruct c as [|m root|m root|r]; cbn [worker_step].
  - destruct (xml_content f) as [root|e].
    + destruct (PyDict.contains _ test_suites); simpl;
        intros [H|[]]; [|discriminate].
      inversion H; subst. now split.
    + destruct (except_clauses _ _ e). simpl. intros [H|[]]; discriminate.
  - simpl. intros [H|[]]; discriminate.
  - destruct (claimed_block _ _ _ _ _) as [[[l d] lg] c].
    destruct (leave _ l c). simpl. intros [H|[]]; discriminate.
  - intros [].
Qed.

(** A worker that has left stays where it is. *)
Lemma worker_step_finished args f r test_suites :
  fst (fst (fst (worker_step args f (Finished r) test_suites))) = Finished r.
Proof. reflexivity. Qed.

Lemma pool_step_rejected args p i :
  rejected_have_left p -> rejected_have_left (pool_step args p i).
Proof.
  intros Hinv j n Hin.
  destruct (workers p !! i) as [[f c]|] eqn:Hi;
    [|unfold pool_step in *; rewrite Hi in *; now apply Hinv].
  assert (Hlt : i < length (workers p)) by (eapply lookup_lt_Some, Hi).
  destruct (pool_step_worker args p i f c Hi) as [_ Hws].
  pose proof (worker_step_rejected args f c (shared p) n) as Hrej.
  assert (Htr : pool_trace (pool_step args p i) =
                pool_trace p ++
                map (pair i) (snd (worker_step args f c (shared p)))).
  { unfold pool_step. rewrite Hi.
    now destruct (worker_step args f c (shared p)) as [[[c' d] lg] evs]. }
  rewrite Htr in Hin. rewrite Hws. apply in_app_or in Hin.
  destruct Hin as [Hin|Hin].
  - destruct (Hinv j n Hin) as (g & Hg & Hn).
    destruct (decide (j = i)) as [->|Hne].
    + rewrite Hi in Hg. inversion Hg; subst.
      exists g. split; [|exact Hn].
      rewrite worker_step_finished. now apply list_lookup_insert_eq.
    + exists g. split; [|exact Hn].
      rewrite list_lookup_insert_ne by congruence. exact Hg.
  - apply in_map_iff in Hin. destruct Hin as (ev & Heq & Hev).
    inversion Heq; subst. destruct (Hrej Hev) as [Hc Hn].
    exists f. split; [|exact Hn].
    rewrite Hc. now apply list_lookup_insert_eq.
Qed.

Lemma run_schedule_rejected args schedule p :
  rejected_have_left p -> rejected_have_left (run_schedule args schedule p).
Proof.
  revert p. induction schedule as [|i schedule IH]; intros p Hp.
  - exact Hp.
  - apply IH. now apply pool_step_rejected.
Qed.

(** C2 (amended): the registry never holds a suite name twice, and once
    all workers have left it holds every name that a parsed file
    declares exactly once: in any order in which the workers run, and
    under any schedule that interleaves their steps. A worker whose
    membership test finds the name logs the duplicate at error level,
    returns [(0, 0)] and leaves the registry exactly as it found it,
    also as a step of the interleaved pool; a name that is in the
    registry stays there under every schedule, a step changes the
    entry of a name only when its worker has passed the test for that
    name, and under every schedule every worker whose test has found
    the name has returned [(0, 0)]. When the workers run one after the other, which is the pool
    under the serial schedule, the entry of a name is the one made by
    the first file of the order that declares it, and holds what that
    file alone contributes; a file that comes after another one with the
    same name is turned away and returns [(0, 0)]. *)
Theorem suite_name_claimed_once :
  forall args xml_files order,
    Permutation order xml_files ->
    NoDup (PyDict.keys (final_registry args order)) /\
    (forall schedule,
        NoDup (PyDict.keys
                 (shared (run_schedule args schedule (submit order)))) /\
        (Forall has_finished
           (workers (run_schedule args schedule (submit order))) ->
         forall f n,
           In f xml_files -> declared_name f = Some n ->
           entries_named n
             (shared (run_schedule args schedule (submit order))) = 1)) /\
    (forall f n,
        In f xml_files -> declared_name f = Some n ->
        entries_named n (final_registry args order) = 1) /\
    (forall before f root after,
        order = before ++ f :: after ->
        xml_content f = Parsed root ->
        ~ In (str (get root "name")) (declared_names before) ->
        PyDict.get (str (get root "name")) (final_registry args order) =
        Some (fst (fst (contribution args (xml_path f)
                          (str (get root "name")) root)))) /\
    (forall before f root after,
        order = before ++ f :: after ->
        xml_content f = Parsed root ->
        In (str (get root "name")) (declared_names before) ->
        snd (run_workers args order []) !! length before =
        Some (Return (0, 0))) /\
    (forall f root test_suites,
        xml_content f = Parsed root ->
        PyDict.contains (str (get root "name")) test_suites = true ->
        process_xml_file args f test_suites =
        (test_suites,
         [(PROGRESS, MsgProcessing (xml_path f) (str (get root "name")));
          (ERROR_LEVEL, MsgDuplicate (str (get root "name")) (xml_path f))],
         Return (0, 0))) /\
    (forall p i f root,
        workers p !! i = Some (f, AtParse) ->
        xml_content f = Parsed root ->
        PyDict.contains (str (get root "name")) (shared p) = true ->
        shared (pool_step args p i) = shared p /\
        workers (pool_step args p i) !! i =
          Some (f, Finished (Return (0, 0))) /\
        pool_log (pool_step args p i) =
          pool_log p ++
          [(PROGRESS, MsgProcessing (xml_path f) (str (get root "name")));
           (ERROR_LEVEL,
            MsgDuplicate (str (get root "name")) (xml_path f))]) /\
    (forall schedule p n,
        In n (PyDict.keys (shared p)) ->
        In n (PyDict.keys (shared (run_schedule args schedule p)))) /\
    (forall p i n,
        PyDict.get n (shared (pool_step args p i)) <>
          PyDict.get n (shared p) ->
        exists f root,
          workers p !! i = Some (f, AtInsert n root) \/
          workers p !! i = Some (f, AtClaimed n root)) /\
    (forall schedule,
        rejected_have_left (run_schedule args schedule (submit order))) /\
    (shared (run_schedule args (serial_schedule 0 (length order))
               (submit order)) = final_registry args order /\
     map snd (workers (run_schedule args (serial_schedule 0 (length order))
                         (submit order))) =
       map Finished (snd (run_workers args order []))).
Proof.
  intros args xml_files order Hperm.
  assert (Hnd : NoDup (PyDict.keys (final_registry args order)))
    by (apply run_workers_NoDup; constructor).
  split; [exact Hnd|].
  split; [|split; [|split; [|split; [|split; [|split; [|split; [|split;
    [|split]]]]]]]].
  - intros schedule.
    assert (Hs : NoDup (PyDict.keys
                          (shared (run_schedule args schedule (submit order)))))
      by (apply run_schedule_NoDup; constructor).
    split; [exact Hs|]. intros Hfin f n Hin Hn.
    apply entries_named_NoDup; [exact Hs|].
    apply (run_schedule_finished_keys args schedule order f n Hfin);
      [|exact Hn].
    eapply Permutation_in; [|exact Hin]. now symmetry.
  - intros f n Hin Hn. apply entries_named_NoDup; [exact Hnd|].
    apply run_workers_keys. right.
    unfold declared_names. apply list_elem_of_In, list_elem_of_omap.
    exists f. split; [|exact Hn].
    apply list_elem_of_In. eapply Permutation_in; [|exact Hin].
    now symmetry.
  - intros before f root after -> Hp Hfresh.
    unfold final_registry. rewrite run_workers_app_registry, run_workers_cons.
    apply run_workers_preserves.
    assert (Hnone : PyDict.get (str (get root "name"))
                      (fst (fst (run_workers args before []))) = None).
    { apply get_None_keys. rewrite run_workers_keys. simpl. tauto. }
    rewrite (process_xml_file_fresh _ _ _ _ Hp Hnone).
    destruct (contribution _ _ _ _) as [[s lg] r]. cbn [fst].
    now apply get_app_fresh.
  - intros before f root after -> Hp Hin.
    rewrite run_workers_future_at.
    rewrite (process_xml_file_duplicate _ _ _ _ Hp); [reflexivity|].
    apply contains_keys, run_workers_keys. now right.
  - intros f root test_suites. apply process_xml_file_duplicate.
  - intros p i f root Hw Hp Hc.
    destruct (pool_step_rejects args p i f root Hw Hp Hc) as [H1 H2].
    split; [exact H1|split; [exact H2|]].
    now apply pool_step_rejects_log.
  - intros schedule p n. apply run_schedule_keys.
  - intros p i n. apply pool_step_frame.
  - intros schedule. apply run_schedule_rejected. intros j n [].
  - apply serial_schedule_run_workers.
Qed.

(** C2 (as stated) fails when the workers interleave: two files declare
    the name [flaky], and the membership tests of both workers run
    before either of them inserts the name. Neither file is turned away:
    both workers return a file and its tests, and no duplicate is
    logged. When the two then insert and extract in turn, the suite
    holds the test cases of both files; when the first worker has
    extracted before the second inserts, the second replaces the suite
    and what the first file contributed is lost. *)
Lemma racing_duplicates_are_both_accepted :
  declared_name dup1 = Some "flaky" /\
  declared_name dup2 = Some "flaky" /\
  map snd (workers (run_schedule sample_args [0; 1; 0; 1; 0; 1]
                      (submit [dup1; dup2]))) =
    [Finished (Return (1, 1)); Finished (Return (1, 2))] /\
  map (fun kv => (fst kv, length (suite_tests (snd kv)), suite_files (snd kv)))
      (shared (run_schedule sample_args [0; 1; 0; 1; 0; 1]
                 (submit [dup1; dup2]))) =
    [("flaky", 3, ["ci/dup1.xml"; "ci/dup2.xml"])] /\
  pool_log (run_schedule sample_args [0; 1; 0; 1; 0; 1]
              (submit [dup1; dup2])) =
    [(PROGRESS, MsgProcessing "ci/dup1.xml" "flaky");
     (PROGRESS, MsgProcessing "ci/dup2.xml" "flaky")] /\
  map snd (workers (run_schedule sample_args [0; 1; 0; 0; 1; 1]
                      (submit [dup1; dup2]))) =
    [Finished (Return (1, 1)); Finished (Return (1, 2))] /\
  map (fun kv => (fst kv, length (suite_tests (snd kv)), suite_files (snd kv)))
      (shared (run_schedule sample_args [0; 1; 0; 0; 1; 1]
                 (submit [dup1; dup2]))) =
    [("flaky", 2, ["ci/dup2.xml"])] /\
  pool_log (run_schedule sample_args [0; 1; 0; 0; 1; 1]
              (submit [dup1; dup2])) =
    [(PROGRESS, MsgProcessing "ci/dup1.xml" "flaky");
     (PROGRESS, MsgProcessing "ci/dup2.xml" "flaky")].
Proof.
  repeat split; vm_compute; reflexivity.
Qed.

(** ** C9: an entry without a contribution *)

Lemma contribution_nothing args xml_file n root :
  excluded_by_name xml_file = true \/
  findall_descendants "testcase" root = [] ->
  snd (contribution args xml_file n root) = (0, 0).
Proof.
  intros H. unfold contribution.
  destruct (str_in ".xml" xml_file); [|reflexivity].
  unfold extract_test_cases. fold (excluded_by_name xml_file).
  destruct (excluded_by_name xml_file); [reflexivity|].
  destruct H as [H|H]; [discriminate|]. now rewrite H.
Qed.

(** C9: a file that parses and declares a free suite name gets its entry,
    and the entry is still there after any further workers, run one at
    a time or interleaved, also when the file is excluded by its name or
    holds no test case and so returns [(0, 0)]. A run can therefore report more suites than contributing
    files. *)
Theorem claimed_entry_stays_without_contribution :
  forall args f root test_suites later,
    xml_content f = Parsed root ->
    PyDict.get (str (get root "name")) test_suites = None ->
    let claimed := fst (fst (process_xml_file args f test_suites)) in
    In (str (get root "name")) (PyDict.keys claimed) /\
    In (str (get root "name"))
       (PyDict.keys (fst (fst (run_workers args later claimed)))) /\
    (forall schedule p,
        shared p = claimed ->
        In (str (get root "name"))
           (PyDict.keys (shared (run_schedule args schedule p)))) /\
    (excluded_by_name (xml_path f) = true \/
     findall_descendants "testcase" root = [] ->
     snd (process_xml_file args f test_suites) = Return (0, 0)) /\
    exists lg final t,
      extract_junit_from_test_run sample_args (fun l => l) "ci" [lint_report] =
        (lg, Return (final, t)) /\
      total_files t = 0 /\ total_suites t = 1.
Proof.
  intros args f root test_suites later Hp Hfree claimed.
  assert (Hin : In (str (get root "name")) (PyDict.keys claimed)).
  { unfold claimed. rewrite process_xml_file_keys.
    rewrite (declared_name_parsed _ _ Hp).
    apply contains_false in Hfree. rewrite Hfree.
    apply in_or_app. right. now left. }
  split; [exact Hin|]. split; [|split; [|split]].
  - apply run_workers_keys. now left.
  - intros schedule p Hs. apply run_schedule_keys. now rewrite Hs.
  - intros H. rewrite (process_xml_file_fresh _ _ _ _ Hp Hfree).
    pose proof (contribution_nothing args (xml_path f)
                  (str (get root "name")) root H) as Hc.
    destruct (contribution _ _ _ _) as [[s lg] r]. simpl in *. now subst.
  - eexists _, _, _. split; [vm_compute; reflexivity|]. split; reflexivity.
Qed.

(** ** C8: the totals and the order of completion *)

(** When no two files declare the same name, and none declares a name
    that is already taken, every worker acts as if it were alone. *)
Lemma run_workers_distinct args order test_suites :
  NoDup (PyDict.keys test_suites ++ declared_names order) ->
  exists lg,
    run_workers args order test_suites =
    (test_suites ++ flat_map (entry_of args) order, lg,
     map (future_of args) order).
Proof.
  revert test_suites. induction order as [|f rest IH]; intros d Hnd.
  - exists []. simpl. now rewrite app_nil_r.
  - cbn [run_workers flat_map map]. unfold entry_of at 1, future_of at 1.
    unfold declared_names in Hnd. cbn [omap list_omap] in Hnd.
    fold (omap declared_name rest) in Hnd. fold (declared_names rest) in Hnd.
    unfold declared_name in Hnd at 1.
    destruct (xml_content f) as [root|e] eqn:Hp.
    + assert (Hfree : PyDict.get (str (get root "name")) d = None).
      { apply get_None_keys. intros Hin.
        apply NoDup_app in Hnd. destruct Hnd as (_ & Hdis & _).
        apply (Hdis (str (get root "name"))).
        - now apply list_elem_of_In.
        - left. }
      rewrite (process_xml_file_fresh _ _ _ _ Hp Hfree).
      destruct (contribution _ _ _ _) as [[s lg] r]. cbn [fst snd].
      destruct (IH (d ++ [(str (get root "name"), s)])) as [lg' ->].
      { unfold PyDict.keys. rewrite map_app. simpl.
        rewrite <- app_assoc. exact Hnd. }
      eexists. now rewrite <- app_assoc.
    + rewrite (process_xml_file_raises _ _ _ _ Hp).
      destruct (IH d Hnd) as [lg' ->]. eexists. reflexivity.
Qed.

(** The counters do not depend on the order of the futures. *)
Lemma collect_Permutation futures futures' :
  Permutation futures futures' ->
  forall c, returned (snd (collect futures c)) =
            returned (snd (collect futures' c)).
Proof.
  induction 1 as [|x l l' _ IH|x y l|l l' l'' _ IH1 _ IH2]; intros c.
  - reflexivity.
  - destruct x as [[files tests]|e]; simpl; [apply IH|reflexivity].
  - destruct x as [[fx tx]|ex], y as [[fy ty]|ey]; simpl; try reflexivity.
    replace (test_file_count c + fy + fx) with (test_file_count c + fx + fy)
      by lia.
    replace (test_count c + ty + tx) with (test_count c + tx + ty) by lia.
    reflexivity.
  - now rewrite IH1, IH2.
Qed.

(** The three sums of lines 142-151. *)
Lemma tally_sums suites p f s :
  snd (tally suites (p, f, s)) =
  (p + list_sum (map passed suites),
   f + list_sum (map failed suites),
   s + list_sum (map skipped suites)).
Proof.
  revert p f s. induction suites as [|x suites IH]; intros p f s.
  - simpl. now rewrite !Nat.add_0_r.
  - cbn [tally]. specialize (IH (p + passed x) (f + failed x) (s + skipped x)).
    destruct (tally suites _) as [lg acc]. simpl in *. rewrite IH.
    f_equal; [f_equal|]; lia.
Qed.

Lemma list_sum_Permutation (l l' : list nat) :
  Permutation l l' -> list_sum l = list_sum l'.
Proof.
  induction 1; simpl; lia.
Qed.

(** What a run reports, from its futures and its registry. *)
Lemma aggregate_reported args order :
  reported (aggregate args order) =
  let '(test_suites, _, futures) := run_workers args order [] in
  option_map (fun c => totals_of c test_suites)
    (returned (snd (collect futures
       {| archive_count := 0; test_file_count := 0; test_count := 0 |}))).
Proof.
  unfold aggregate, reported.
  destruct (run_workers args order []) as [[ts lg] futures].
  destruct (collect futures _) as [lgc [c|e]]; [|reflexivity].
  pose proof (tally_sums (PyDict.values ts) 0 0 0) as Ht.
  destruct (tally (PyDict.values ts) (0, 0, 0)) as [lge [[p f] s]].
  simpl in Ht. inversion Ht; subst. reflexivity.
Qed.

Lemma aggregate_order_independent :
  forall args xml_files order,
    NoDup (declared_names xml_files) ->
    Permutation order xml_files ->
    reported (aggregate args order) = reported (aggregate args xml_files).
Proof.
  intros args xml_files order Hnd Hperm.
  assert (Hnd' : NoDup (declared_names order)).
  { unfold declared_names. now rewrite Hperm. }
  rewrite !aggregate_reported.
  destruct (run_workers_distinct args order [] Hnd') as [lg ->].
  destruct (run_workers_distinct args xml_files [] Hnd) as [lg' ->].
  cbn [app].
  rewrite (collect_Permutation _ (map (future_of args) xml_files))
    by now apply Permutation_map.
  destruct (returned _) as [c|]; [|reflexivity]. simpl. f_equal.
  assert (Hp : Permutation (flat_map (entry_of args) order)
                           (flat_map (entry_of args) xml_files))
    by now apply Permutation_flat_map.
  unfold totals_of, PyDict.keys, PyDict.values. f_equal.
  - rewrite !length_map. now apply Permutation_length.
  - apply list_sum_Permutation. now do 2 apply Permutation_map.
  - apply list_sum_Permutation. now do 2 apply Permutation_map.
  - apply list_sum_Permutation. now do 2 apply Permutation_map.
Qed.

(** C8 (as stated) fails when two files declare the same suite name: the
    totals then depend on how the workers are scheduled. With the
    workers run one after the other, 1 test is counted when [dup1] runs
    first and 2 when [dup2] runs first; with the membership tests of
    both workers before either insertion, 3 tests are counted. *)
Lemma totals_depend_on_order_of_duplicates :
  (forall l : list XmlFile, Permutation (rev l) l) /\
  option_map total_tests
    (reported (extract_junit_from_test_run sample_args (fun l => l) "ci"
                 [dup1; dup2])) = Some 1 /\
  option_map total_tests
    (reported (extract_junit_from_test_run sample_args (@rev XmlFile) "ci"
                 [dup1; dup2])) = Some 2 /\
  reported (extract_junit_from_test_run sample_args (fun l => l) "ci"
              [dup1; dup2]) <>
  reported (extract_junit_from_test_run sample_args (@rev XmlFile) "ci"
              [dup1; dup2]) /\
  option_map total_tests
    (reported (aggregate_pool sample_args [0; 1; 0; 1; 0; 1] (fun l => l)
                 [dup1; dup2])) = Some 3.
Proof.
  split; [intros l; symmetry; apply Permutation_rev|].
  split; [vm_compute; reflexivity|].
  split; [vm_compute; reflexivity|].
  split; [vm_compute; discriminate|].
  vm_compute. reflexivity.
Qed.

(** ** C3: the claim of a name under interleaving *)

(** The insertion of a name leaves the name in the registry. *)
Lemma worker_step_inserted args f c test_suites n :
  In (EvInserted n) (snd (worker_step args f c test_suites)) ->
  In n (PyDict.keys (snd (fst (fst (worker_step args f c test_suites))))).
Proof.
  destruct c as [|m root|m root|r]; cbn [worker_step].
  - destruct (xml_content f) as [root|e].
    + destruct (PyDict.contains _ test_suites); simpl;
        intros [H|[]]; discriminate.
    + destruct (except_clauses _ _ e). simpl. intros [H|[]]; discriminate.
  - simpl. intros [H|[]]. inversion H; subst. apply keys_setitem_in.
  - destruct (claimed_block _ _ _ _ _) as [[[l d] lg] c].
    destruct (leave _ l c). simpl. intros [H|[]]; discriminate.
  - intros [].
Qed.

(** The check passes only for a name that is not in the registry. *)
Lemma worker_step_check_passed args f c test_suites n :
  In (EvCheckPassed n) (snd (worker_step args f c test_suites)) ->
  ~ In n (PyDict.keys test_suites).
Proof.
  destruct c as [|m root|m root|r]; cbn [worker_step].
  - destruct (xml_content f) as [root|e].
    + destruct (PyDict.contains _ test_suites) eqn:Hc; simpl;
        intros [H|[]]; [discriminate|].
      inversion H; subst. now apply get_None_keys, contains_false.
    + destruct (except_clauses _ _ e). simpl. intros [H|[]]; discriminate.
  - simpl. intros [H|[]]; discriminate.
  - destruct (claimed_block _ _ _ _ _) as [[[l d] lg] c].
    destruct (leave _ l c). simpl. intros [H|[]]; discriminate.
  - intros [].
Qed.

(** A step makes at most one event. *)
Lemma worker_step_events args f c test_suites :
  length (snd (worker_step args f c test_suites)) <= 1.
Proof.
  destruct c as [|m root|m root|r]; cbn [worker_step].
  - destruct (xml_content f) as [root|e].
    + destruct (PyDict.contains _ test_suites); simpl; lia.
    + destruct (except_clauses _ _ e). simpl. lia.
  - simpl. lia.
  - destruct (claimed_block _ _ _ _ _) as [[[l d] lg] c].
    destruct (leave _ l c). simpl. lia.
  - simpl. lia.
Qed.

Lemma snoc_split {A : Type} (l t1 t2 : list A) (x y : A) :
  l ++ [x] = t1 ++ y :: t2 ->
  (t2 = [] /\ l = t1 /\ x = y) \/
  (exists t2', t2 = t2' ++ [x] /\ l = t1 ++ y :: t2').
Proof.
  destruct t2 as [|z t2 _] using rev_ind; intros H.
  - left. apply app_inj_tail in H. tauto.
  - right. exists t2.
    change (t1 ++ y :: t2 ++ [z]) with (t1 ++ (y :: t2) ++ [z]) in H.
    rewrite app_assoc in H. apply app_inj_tail in H.
    destruct H as [-> ->]. tauto.
Qed.

Lemma pool_step_invariant args p i :
  inserted_names_present p /\ no_pass_after_insert (pool_trace p) ->
  inserted_names_present (pool_step args p i) /\
  no_pass_after_insert (pool_trace (pool_step args p i)).
Proof.
  intros [Hpres Hno]. unfold pool_step.
  destruct (workers p !! i) as [[f c]|]; [|tauto].
  pose proof (worker_step_keys args f c (shared p)) as Hkeys.
  pose proof (worker_step_inserted args f c (shared p)) as Hins.
  pose proof (worker_step_check_passed args f c (shared p)) as Hchk.
  pose proof (worker_step_events args f c (shared p)) as Hlen.
  destruct (worker_step args f c (shared p)) as [[[c' d'] lg] evs].
  cbn [fst snd] in *. unfold inserted_names_present, no_pass_after_insert.
  cbn [pool_trace shared].
  destruct evs as [|ev [|ev' evs]]; [| |simpl in Hlen; lia].
  - cbn [map]. rewrite app_nil_r. split.
    + intros k n Hin. apply Hkeys. eapply Hpres, Hin.
    + exact Hno.
  - cbn [map]. split.
    + intros k n Hin. apply in_app_or in Hin. destruct Hin as [Hin|[Heq|[]]].
      * apply Hkeys. eapply Hpres, Hin.
      * inversion Heq; subst. apply Hins. now left.
    + intros t1 k n t2 j Heq Hin. apply snoc_split in Heq.
      destruct Heq as [(-> & _ & _)|(t2' & -> & Heq)]; [destruct Hin|].
      apply in_app_or in Hin. destruct Hin as [Hin|[Hj|[]]].
      * exact (Hno _ _ _ _ _ Heq Hin).
      * inversion Hj; subst. apply (Hchk n); [now left|].
        apply (Hpres k). rewrite Heq. apply in_or_app. right. now left.
Qed.

Lemma run_schedule_invariant args schedule p :
  inserted_names_present p /\ no_pass_after_insert (pool_trace p) ->
  inserted_names_present (run_schedule args schedule p) /\
  no_pass_after_insert (pool_trace (run_schedule args schedule p)).
Proof.
  revert p. induction schedule as [|i schedule IH]; intros p Hp.
  - exact Hp.
  - apply IH. now apply pool_step_invariant.
Qed.

(** C3 (amended): the membership test of line 179 and the assignment of
    line 183 are two steps on the shared registry, with nothing that
    keeps another worker from running between them. Whatever the
    schedule, once the insertion of a name has run, no later membership
    test for that name passes: two workers pass the test for the same name
    only when both tests run before either insertion. *)
Theorem no_check_passes_after_insert :
  forall args xml_files schedule t1 i n t2 j,
    pool_trace (run_schedule args schedule (submit xml_files)) =
      t1 ++ (i, EvInserted n) :: t2 ->
    ~ In (j, EvCheckPassed n) t2.
Proof.
  intros args xml_files schedule.
  destruct (run_schedule_invariant args schedule (submit xml_files))
    as [_ H]; [|exact H].
  split.
  - intros i n [].
  - intros t1 i n t2 j Heq. destruct t1; discriminate.
Qed.

(** C3 (as stated) fails: with two files that declare the name [flaky],
    the schedule that runs the membership test of both workers before
    either assignment lets both pass; both then insert and extract, and
    neither is turned away. *)
Lemma both_workers_pass_the_check :
  pool_trace (run_schedule sample_args [0; 1] (submit [dup1; dup2])) =
    [(0, EvCheckPassed "flaky"); (1, EvCheckPassed "flaky")] /\
  map snd (workers (run_schedule sample_args [0; 1; 0; 1; 0; 1]
                      (submit [dup1; dup2]))) =
    [Finished (Return (1, 1)); Finished (Return (1, 2))].
Proof.
  split; vm_compute; reflexivity.
Qed.

(** ** C4: the cap on the failure tables *)

Lemma insert_sorted_In k n l : In n (insert_sorted k l) <-> n = k \/ In n l.
Proof.
  induction l as [|k' l IH]; simpl.
  - intuition congruence.
  - destruct (String.leb k k'); simpl; [intuition congruence|].
    rewrite IH. intuition congruence.
Qed.

Lemma sorted_In n l : In n (sorted l) <-> In n l.
Proof.
  induction l as [|k l IH]; simpl; [tauto|].
  rewrite insert_sorted_In, IH. intuition congruence.
Qed.

(** Every name that the emitter looks up is in the registry. *)
Lemma sorted_keys_present (test_suites : registry) :
  Forall (fun n => PyDict.get n test_suites <> None)
         (sorted (PyDict.keys test_suites)).
Proof.
  apply List.Forall_forall. intros n Hn Hnone.
  apply (proj1 (sorted_In _ _)) in Hn.
  apply (proj1 (get_None_keys _ _)) in Hnone. exact (Hnone Hn).
Qed.

Lemma failures_of_cons (test_suites : registry) n names :
  failures_of test_suites (n :: names) =
  match PyDict.get n test_suites with
  | Some suite => count FAILURE suite
  | None => 0
  end + failures_of test_suites names.
Proof. reflexivity. Qed.

(** Once the running total has passed 200 within [names], the loop has
    ended there: what follows [names] is never looked at. *)
Lemma failure_tables_stop output (test_suites : registry) names rest total :
  Forall (fun n => PyDict.get n test_suites <> None) names ->
  total <= 200 ->
  200 < total + failures_of test_suites names ->
  failure_tables output test_suites (names ++ rest) total =
    failure_tables output test_suites names total /\
  snd (failure_tables output test_suites names total) = Return tt /\
  existsb is_cap_record
    (snd (fst (failure_tables output test_suites names total))) = true.
Proof.
  intros Hpres. revert total.
  induction Hpres as [|n names Hn _ IH]; intros total Hle Hgt.
  - unfold failures_of in Hgt. simpl in Hgt. lia.
  - rewrite failures_of_cons in Hgt.
    cbn [app failure_tables].
    destruct (PyDict.get n test_suites) as [suite|]; [|contradiction].
    destruct (Nat.ltb 200 (total + count FAILURE suite)) eqn:Hcap.
    + split; [reflexivity|].
      destruct (Nat.eqb (count FAILURE suite) 0); simpl; auto.
    + apply Nat.ltb_ge in Hcap.
      destruct (IH (total + count FAILURE suite)) as (Heq & Hr & Hlog);
        [exact Hcap|lia|].
      rewrite Heq.
      destruct (failure_tables output test_suites names _) as [[tb lg] r].
      cbn [fst snd] in *.
      destruct (Nat.eqb (count FAILURE suite) 0); cbn [fst snd];
        (split; [reflexivity|split; [exact Hr|]]); simpl; exact Hlog.
Qed.

(** As long as the running total stays at 200 or below, every failing
    suite gets its table and the cap is not mentioned. *)
Lemma failure_tables_all output (test_suites : registry) names total :
  Forall (fun n => PyDict.get n test_suites <> None) names ->
  total + failures_of test_suites names <= 200 ->
  fst (fst (failure_tables output test_suites names total)) =
    flat_map (table_of test_suites) names /\
  snd (failure_tables output test_suites names total) = Return tt /\
  existsb is_cap_record
    (snd (fst (failure_tables output test_suites names total))) = false.
Proof.
  intros Hpres. revert total.
  induction Hpres as [|n names Hn _ IH]; intros total Hle.
  - simpl. auto.
  - rewrite failures_of_cons in Hle.
    cbn [flat_map failure_tables]. unfold table_of at 1.
    destruct (PyDict.get n test_suites) as [suite|]; [|contradiction].
    destruct (Nat.ltb 200 (total + count FAILURE suite)) eqn:Hcap;
      [apply Nat.ltb_lt in Hcap; lia|].
    destruct (IH (total + count FAILURE suite)) as (Heq & Hr & Hlog); [lia|].
    destruct (failure_tables output test_suites names _) as [[tb lg] r].
    cbn [fst snd] in *. subst tb.
    destruct (Nat.eqb (count FAILURE suite) 0); cbn [fst snd app];
      (split; [reflexivity|split; [exact Hr|]]); simpl; exact Hlog.
Qed.

Lemma failures_of_app (test_suites : registry) l1 l2 :
  failures_of test_suites (l1 ++ l2) =
  failures_of test_suites l1 + failures_of test_suites l2.
Proof.
  induction l1 as [|n l1 IH]; [reflexivity|].
  cbn [app]. rewrite !failures_of_cons, IH. lia.
Qed.

Lemma filter_existsb_false {A} (f : A -> bool) l :
  existsb f l = false -> List.filter f l = [].
Proof.
  induction l as [|a l IH]; simpl; [reflexivity|].
  destruct (f a); simpl; [discriminate|exact IH].
Qed.

(** While the running total stays at 200 or below over the names [pre],
    the loop appends the table of every failing suite of [pre], logs
    nothing about the cap, and goes on with the names after [pre]. *)
Lemma failure_tables_prefix output (test_suites : registry) pre rest total :
  Forall (fun n => PyDict.get n test_suites <> None) pre ->
  total + failures_of test_suites pre <= 200 ->
  exists lg0,
    existsb is_cap_record lg0 = false /\
    failure_tables output test_suites (pre ++ rest) total =
      (flat_map (table_of test_suites) pre ++
       fst (fst (failure_tables output test_suites rest
                   (total + failures_of test_suites pre))),
       lg0 ++
       snd (fst (failure_tables output test_suites rest
                   (total + failures_of test_suites pre))),
       snd (failure_tables output test_suites rest
              (total + failures_of test_suites pre))).
Proof.
  intros Hpres. revert total.
  induction Hpres as [|n names Hn _ IH]; intros total Hle.
  - exists []. split; [reflexivity|].
    change (failures_of test_suites []) with 0.
    rewrite Nat.add_0_r. cbn [app flat_map].
    now destruct (failure_tables output test_suites rest total) as [[tb lg] r].
  - rewrite failures_of_cons in Hle |- *.
    cbn [app flat_map failure_tables]. unfold table_of at 1.
    destruct (PyDict.get n test_suites) as [suite|]; [|contradiction].
    destruct (Nat.ltb 200 (total + count FAILURE suite)) eqn:Hcap;
      [apply Nat.ltb_lt in Hcap; lia|].
    destruct (IH (total + count FAILURE suite)) as (lg0 & Hlg0 & Heq); [lia|].
    rewrite Heq, Nat.add_assoc.
    destruct (Nat.eqb (count FAILURE suite) 0).
    + exists ((DEBUG, MsgNoFailed n) :: lg0). split; [exact Hlg0|reflexivity].
    + exists lg0. split; [exact Hlg0|]. now rewrite <- app_assoc.
Qed.

(** C4 (amended): the emitter keeps a running total of the failing test
    cases over the suites in sorted order and stops once that total is
    greater than 200. With [n] the suite at which the running total
    passes 200 (it is 200 or less over the names [pre] before [n] and
    greater than 200 with [n]), the tables appended are exactly those of
    the failing suites among [pre] and [n]: the suite that passes the
    cap still gets its table, the suites after it get none. The cap is
    then logged once, at critical level and with the total reached, and
    the loop ends normally, not with an error. If the total of all
    suites is 200 or less, every failing suite has its table and the cap
    is not logged. Whatever follows a list of names over which the total
    has passed 200 has no effect on the outcome. *)
Theorem failure_tables_capped :
  forall output (test_suites : registry),
    (forall pre n post,
       sorted (PyDict.keys test_suites) = pre ++ n :: post ->
       failures_of test_suites pre <= 200 ->
       200 < failures_of test_suites (pre ++ [n]) ->
       fst (fst (failure_tables output test_suites
                   (sorted (PyDict.keys test_suites)) 0)) =
         flat_map (table_of test_suites) (pre ++ [n]) /\
       snd (failure_tables output test_suites
              (sorted (PyDict.keys test_suites)) 0) = Return tt /\
       List.filter is_cap_record
         (snd (fst (failure_tables output test_suites
                      (sorted (PyDict.keys test_suites)) 0))) =
         [(CRITICAL,
           MsgCap (failures_of test_suites (pre ++ [n])) output)]) /\
    (failures_of test_suites (sorted (PyDict.keys test_suites)) <= 200 ->
     fst (fst (failure_tables output test_suites
                 (sorted (PyDict.keys test_suites)) 0)) =
       flat_map (table_of test_suites) (sorted (PyDict.keys test_suites)) /\
     snd (failure_tables output test_suites
            (sorted (PyDict.keys test_suites)) 0) = Return tt /\
     existsb is_cap_record
       (snd (fst (failure_tables output test_suites
                    (sorted (PyDict.keys test_suites)) 0))) = false) /\
    (forall pre post,
       sorted (PyDict.keys test_suites) = pre ++ post ->
       200 < failures_of test_suites pre ->
       failure_tables output test_suites (sorted (PyDict.keys test_suites)) 0 =
         failure_tables output test_suites pre 0).
Proof.
  intros output test_suites.
  pose proof (sorted_keys_present test_suites) as Hpres.
  split; [|split].
  - intros pre n post Hsplit Hle Hgt. rewrite Hsplit in *.
    apply Forall_app in Hpres. destruct Hpres as [Hpre Hrest].
    apply Forall_cons_1 in Hrest. destruct Hrest as [Hn _].
    destruct (failure_tables_prefix output test_suites pre (n :: post) 0 Hpre)
      as (lg0 & Hlg0 & Heq); [exact Hle|].
    rewrite Heq. cbn [fst snd plus].
    rewrite failures_of_app, failures_of_cons in Hgt |- *.
    change (failures_of test_suites []) with 0 in *.
    rewrite Nat.add_0_r in Hgt |- *.
    rewrite flat_map_app. cbn [flat_map failure_tables]. unfold table_of.
    destruct (PyDict.get n test_suites) as [suite|]; [|contradiction].
    apply Nat.ltb_lt in Hgt. rewrite Hgt.
    rewrite app_nil_r.
    destruct (Nat.eqb (count FAILURE suite) 0); cbn [fst snd];
      (split; [reflexivity|split; [reflexivity|]]);
      rewrite List.filter_app, (filter_existsb_false _ _ Hlg0); reflexivity.
  - intros Hle. now apply failure_tables_all.
  - intros pre post Hsplit Hgt. rewrite Hsplit in *.
    apply Forall_app in Hpres. destruct Hpres as [Hpre _].
    destruct (failure_tables_stop output test_suites pre post 0 Hpre)
      as (Heq & _ & _); [lia|exact Hgt|].
    exact Heq.
Qed.

(** C4 (as stated) fails at the boundary: in a run of 250 failures, 200
    in suite [a] and 50 in suite [b], the 200th failure is reached with
    the table of [a], the running total 200 is not greater than 200, and
    the table of [b] is appended all the same. *)
Lemma table_appended_after_200th_failure :
  sorted (PyDict.keys broken_run) = ["a"; "b"] /\
  failures_of broken_run ["a"] = 200 /\
  failures_of broken_run ["a"; "b"] = 250 /\
  map table_name
    (fst (fst (failure_tables "ci_summary.html" broken_run ["a"] 0))) = ["a"] /\
  map table_name
    (fst (fst (failure_tables "ci_summary.html" broken_run
                 (sorted (PyDict.keys broken_run)) 0))) = ["a"; "b"].
Proof.
  repeat split; vm_compute; reflexivity.
Qed.

(** ** C7: the backup and the overwrite *)

Lemma string_length_append (s1 s2 : string) :
  String.length (String.append s1 s2) = String.length s1 + String.length s2.
Proof.
  induction s1 as [|c s1 IH]; simpl; [reflexivity|]. now rewrite IH.
Qed.

(** The backup is another file than the report. *)
Lemma backup_path_ne output : backup_path output <> output.
Proof.
  unfold backup_path. intros H. apply (f_equal String.length) in H.
  rewrite string_length_append in H. simpl in H. lia.
Qed.

(** The loop of the emitter never fails to find a suite. *)
Lemma failure_tables_returns output (test_suites : registry) :
  snd (failure_tables output test_suites (sorted (PyDict.keys test_suites)) 0)
  = Return tt.
Proof.
  pose proof (sorted_keys_present test_suites) as Hpres.
  destruct (le_lt_dec
              (failures_of test_suites (sorted (PyDict.keys test_suites))) 200)
    as [Hle|Hgt].
  - now apply failure_tables_all.
  - rewrite <- (app_nil_r (sorted (PyDict.keys test_suites))) at 1.
    destruct (failure_tables_stop output test_suites
                (sorted (PyDict.keys test_suites)) [] 0 Hpres)
      as (Heq & Hr & _); [lia|exact Hgt|].
    now rewrite Heq.
Qed.

(** When the backup has returned, the backup holds the report and the
    report is as it was. *)
Lemma backup_returns fault output (fs fs1 : filesystem) content :
  fs !! output = Some content ->
  backup fault output fs = (fs1, Return tt) ->
  fs1 !! backup_path output = Some content /\ fs1 !! output = Some content.
Proof.
  intros Hc. unfold backup. rewrite Hc.
  destruct fault; intros H; inversion H; subst; clear H;
    (split; [apply lookup_insert_eq|]);
    (rewrite lookup_insert_ne; [exact Hc|apply backup_path_ne]).
Qed.

(** The overwrite writes to the report only. *)
Lemma overwrite_keeps_backup fault output new_content (fs : filesystem) :
  fst (overwrite fault output new_content fs) !! backup_path output =
  fs !! backup_path output.
Proof.
  pose proof (backup_path_ne output) as Hne.
  destruct fault; simpl; try reflexivity;
    rewrite lookup_insert_ne; congruence.
Qed.

(** C7: the emitter copies the report to [<path>.bak] before it opens the
    report for writing. When the copy has returned, the backup holds the
    prior content, and the overwrite that follows leaves the backup
    alone. So wherever the emitter fails, the prior content is still in
    the report or in its backup after the call; when the write fails
    after any number of characters the backup holds it; and when nothing
    fails the backup holds it and the report is the new document. *)
Theorem backup_precedes_overwrite :
  forall bs fault test_suites output (fs : filesystem) content,
    fs !! output = Some content ->
    (forall fs1,
        backup fault output fs = (fs1, Return tt) ->
        fs1 !! backup_path output = Some content /\
        fs1 !! output = Some content /\
        forall new_content,
          fst (overwrite fault output new_content fs1) !! backup_path output
          = Some content) /\
    (fst (fst (append_failure_results bs fault test_suites output fs))
       !! output = Some content \/
     fst (fst (append_failure_results bs fault test_suites output fs))
       !! backup_path output = Some content) /\
    (has_body bs content = true ->
     (forall written,
         fault = WriteFails written ->
         append_failure_results bs fault test_suites output fs =
         (<[output := String.substring 0 written
              (prettify bs
                 {| soup_source := content;
                    soup_appended :=
                      FailureDetailsHeader :: StyleTags ::
                      fst (fst (failure_tables output test_suites
                                  (sorted (PyDict.keys test_suites)) 0)) |})]>
            (<[backup_path output := content]> fs),
          snd (fst (failure_tables output test_suites
                      (sorted (PyDict.keys test_suites)) 0)),
          Raise (OSError "write"))) /\
     (fault = NoFault ->
      fst (fst (append_failure_results bs fault test_suites output fs))
        !! backup_path output = Some content /\
      fst (fst (append_failure_results bs fault test_suites output fs))
        !! output =
        Some (prettify bs
                {| soup_source := content;
                   soup_appended :=
                     FailureDetailsHeader :: StyleTags ::
                     fst (fst (failure_tables output test_suites
                                 (sorted (PyDict.keys test_suites)) 0)) |}) /\
      snd (append_failure_results bs fault test_suites output fs) = Return tt)).
Proof.
  intros bs fault test_suites output fs content Hc.
  pose proof (backup_path_ne output) as Hne.
  pose proof (failure_tables_returns output test_suites) as Hret.
  split; [|split].
  - intros fs1 Hb.
    destruct (backup_returns _ _ _ _ _ Hc Hb) as [Hbak Hout].
    split; [exact Hbak|split; [exact Hout|]].
    intros new_content. now rewrite overwrite_keeps_backup.
  - unfold append_failure_results. rewrite Hc.
    destruct (has_body bs content); cbn [negb]; [|now left].
    destruct (failure_tables output test_suites _ 0) as [[tables lg] r].
    cbn [snd] in Hret. subst r. unfold backup. rewrite Hc.
    destruct fault; cbn [overwrite fst].
    + right. rewrite lookup_insert_ne by congruence. apply lookup_insert_eq.
    + left. now rewrite lookup_insert_ne.
    + right. apply lookup_insert_eq.
    + right. rewrite lookup_insert_ne by congruence. apply lookup_insert_eq.
  - intros Hbody. unfold append_failure_results. rewrite Hc, Hbody.
    cbn [negb].
    destruct (failure_tables output test_suites _ 0) as [[tables lg] r].
    cbn [snd fst] in *. subst r. unfold backup. rewrite Hc. split.
    + intros written ->. reflexivity.
    + intros ->. cbn [overwrite fst snd]. split; [|split; [|reflexivity]].
      * rewrite lookup_insert_ne by congruence. apply lookup_insert_eq.
      * apply lookup_insert_eq.
Qed.

(** * The properties on the sample inputs *)

(** Two files that declare [flaky], the second one first: one entry. *)
Lemma suite_name_claimed_once_witness :
  Permutation [dup2; dup1] [dup1; dup2] /\
  entries_named "flaky" (final_registry sample_args [dup2; dup1]) = 1.
Proof.
  assert (Hperm : Permutation [dup2; dup1] [dup1; dup2]) by apply perm_swap.
  split; [exact Hperm|].
  destruct (suite_name_claimed_once sample_args [dup1; dup2] [dup2; dup1] Hperm)
    as (_ & _ & H & _).
  apply (H dup1); [left; reflexivity|reflexivity].
Defined.

(** Worker 0 tests and inserts before worker 1 tests: worker 1 is
    rejected. *)
Lemma no_check_passes_after_insert_witness :
  pool_trace (run_schedule sample_args [0; 0; 1] (submit [dup1; dup2])) =
    [(0, EvCheckPassed "flaky")] ++
    (0, EvInserted "flaky") :: [(1, EvRejected "flaky")] /\
  ~ In (1, EvCheckPassed "flaky") [(1, EvRejected "flaky")].
Proof.
  split; [vm_compute; reflexivity|].
  apply (no_check_passes_after_insert sample_args [dup1; dup2] [0; 0; 1]
           [(0, EvCheckPassed "flaky")] 0 "flaky"
           [(1, EvRejected "flaky")] 1).
  vm_compute; reflexivity.
Defined.

(** 250 failures, 201 of them in the first suite: that suite passes the
    cap with its own failures and is the only one to get a table. *)
Lemma failure_tables_capped_witness :
  sorted (PyDict.keys capped_run) = [] ++ "a" :: ["b"] /\
  failures_of capped_run [] <= 200 /\
  200 < failures_of capped_run ([] ++ ["a"]) /\
  map table_name
    (fst (fst (failure_tables "ci_summary.html" capped_run
                 (sorted (PyDict.keys capped_run)) 0))) = ["a"] /\
  List.filter is_cap_record
    (snd (fst (failure_tables "ci_summary.html" capped_run
                 (sorted (PyDict.keys capped_run)) 0))) =
    [(CRITICAL, MsgCap 201 "ci_summary.html")].
Proof.
  assert (Hs : sorted (PyDict.keys capped_run) = [] ++ "a" :: ["b"])
    by (vm_compute; reflexivity).
  assert (Hle : failures_of capped_run [] <= 200)
    by (vm_compute; lia).
  assert (Hgt : 200 < failures_of capped_run ([] ++ ["a"]))
    by (vm_compute; lia).
  split; [exact Hs|split; [exact Hle|split; [exact Hgt|]]].
  destruct (failure_tables_capped "ci_summary.html" capped_run) as [H _].
  destruct (H [] "a" ["b"] Hs Hle Hgt) as (Heq & _ & Hcap).
  rewrite Heq, Hcap.
  split; vm_compute; reflexivity.
Defined.

(** Three test cases at two depths. *)
Lemma extraction_counts_every_testcase_witness :
  exists lg suite,
    process_xml_file sample_args unit_file [] =
      ([] ++ [(str (get unit_root "name"), suite)], lg,
       Return (if Nat.eqb 3 0 then 0 else 1, 3)) /\
    length (suite_tests suite) = 3 /\
    passed suite + failed suite + skipped suite = 3.
Proof.
  apply (extraction_counts_every_testcase sample_args unit_file unit_root [] 3);
    vm_compute; reflexivity.
Defined.

Lemma discovery_raises_iff_no_candidate_witness :
  discover "ci" [{| xml_path := "ci/result_details.xml";
                    xml_content := Parsed unit_root |}] =
    ([(CRITICAL, MsgRaised (not_found_message "ci"))],
     Raise (FileNotFoundError (not_found_message "ci"))) /\
  discover "ci" [unit_file] =
    ([(DEBUG, MsgExtracting (length (candidate_files [unit_file])) "ci")],
     Return (candidate_files [unit_file])).
Proof.
  split.
  - apply (discovery_raises_iff_no_candidate "ci"
             [{| xml_path := "ci/result_details.xml";
                 xml_content := Parsed unit_root |}]).
    vm_compute; reflexivity.
  - apply (discovery_raises_iff_no_candidate "ci" [unit_file]).
    vm_compute. discriminate.
Defined.

(** The write fails after five characters: the backup holds the report. *)
Lemma backup_precedes_overwrite_witness :
  fst (fst (append_failure_results sample_bs (WriteFails 5) broken_run
              "ci_summary.html" {[ "ci_summary.html" := sample_report ]}))
    !! "ci_summary.html" = Some sample_report \/
  fst (fst (append_failure_results sample_bs (WriteFails 5) broken_run
              "ci_summary.html" {[ "ci_summary.html" := sample_report ]}))
    !! backup_path "ci_summary.html" = Some sample_report.
Proof.
  apply (backup_precedes_overwrite sample_bs (WriteFails 5) broken_run
           "ci_summary.html" {[ "ci_summary.html" := sample_report ]}
           sample_report).
  apply lookup_singleton_eq.
Defined.

Lemma claimed_entry_stays_without_contribution_witness :
  In "lint" (PyDict.keys
               (fst (fst (run_workers sample_args [unit_file]
                            (fst (fst (process_xml_file sample_args
                                         lint_report [])))))))
  /\ snd (process_xml_file sample_args lint_report []) = Return (0, 0).
Proof.
  destruct (claimed_entry_stays_without_contribution sample_args lint_report
              lint_root [] [unit_file] eq_refl eq_refl) as (_ & H & _ & H0 & _).
  split; [exact H|]. apply H0. left. vm_compute; reflexivity.
Defined.

Lemma archive_count_always_zero_witness :
  total_archives
    {| total_archives := 0; total_files := 1; total_suites := 2;
       total_tests := 3; total_passed := 2; total_failed := 1;
       total_skipped := 0 |} = 0 /\
  In (PROGRESS, MsgTotalArchive 0)
     (fst (extract_junit_from_test_run sample_args (fun l => l) "ci"
             [unit_file; lint_report])).
Proof.
  apply (archive_count_always_zero sample_args (fun l => l) "ci"
           [unit_file; lint_report]
           (fst (extract_junit_from_test_run sample_args (fun l => l) "ci"
                   [unit_file; lint_report]))
           (final_registry sample_args [unit_file; lint_report])).
  vm_compute. reflexivity.
Defined.

(** * Further properties of the worker *)

(** What a file whose name is free contributes: the suite carries the
    name and the path of the file; either nothing was extracted and
    [(0, 0)] is returned with no file and no test case recorded, or the
    file is recorded, the count is that of [findall] and the test cases
    are those that [iter] visits. *)
Lemma contribution_shape args xml_file n root :
  let '(s, lg, r) := contribution args xml_file n root in
  suite_name s = n /\ suite_archive s = Some xml_file /\
  ((r = (0, 0) /\ suite_tests s = [] /\ suite_files s = []) \/
   (fst r = 1 /\ 0 < snd r /\
    snd r = length (findall_descendants "testcase" root) /\
    suite_files s = [xml_file] /\
    suite_tests s = map new_testcase (iter "testcase" root))).
Proof.
  unfold contribution. destruct (str_in ".xml" xml_file);
    [|simpl; repeat split; left; repeat split].
  - unfold extract_test_cases.
    destruct (any_in _ xml_file); [simpl; repeat split; left; repeat split|].
    destruct (Nat.eqb (length (findall_descendants "testcase" root)) 0) eqn:E.
    + simpl. repeat split. left. repeat split.
    + rewrite E. rewrite fold_add_testcase. apply Nat.eqb_neq in E.
      cbn [fst snd suite_name suite_archive suite_tests suite_files
           add_file set_archive new_suite existsb app].
      split; [reflexivity|split; [reflexivity|right]].
      repeat split. lia.
Qed.

Lemma iter_length_findall root :
  length (findall_descendants "testcase" root) <=
  length (iter "testcase" root).
Proof.
  rewrite iter_unfold, length_app. lia.
Qed.

(** X3: The second [except] clause: an exception of [ET.parse] that is neither
    [EOFError] nor [ParseError] does not leave the worker as itself. The
    clause reads [active_file], which is assigned after the parse, so the
    worker leaves with [UnboundLocalError], logs nothing and changes
    nothing in the registry. *)
Theorem unexpected_parse_exception_is_masked :
  forall args path e test_suites,
    e <> EOFError -> e <> ParseError ->
    process_xml_file args {| xml_path := path; xml_content := ParseRaises e |}
      test_suites =
    (test_suites, [], Raise (UnboundLocalError "active_file")).
Proof.
  intros args path e test_suites H1 H2.
  rewrite (process_xml_file_raises _ _ e); [|reflexivity].
  destruct e; try contradiction; reflexivity.
Qed.

(** X1: The pair that a worker returns: no file and no test, or one file and
    at least one test. *)
Theorem worker_returns_one_file_iff_tests :
  forall args f test_suites files tests,
    snd (process_xml_file args f test_suites) = Return (files, tests) ->
    (files = 0 /\ tests = 0) \/ (files = 1 /\ 0 < tests).
Proof.
  intros args f d files tests.
  destruct (xml_content f) as [root|e] eqn:Hp.
  - destruct (PyDict.contains (str (get root "name")) d) eqn:Hc.
    + rewrite (process_xml_file_duplicate _ _ _ _ Hp Hc). cbn [snd].
      intros H. inversion H. auto.
    + apply contains_false in Hc.
      rewrite (process_xml_file_fresh _ _ _ _ Hp Hc).
      pose proof (contribution_shape args (xml_path f)
                    (str (get root "name")) root) as Hs.
      destruct (contribution _ _ _ _) as [[s lg] r]. cbn [snd].
      intros H. inversion H; subst.
      destruct Hs as (_ & _ & [(Hr & _)|(Ha & Hb & _)]).
      * inversion Hr. auto.
      * cbn [fst snd] in *. auto.
  - rewrite (process_xml_file_raises _ _ _ _ Hp).
    destruct e; simpl; discriminate.
Qed.

(** X2: The worker's effect on the registry: nothing, or one new entry at the
    end, under the name that the file declares and that was free. Every
    entry that was there stays as it was, at its place. *)
Theorem worker_appends_at_most_one_entry :
  forall args f test_suites,
    fst (fst (process_xml_file args f test_suites)) = test_suites \/
    exists n s,
      declared_name f = Some n /\
      PyDict.get n test_suites = None /\
      suite_name s = n /\
      fst (fst (process_xml_file args f test_suites)) =
        test_suites ++ [(n, s)].
Proof.
  intros args f d. destruct (xml_content f) as [root|e] eqn:Hp.
  - destruct (PyDict.contains (str (get root "name")) d) eqn:Hc.
    + left. now rewrite (process_xml_file_duplicate _ _ _ _ Hp Hc).
    + right. apply contains_false in Hc.
      rewrite (process_xml_file_fresh _ _ _ _ Hp Hc).
      pose proof (contribution_shape args (xml_path f)
                    (str (get root "name")) root) as Hs.
      destruct (contribution _ _ _ _) as [[s lg] r].
      exists (str (get root "name")), s.
      split; [now apply declared_name_parsed|].
      split; [exact Hc|]. split; [apply Hs|reflexivity].
  - left. now rewrite (process_xml_file_raises _ _ _ _ Hp).
Qed.

(** * Further properties of the sequential run *)

(** Every entry of the registry after a run was either there before or is
    what one file of the run contributes under its declared name. *)
Lemma run_workers_entries args order (d : registry) k s :
  In (k, s) (fst (fst (run_workers args order d))) ->
  In (k, s) d \/
  exists f root,
    In f order /\ xml_content f = Parsed root /\
    k = str (get root "name") /\
    s = fst (fst (contribution args (xml_path f) k root)).
Proof.
  revert d. induction order as [|f rest IH]; intros d Hin.
  - now left.
  - rewrite run_workers_cons in Hin. apply IH in Hin.
    destruct Hin as [Hin|(g & root & Hg & Hp & Hk & Hs)].
    + destruct (xml_content f) as [root|e] eqn:Hp.
      * destruct (PyDict.contains (str (get root "name")) d) eqn:Hc.
        -- rewrite (process_xml_file_duplicate _ _ _ _ Hp Hc) in Hin.
           now left.
        -- apply contains_false in Hc.
           rewrite (process_xml_file_fresh _ _ _ _ Hp Hc) in Hin.
           destruct (contribution _ _ _ _) as [[s' lg] r] eqn:Hcon.
           cbn [fst] in Hin. apply in_app_or in Hin.
           destruct Hin as [Hin|[Heq|[]]]; [now left|].
           inversion Heq; subst. right. exists f, root.
           split; [now left|]. split; [exact Hp|]. split; [reflexivity|].
           now rewrite Hcon.
      * rewrite (process_xml_file_raises _ _ _ _ Hp) in Hin. now left.
    + right. exists g, root. split; [now right|]. auto.
Qed.

(** X5: Every suite of the registry that a sequential run leaves is filed
    under its own name, was read from a file of the run that declares
    that name, names that file as its archive, records that file or no
    file at all, and records a file exactly when it records a test
    case. *)
Theorem registry_entries_come_from_files :
  forall args order k s,
    In (k, s) (final_registry args order) ->
    suite_name s = k /\
    (exists f,
        In f order /\ declared_name f = Some k /\
        suite_archive s = Some (xml_path f) /\
        (suite_files s = [] \/ suite_files s = [xml_path f])) /\
    (suite_files s = [] <-> suite_tests s = []).
Proof.
  intros args order k s Hin.
  apply run_workers_entries in Hin.
  destruct Hin as [[]|(f & root & Hf & Hp & Hk & Hs)].
  pose proof (contribution_shape args (xml_path f) k root) as Hsh.
  pose proof (iter_length_findall root) as Hlen.
  destruct (contribution _ _ _ _) as [[s' lg] r]. cbn [fst] in Hs. subst s'.
  destruct Hsh as (Hn & Ha & Hcase).
  split; [exact Hn|]. split.
  - exists f. split; [exact Hf|]. split.
    + rewrite (declared_name_parsed _ _ Hp). now subst k.
    + split; [exact Ha|]. destruct Hcase as [(_ & _ & H)|(_ & _ & _ & H & _)];
        auto.
  - destruct Hcase as [(_ & Ht & Hfl)|(_ & Hpos & Hcnt & Hfl & Ht)].
    + rewrite Ht, Hfl. tauto.
    + rewrite Hfl, Ht. split; [discriminate|].
      intros Hnil. apply (f_equal (@length _)) in Hnil.
      rewrite length_map in Hnil. simpl in Hnil. lia.
Qed.

Lemma recorded_tests_app (d : registry) n s :
  recorded_tests (d ++ [(n, s)]) = recorded_tests d + length (suite_tests s).
Proof.
  unfold recorded_tests, PyDict.values. rewrite !map_app, list_sum_app.
  simpl. lia.
Qed.

Lemma files_sum_cons r rs : files_sum (r :: rs) = files_of r + files_sum rs.
Proof. reflexivity. Qed.

Lemma tests_sum_cons r rs : tests_sum (r :: rs) = tests_of r + tests_sum rs.
Proof. reflexivity. Qed.

(** One worker: what its future counts against what it adds to the
    registry. *)
Lemma process_xml_file_counts args f (d : registry) :
  length d + files_of (snd (process_xml_file args f d)) <=
    length (fst (fst (process_xml_file args f d))) /\
  length (fst (fst (process_xml_file args f d))) <= length d + 1 /\
  recorded_tests d + tests_of (snd (process_xml_file args f d)) <=
    recorded_tests (fst (fst (process_xml_file args f d))) /\
  (root_is_no_testcase f ->
   recorded_tests (fst (fst (process_xml_file args f d))) =
   recorded_tests d + tests_of (snd (process_xml_file args f d))).
Proof.
  unfold root_is_no_testcase.
  destruct (xml_content f) as [root|e] eqn:Hp.
  - destruct (PyDict.contains (str (get root "name")) d) eqn:Hc.
    + rewrite (process_xml_file_duplicate _ _ _ _ Hp Hc). simpl.
      repeat split; lia.
    + apply contains_false in Hc.
      rewrite (process_xml_file_fresh _ _ _ _ Hp Hc).
      pose proof (contribution_shape args (xml_path f)
                    (str (get root "name")) root) as Hs.
      pose proof (iter_length_findall root) as Hlen.
      pose proof (iter_unfold "testcase" root) as Hit.
      destruct (contribution _ _ _ _) as [[s lg] [a b]].
      cbn [fst snd files_of tests_of].
      rewrite recorded_tests_app, length_app. cbn [length].
      destruct Hs as (_ & _ & [(Hr & Ht & _)|(Ha & Hb & Hcnt & _ & Ht)]).
      * inversion Hr; subst. rewrite Ht. simpl. repeat split; lia.
      * cbn [fst snd] in *. subst a. rewrite Ht, length_map.
        split; [lia|]. split; [lia|]. split; [lia|].
        intros Hroot. unfold is_testcase in Hroot.
        rewrite Hit, Hroot. cbn [app]. lia.
  - rewrite (process_xml_file_raises _ _ _ _ Hp).
    destruct (except_clauses _ _ e) as [lg r] eqn:He. cbn [fst snd].
    assert (Hr : exists e', r = Raise e').
    { destruct e; simpl in He; inversion He; eauto. }
    destruct Hr as [e' ->]. simpl. repeat split; lia.
Qed.

(** What the futures count against what the registry holds. *)
Lemma run_workers_counts args order (d : registry) :
  length d + files_sum (snd (run_workers args order d)) <=
    length (fst (fst (run_workers args order d))) /\
  length (fst (fst (run_workers args order d))) <= length d + length order /\
  recorded_tests d + tests_sum (snd (run_workers args order d)) <=
    recorded_tests (fst (fst (run_workers args order d))) /\
  (Forall root_is_no_testcase order ->
   recorded_tests (fst (fst (run_workers args order d))) =
   recorded_tests d + tests_sum (snd (run_workers args order d))).
Proof.
  revert d. induction order as [|f rest IH]; intros d.
  - unfold files_sum, tests_sum. simpl. repeat split; lia.
  - cbn [run_workers].
    pose proof (process_xml_file_counts args f d) as Hstep.
    destruct (process_xml_file args f d) as [[d1 lg1] r].
    specialize (IH d1).
    destruct (run_workers args rest d1) as [[d2 lg2] rs].
    cbn [fst snd length] in *.
    rewrite files_sum_cons, tests_sum_cons.
    destruct Hstep as (H1 & H2 & H3 & H4).
    destruct IH as (I1 & I2 & I3 & I4).
    split; [lia|]. split; [lia|]. split; [lia|].
    intros Hall. apply Forall_cons in Hall. destruct Hall as [Hf Hrest].
    specialize (H4 Hf). specialize (I4 Hrest). lia.
Qed.

(** When the loop of lines 128-136 returns, its counters are the sums
    over the futures. *)
Lemma collect_sums futures c lg c' :
  collect futures c = (lg, Return c') ->
  test_file_count c' = test_file_count c + files_sum futures /\
  test_count c' = test_count c + tests_sum futures.
Proof.
  revert c. induction futures as [|[[a b]|e] futures IH]; intros c H.
  - simpl in H. inversion H. unfold files_sum, tests_sum. simpl. lia.
  - cbn [collect] in H. apply IH in H. cbn [test_file_count test_count] in H.
    rewrite files_sum_cons, tests_sum_cons. cbn [files_of tests_of]. lia.
  - discriminate.
Qed.

Lemma passed_failed_skipped_sum (suites : list JUnitTestSuite) :
  list_sum (map passed suites) + list_sum (map failed suites) +
  list_sum (map skipped suites) =
  list_sum (map (fun s => length (suite_tests s)) suites).
Proof.
  assert (Hc : forall x l, list_sum (x :: l) = x + list_sum l) by reflexivity.
  induction suites as [|s suites IH]; [reflexivity|].
  cbn [map]. rewrite !Hc. pose proof (passed_failed_skipped s). lia.
Qed.

(** What a returned run is made of: the registry of its workers and the
    totals of its counters. *)
Lemma aggregate_returns args order lg test_suites t :
  aggregate args order = (lg, Return (test_suites, t)) ->
  test_suites = final_registry args order /\
  exists c lgc,
    collect (snd (run_workers args order []))
      {| archive_count := 0; test_file_count := 0; test_count := 0 |} =
      (lgc, Return c) /\
    t = totals_of c test_suites.
Proof.
  unfold aggregate, final_registry.
  destruct (run_workers args order []) as [[ts lgw] futures]. cbn [fst snd].
  destruct (collect futures _) as [lgc [c|e]] eqn:Hc; [|discriminate].
  pose proof (tally_sums (PyDict.values ts) 0 0 0) as Ht.
  destruct (tally (PyDict.values ts) (0, 0, 0)) as [lge [[p f] s]].
  cbn [snd] in Ht. inversion Ht; subst. intros H. inversion H; subst.
  split; [reflexivity|]. exists c, lgc. split; reflexivity.
Qed.

(** The totals of a run of [aggregate] that returns: no more
    contributing files than suites, no more suites than files processed,
    and no more tests counted than recorded. *)
Lemma aggregate_counts args order lg test_suites t :
  aggregate args order = (lg, Return (test_suites, t)) ->
  total_files t <= total_suites t /\
  total_suites t <= length order /\
  total_tests t <= total_passed t + total_failed t + total_skipped t /\
  (Forall root_is_no_testcase order ->
   total_tests t = total_passed t + total_failed t + total_skipped t).
Proof.
  intros H.
  apply aggregate_returns in H. destruct H as (-> & c & lgc & Hc & ->).
  apply collect_sums in Hc. cbn [test_file_count test_count] in Hc.
  destruct Hc as [Hf Ht].
  pose proof (run_workers_counts args order []) as (H1 & H2 & H3 & H4).
  fold (final_registry args order) in *.
  unfold totals_of. cbn [total_files total_suites total_tests total_passed
                          total_failed total_skipped].
  rewrite passed_failed_skipped_sum.
  fold (recorded_tests (final_registry args order)).
  unfold PyDict.keys. rewrite length_map.
  unfold recorded_tests at 1 in H3. unfold recorded_tests at 2 in H4.
  cbn [length PyDict.values map] in *.
  change (list_sum []) with 0 in *.
  split; [lia|]. split; [lia|]. split; [lia|].
  intros Hall. specialize (H4 Hall). lia.
Qed.

(** The candidates are the enumerated files whose path holds none of the
    excluded words. *)
Lemma candidate_files_In f rglob :
  In f (candidate_files rglob) <->
  In f rglob /\ any_in xml_exclusions (xml_path f) = false.
Proof.
  unfold candidate_files. cbn [debug_file xml_inclusions].
  rewrite filter_In, negb_true_iff. reflexivity.
Qed.

(** X7: From discovery to the registry: every suite that
    [extract_junit_from_test_run] returns was read from an enumerated
    file whose path holds neither [split] nor [result_details], under the
    name that the file declares. A file that the filter drops is never
    the archive of a suite. *)
Theorem suites_come_from_candidate_files :
  forall args sched input_dir rglob lg test_suites t k s,
    (forall l, Permutation (sched l) l) ->
    extract_junit_from_test_run args sched input_dir rglob =
      (lg, Return (test_suites, t)) ->
    In (k, s) test_suites ->
    exists f,
      In f rglob /\
      str_in "split" (xml_path f) = false /\
      str_in "result_details" (xml_path f) = false /\
      declared_name f = Some k /\
      suite_archive s = Some (xml_path f).
Proof.
  intros args sched input_dir rglob lg test_suites t k s Hsched.
  unfold extract_junit_from_test_run.
  destruct (discover input_dir rglob) as [lgd [xml_files|e]] eqn:Hd;
    [|discriminate].
  assert (Hx : xml_files = candidate_files rglob).
  { destruct (candidate_files rglob) as [|x l] eqn:Hc.
    - rewrite (discover_empty _ _ Hc) in Hd. discriminate.
    - rewrite discover_nonempty in Hd by (rewrite Hc; discriminate).
      inversion Hd. now rewrite Hc. }
  subst xml_files.
  destruct (aggregate args (sched (candidate_files rglob))) as [lga r] eqn:Ha.
  intros H Hin. inversion H; subst; clear H.
  apply aggregate_returns in Ha. destruct Ha as [-> _].
  apply run_workers_entries in Hin.
  destruct Hin as [[]|(f & root & Hf & Hp & Hk & Hs)].
  apply (Permutation_in _ (Hsched _)) in Hf.
  apply candidate_files_In in Hf. destruct Hf as [Hf Hex].
  unfold any_in, xml_exclusions in Hex. cbn [existsb] in Hex.
  apply orb_false_iff in Hex. destruct Hex as [Hs1 Hex].
  apply orb_false_iff in Hex. destruct Hex as [Hs2 _].
  exists f. split; [exact Hf|]. split; [exact Hs1|]. split; [exact Hs2|].
  split.
  - rewrite (declared_name_parsed _ _ Hp). now subst k.
  - pose proof (contribution_shape args (xml_path f) k root) as Hsh.
    destruct (contribution _ _ _ _) as [[s' lg'] r']. cbn [fst] in Hs.
    subst s'. apply Hsh.
Qed.

(** * Further properties of the report emitter *)

Lemma str_le_trans a b c : str_le a b -> str_le b c -> str_le a c.
Proof.
  unfold str_le, String.leb. revert b c.
  induction a as [|x a IH]; intros [|y b] [|z c]; simpl; try congruence.
  unfold Ascii.compare.
  destruct (N.compare_spec (N_of_ascii x) (N_of_ascii y));
    destruct (N.compare_spec (N_of_ascii y) (N_of_ascii z));
    destruct (N.compare_spec (N_of_ascii x) (N_of_ascii z));
    intros; first [congruence | lia | reflexivity | eapply IH; eassumption].
Qed.

Lemma str_le_total a b : str_le a b \/ str_le b a.
Proof. apply String.leb_total. Qed.

Lemma insert_sorted_sorted k l :
  StronglySorted str_le l -> StronglySorted str_le (insert_sorted k l).
Proof.
  induction 1 as [|k' l Hl IH Hall]; simpl.
  - constructor; constructor.
  - destruct (String.leb k k') eqn:E.
    + constructor; [now constructor|]. constructor; [exact E|].
      eapply Forall_impl; [exact Hall|]. intros x Hx.
      eapply str_le_trans; [exact E|exact Hx].
    + constructor; [exact IH|].
      apply Forall_forall. intros x Hx. apply list_elem_of_In in Hx.
      apply insert_sorted_In in Hx. destruct Hx as [->|Hx].
      * destruct (str_le_total k k') as [H|H]; [|exact H].
        unfold str_le in H. congruence.
      * apply (proj1 (Forall_forall _ _) Hall). now apply list_elem_of_In.
Qed.

(** [sorted] returns its argument in ascending order. *)
Lemma sorted_sorted l : StronglySorted str_le (sorted l).
Proof.
  induction l as [|k l IH]; simpl; [constructor|].
  now apply insert_sorted_sorted.
Qed.

Lemma insert_sorted_Permutation k l : Permutation (insert_sorted k l) (k :: l).
Proof.
  induction l as [|k' l IH]; simpl; [reflexivity|].
  destruct (String.leb k k'); [reflexivity|].
  rewrite IH. apply perm_swap.
Qed.

Lemma sorted_Permutation l : Permutation (sorted l) l.
Proof.
  induction l as [|k l IH]; simpl; [reflexivity|].
  rewrite insert_sorted_Permutation. now constructor.
Qed.

(** The tables of the loop, against the names it was given: their names
    are among these names, in the same order and as free of repetition,
    and each is the table of a suite with a failing test case. *)
Lemma failure_tables_names output (test_suites : registry) names total :
  let tables := fst (fst (failure_tables output test_suites names total)) in
  (forall n, In n (map table_name tables) -> In n names) /\
  (StronglySorted str_le names ->
   StronglySorted str_le (map table_name tables)) /\
  (NoDup names -> NoDup (map table_name tables)) /\
  Forall (table_of_failing_suite test_suites) tables.
Proof.
  revert total. induction names as [|n rest IH]; intros total.
  - simpl. repeat split; auto; constructor.
  - cbn [failure_tables].
    destruct (PyDict.get n test_suites) as [suite|] eqn:Hget;
      [|simpl; split; [intros ? []|]; split; [intros _; constructor|];
        split; [intros _; constructor|constructor]].
    set (total' := total + count FAILURE suite).
    specialize (IH total').
    destruct (failure_tables output test_suites rest total')
      as [[tables' lg'] r'].
    cbn [fst snd] in IH. destruct IH as (Hin & Hsorted & Hnodup & Hshape).
    assert (Hhead :
      forall tb, (tb = [] \/
                  (count FAILURE suite <> 0 /\
                   tb = [FailureTable n (count FAILURE suite)
                           (get_tests FAILURE suite)])) ->
      (forall m, In m (map table_name (tb ++ tables')) -> In m (n :: rest)) /\
      (StronglySorted str_le (n :: rest) ->
       StronglySorted str_le (map table_name (tb ++ tables'))) /\
      (NoDup (n :: rest) -> NoDup (map table_name (tb ++ tables'))) /\
      Forall (table_of_failing_suite test_suites) (tb ++ tables') /\
      (forall m, In m (map table_name tb) -> In m (n :: rest)) /\
      (StronglySorted str_le (map table_name tb)) /\
      NoDup (map table_name tb) /\
      Forall (table_of_failing_suite test_suites) tb).
    { intros tb [->|[Hne ->]]; cbn [app map table_name].
      - split; [intros m Hm; right; now apply Hin|].
        split; [intros Hs; apply Hsorted; now apply StronglySorted_inv in Hs|].
        split; [intros Hn; apply Hnodup; now apply NoDup_cons in Hn|].
        split; [exact Hshape|].
        split; [intros m' []|]. repeat split; constructor.
      - split; [intros m [<-|Hm]; [now left|right; now apply Hin]|].
        split.
        { intros Hs. apply StronglySorted_inv in Hs. destruct Hs as [Hs Hall].
          constructor; [now apply Hsorted|].
          apply Forall_forall. intros x Hx.
          apply (proj1 (Forall_forall _ _) Hall).
          apply list_elem_of_In. apply Hin. now apply list_elem_of_In. }
        split.
        { intros Hn. apply NoDup_cons in Hn. destruct Hn as [Hnot Hn].
          apply NoDup_cons. split; [|now apply Hnodup].
          intros Hx. apply Hnot. apply list_elem_of_In. apply Hin.
          now apply list_elem_of_In. }
        assert (Ht : table_of_failing_suite test_suites
                       (FailureTable n (count FAILURE suite)
                          (get_tests FAILURE suite)))
          by (exists n, suite; auto).
        split; [now constructor|].
        split; [intros m [<-|[]]; now left|].
        split; [repeat constructor|].
        split; [apply NoDup_singleton|]. now repeat constructor. }
    destruct (Nat.eqb (count FAILURE suite) 0) eqn:E;
      destruct (Nat.ltb 200 total'); cbn [fst snd].
    + destruct (Hhead []) as (_ & _ & _ & _ & H1 & H2 & H3 & H4); auto.
    + destruct (Hhead []) as (H1 & H2 & H3 & H4 & _); auto.
    + apply Nat.eqb_neq in E.
      destruct (Hhead [FailureTable n (count FAILURE suite)
                         (get_tests FAILURE suite)])
        as (_ & _ & _ & _ & H1 & H2 & H3 & H4); auto.
    + apply Nat.eqb_neq in E.
      destruct (Hhead [FailureTable n (count FAILURE suite)
                         (get_tests FAILURE suite)])
        as (H1 & H2 & H3 & H4 & _); auto.
Qed.

(** X12: The failure tables of the report come in ascending order of suite
    name, each is the table of a suite of the registry with at least one
    failing test case and lists that suite's failures, and no suite has
    two tables when the registry holds no name twice. *)
Theorem failure_tables_in_name_order :
  forall output (test_suites : registry),
    let tables :=
      fst (fst (failure_tables output test_suites
                  (sorted (PyDict.keys test_suites)) 0)) in
    StronglySorted str_le (map table_name tables) /\
    Forall (table_of_failing_suite test_suites) tables /\
    (NoDup (PyDict.keys test_suites) -> NoDup (map table_name tables)).
Proof.
  intros output test_suites tables.
  destruct (failure_tables_names output test_suites
              (sorted (PyDict.keys test_suites)) 0)
    as (_ & Hsorted & Hnodup & Hshape).
  split; [apply Hsorted, sorted_sorted|]. split; [exact Hshape|].
  intros Hn. apply Hnodup. now rewrite sorted_Permutation.
Qed.

Lemma removelast_short {A : Type} (l l' : list A) :
  length l <= 1 ->
  removelast (l ++ l') = match l' with [] => [] | _ => l ++ removelast l' end.
Proof.
  destruct l as [|x [|y l]]; simpl; intros H; try lia.
  - destruct l'; reflexivity.
  - destruct l'; reflexivity.
Qed.

(** The bound that the cap gives: whatever the registry, the failures
    listed in all tables but the last one are 200 or fewer. *)
Lemma failure_tables_bound output (test_suites : registry) names total :
  total <= 200 ->
  total +
  list_sum (map table_failures
              (removelast
                 (fst (fst (failure_tables output test_suites names total)))))
  <= 200.
Proof.
  revert total. induction names as [|n rest IH]; intros total Hle.
  - simpl. lia.
  - cbn [failure_tables].
    destruct (PyDict.get n test_suites) as [suite|]; [|simpl; lia].
    destruct (Nat.ltb 200 (total + count FAILURE suite)) eqn:Hcap.
    + destruct (Nat.eqb (count FAILURE suite) 0); simpl; lia.
    + apply Nat.ltb_ge in Hcap. specialize (IH _ Hcap).
      destruct (failure_tables output test_suites rest _)
        as [[tables' lg'] r'].
      cbn [fst snd] in *.
      destruct (Nat.eqb (count FAILURE suite) 0) eqn:E; cbn [fst snd].
      * cbn [app]. lia.
      * rewrite removelast_short by (simpl; lia).
        destruct tables' as [|t tables'']; [simpl; lia|].
        cbn [app map table_failures].
        change (list_sum (count FAILURE suite :: ?l))
          with (count FAILURE suite + list_sum l).
        lia.
Qed.

(** X13: The report stays bounded: whatever the registry, the failures listed
    in all failure tables but the last one are 200 or fewer, so the
    report lists at most 200 failures plus those of one suite. *)
Theorem failures_before_last_table_bounded :
  forall output (test_suites : registry),
    list_sum
      (map table_failures
         (removelast
            (fst (fst (failure_tables output test_suites
                         (sorted (PyDict.keys test_suites)) 0))))) <= 200.
Proof.
  intros output test_suites.
  pose proof (failure_tables_bound output test_suites
                (sorted (PyDict.keys test_suites)) 0).
  lia.
Qed.

(** X14: The file operations of the emitter (the [open] of line 255, the
    [copyfile] of line 288 and the [open] of line 292) write to the
    report and to its backup only. With [fs] the files other than the
    log file, to which the logger writes the records returned here as
    the log: whatever fails and whatever the registry, every path other
    than the report and its backup holds after the call what it held
    before. When the report does not exist or has no body, the emitter
    raises and none of these files is written. *)
Theorem emitter_writes_report_and_backup_only :
  forall bs fault test_suites output (fs : filesystem),
    (forall path,
        path <> output -> path <> backup_path output ->
        fst (fst (append_failure_results bs fault test_suites output fs))
          !! path = fs !! path) /\
    (fs !! output = None \/
     (exists content,
         fs !! output = Some content /\ has_body bs content = false) ->
     fst (fst (append_failure_results bs fault test_suites output fs)) = fs /\
     exists e,
       snd (append_failure_results bs fault test_suites output fs) = Raise e).
Proof.
  intros bs fault test_suites output fs. split.
  - intros path Hp Hb. unfold append_failure_results.
    destruct (fs !! output) as [content|] eqn:Hc; [|reflexivity].
    destruct (negb (has_body bs content)); [reflexivity|].
    destruct (failure_tables output test_suites _ 0) as [[tables lg] [[]|e]];
      [|reflexivity].
    unfold backup. rewrite Hc.
    destruct fault; cbn [overwrite fst];
      rewrite ?lookup_insert_ne by congruence; reflexivity.
  - unfold append_failure_results.
    intros [Hnone|(content & Hc & Hbody)].
    + rewrite Hnone. eauto.
    + rewrite Hc, Hbody. simpl. eauto.
Qed.

(** * Further properties of the orchestrator's log and of [main] *)

Lemma print_errors_records suite :
  List.filter is_printing_record (print_errors suite) =
    [(WARNING, MsgPrinting (failed suite) (suite_name suite))] /\
  length (List.filter is_testcase_record (print_errors suite)) = failed suite.
Proof.
  unfold print_errors, failed, count. cbn [List.filter is_printing_record
                                            is_testcase_record].
  assert (H : forall l : list JUnitTestCase,
             List.filter is_printing_record
               (map (fun testcase => (WARNING, MsgTestcase (tc_name testcase)))
                    l) = [] /\
             length (List.filter is_testcase_record
               (map (fun testcase => (WARNING, MsgTestcase (tc_name testcase)))
                    l)) = length l).
  { induction l as [|c l [IH1 IH2]]; [now split|].
    cbn [map List.filter is_printing_record is_testcase_record length].
    split; [exact IH1|]. now rewrite IH2. }
  destruct (H (get_tests FAILURE suite)) as [-> ->]. now split.
Qed.

(** X9: The diagnostic listing of lines 146-151: a heading is logged for
    exactly the suites with a failed test, in the order of the registry,
    one warning is logged for every failed test case, and the three sums
    grow by the passed, failed and skipped counts of the suites. *)
Theorem failures_are_listed_per_failing_suite :
  forall suites p f s,
    List.filter is_printing_record (fst (tally suites (p, f, s))) =
      map (fun suite => (WARNING, MsgPrinting (failed suite) (suite_name suite)))
          (List.filter (fun suite => negb (Nat.eqb (failed suite) 0)) suites) /\
    length (List.filter is_testcase_record (fst (tally suites (p, f, s)))) =
      list_sum (map failed suites) /\
    snd (tally suites (p, f, s)) =
      (p + list_sum (map passed suites),
       f + list_sum (map failed suites),
       s + list_sum (map skipped suites)).
Proof.
  intros suites p f s. split; [|split; [|apply tally_sums]];
    revert p f s; induction suites as [|x suites IH]; intros p f s;
    try reflexivity; cbn [tally];
    specialize (IH (p + passed x) (f + failed x) (s + skipped x));
    destruct (tally suites _) as [lg acc]; cbn [fst] in *;
    rewrite List.filter_app, ?length_app, IH; cbn [List.filter map];
    destruct (print_errors_records x) as [H1 H2];
    change (list_sum (failed x :: ?l)) with (failed x + list_sum l);
    destruct (Nat.eqb (failed x) 0) eqn:E; cbn [negb map app];
    rewrite ?H1, ?H2; try reflexivity.
  apply Nat.eqb_eq in E. rewrite E. reflexivity.
Qed.

Lemma logged_no_suite_warning lg lvl n :
  ~ In (lvl, MsgEmptyUnexpected n) (logged lg).
Proof.
  unfold logged. intros H. apply in_map_iff in H.
  destruct H as (r & Hr & _). discriminate.
Qed.

(** A suite that records a file exactly when it records a test case is
    never reported as unexpectedly empty. *)
Lemma report_suite_no_unexpected suite lvl n :
  (suite_files suite = [] <-> suite_tests suite = []) ->
  ~ In (lvl, MsgEmptyUnexpected n) (report_suite suite).
Proof.
  intros Hiff. unfold report_suite, is_empty, file_count.
  destruct (suite_tests suite) as [|c l] eqn:Ht.
  - rewrite (proj2 Hiff eq_refl). simpl.
    intros [H|[H|[H|[H|[H|[]]]]]]; discriminate.
  - simpl. intros [H|[H|[H|[H|[]]]]]; discriminate.
Qed.

Lemma final_registry_files_iff_tests args order k s :
  In (k, s) (final_registry args order) ->
  (suite_files s = [] <-> suite_tests s = []).
Proof.
  intros Hin. apply run_workers_entries in Hin.
  destruct Hin as [[]|(f & root & Hf & Hp & Hk & Hs)].
  pose proof (contribution_shape args (xml_path f) k root) as Hsh.
  pose proof (iter_length_findall root) as Hlen.
  destruct (contribution _ _ _ _) as [[s' lg] r]. cbn [fst] in Hs. subst s'.
  destruct Hsh as (_ & _ & [(_ & Ht & Hfl)|(_ & Hpos & Hcnt & Hfl & Ht)]).
  - rewrite Ht, Hfl. tauto.
  - rewrite Hfl, Ht. split; [discriminate|].
    intros Hnil. apply (f_equal (@length _)) in Hnil.
    rewrite length_map in Hnil. simpl in Hnil. lia.
Qed.

Lemma main_never_reports_unexpected_empty args bs fault sched tree fs lvl n :
  ~ In (lvl, MsgEmptyUnexpected n)
       (snd (fst (main args bs fault sched tree fs))).
Proof.
  unfold main.
  destruct (check_file_condition _ _) as [lg0 [[]|e0]]; cbn [fst snd];
    [|apply logged_no_suite_warning].
  destruct (extract_junit_from_test_run _ _ _ _) as [lg1 [[reg t]|e1]] eqn:He;
    cbn [fst snd]; [|apply logged_no_suite_warning].
  destruct (append_failure_results _ _ _ _ _) as [[fs' lg3] r].
  cbn [fst snd]. intros Hin.
  apply in_app_or in Hin. destruct Hin as [Hin|Hin];
    [now apply logged_no_suite_warning in Hin|].
  apply in_app_or in Hin. destruct Hin as [Hin|Hin];
    [|now apply logged_no_suite_warning in Hin].
  apply in_flat_map in Hin. destruct Hin as (suite & Hs & Hin).
  unfold PyDict.values in Hs. apply in_map_iff in Hs.
  destruct Hs as ([k s] & <- & Hks). cbn [snd] in Hin.
  revert Hin. apply report_suite_no_unexpected.
  unfold extract_junit_from_test_run in He.
  destruct (discover _ _) as [lgd [xml_files|e]]; [|discriminate].
  destruct (aggregate args (sched xml_files)) as [lga ra] eqn:Ha.
  inversion He; subst.
  apply aggregate_returns in Ha. destruct Ha as [-> _].
  eapply final_registry_files_iff_tests, Hks.
Qed.

(** X15: The warning of line 82 is never logged: [main] finds no suite that is
    empty and yet has a file, because a worker records the file of a
    suite only together with at least one test case. *)
Theorem unexpected_empty_suite_never_reported :
  forall args bs fault sched tree fs,
    existsb is_unexpected_empty_record
      (snd (fst (main args bs fault sched tree fs))) = false.
Proof.
  intros args bs fault sched tree fs.
  destruct (existsb _ _) eqn:E; [|reflexivity].
  apply existsb_exists in E. destruct E as ([lvl m] & Hin & Hm).
  destruct m; try discriminate.
  now apply main_never_reports_unexpected_empty in Hin.
Qed.

(** X16: When the input path does not exist, or discovery or a worker raises,
    [main] raises as well and has not touched an existing report nor
    written a backup. With [fs] the files other than the log file, to
    which the logger writes the records returned here as the log, the
    one thing [main] may have written is the blank report, when the
    input path exists and there was no report yet. *)
Theorem failed_extraction_leaves_report_alone :
  forall args bs fault sched tree fs,
    (tree = None \/
     exists rglob e,
       tree = Some rglob /\
       snd (extract_junit_from_test_run args sched (arg_input args) rglob) =
         Raise e) ->
    (exists e, snd (main args bs fault sched tree fs) = Raise e) /\
    fst (fst (main args bs fault sched tree fs)) =
      match tree, fs !! arg_output args with
      | Some _, None => <[arg_output args := blank_report]> fs
      | _, _ => fs
      end.
Proof.
  intros args bs fault sched tree fs [->|(rglob & e & -> & He)];
    unfold main, check_file_condition; cbn [negb].
  - unfold log_and_raise. cbn [fst snd]. eauto.
  - destruct (extract_junit_from_test_run _ _ _ _) as [lg1 r].
    cbn [snd] in He. subst r. cbn [fst snd].
    split; [eauto|]. now destruct (fs !! arg_output args).
Qed.

(** X17: A run whose extraction returns, whose file operations do not fail
    and whose starting report (the one that existed, or the blank one)
    has a body: [main] returns, the backup holds the starting report,
    the report is that document with the heading, the style tags and
    the failure tables appended, and, with [fs] the files other than
    the log file of the logger, no other file has changed. *)
Theorem main_backs_up_and_rewrites :
  forall args bs sched rglob (fs : filesystem) lg test_suites t,
    extract_junit_from_test_run args sched (arg_input args) rglob =
      (lg, Return (test_suites, t)) ->
    has_body bs (starting_report (arg_output args) fs) = true ->
    snd (main args bs NoFault sched (Some rglob) fs) = Return tt /\
    fst (fst (main args bs NoFault sched (Some rglob) fs))
      !! backup_path (arg_output args) =
      Some (starting_report (arg_output args) fs) /\
    fst (fst (main args bs NoFault sched (Some rglob) fs))
      !! arg_output args =
      Some (prettify bs
              {| soup_source := starting_report (arg_output args) fs;
                 soup_appended :=
                   FailureDetailsHeader :: StyleTags ::
                   fst (fst (failure_tables (arg_output args) test_suites
                               (sorted (PyDict.keys test_suites)) 0)) |}) /\
    (forall path,
        path <> arg_output args -> path <> backup_path (arg_output args) ->
        fst (fst (main args bs NoFault sched (Some rglob) fs)) !! path =
        fs !! path).
Proof.
  intros args bs sched rglob fs lg test_suites t He Hbody.
  pose proof (backup_path_ne (arg_output args)) as Hne.
  pose proof (failure_tables_returns (arg_output args) test_suites) as Hret.
  unfold main, check_file_condition. cbn [negb]. rewrite He.
  set (fs1 := match fs !! arg_output args with
              | Some _ => fs
              | None => <[arg_output args := blank_report]> fs
              end).
  assert (H1 : fs1 !! arg_output args =
               Some (starting_report (arg_output args) fs)).
  { unfold fs1, starting_report.
    destruct (fs !! arg_output args) eqn:E; [exact E|].
    apply lookup_insert_eq. }
  assert (H2 : forall path, path <> arg_output args -> fs1 !! path = fs !! path).
  { intros path Hp. unfold fs1.
    destruct (fs !! arg_output args); [reflexivity|].
    now rewrite lookup_insert_ne. }
  unfold append_failure_results. rewrite H1, Hbody. cbn [negb].
  destruct (failure_tables (arg_output args) test_suites _ 0)
    as [[tables lgt] r].
  cbn [fst snd] in *. subst r. unfold backup. rewrite H1.
  cbn [overwrite fst snd].
  split; [reflexivity|]. split; [|split].
  - rewrite lookup_insert_ne by congruence. apply lookup_insert_eq.
  - apply lookup_insert_eq.
  - intros path Hp Hb. rewrite !lookup_insert_ne by congruence.
    now apply H2.
Qed.

(** * The pool under the one-file-per-suite rule *)

Lemma claimed_block_new args xml_file n root (d : registry) :
  PyDict.get n d = Some (new_suite n) ->
  let '(s, lg, r) := contribution args xml_file n root in
  exists l,
    claimed_block args xml_file n root d =
    (l, PyDict.setitem n s d, lg, Normal (fst r) (snd r)).
Proof.
  intros Hd. unfold contribution, claimed_block. rewrite Hd.
  destruct (str_in ".xml" xml_file).
  - destruct (extract_test_cases _ _ _ _) as [[s lg] fc].
    eexists. destruct (Nat.eqb fc 0); reflexivity.
  - eexists. reflexivity.
Qed.

(** A step of a worker that is alone with its name: it stays alone, it
    changes the registry under its own name only, and it adds no other
    name. *)
Lemma worker_step_alone args f c (d : registry) :
  worker_alone args d (f, c) ->
  worker_alone args (snd (fst (fst (worker_step args f c d))))
               (f, fst (fst (fst (worker_step args f c d)))) /\
  (forall m, (forall n, declared_name f = Some n -> m <> n) ->
             PyDict.get m (snd (fst (fst (worker_step args f c d)))) =
             PyDict.get m d) /\
  (forall k, In k (PyDict.keys (snd (fst (fst (worker_step args f c d))))) ->
             In k (PyDict.keys d) \/ declared_name f = Some k).
Proof.
  unfold worker_alone. cbn [fst snd].
  destruct c as [|n root|n root|r]; cbn [worker_step]; intros Hal.
  - unfold declared_name, future_of, entry_of in *.
    destruct (xml_content f) as [root|e] eqn:Hp.
    + rewrite (proj2 (contains_false _ _) (Hal _ eq_refl)). cbn [fst snd].
      split; [|split; auto]. split; [reflexivity|split; [reflexivity|]].
      now apply Hal.
    + destruct (except_clauses _ _ e) as [lg r]. cbn [fst snd].
      split; [|split; auto]. split; [reflexivity|]. discriminate.
  - destruct Hal as (Hp & -> & Hnone). cbn [fst snd].
    split; [|split].
    + split; [exact Hp|]. split; [reflexivity|]. apply get_setitem_eq.
    + intros m Hm. apply get_setitem_ne. intros <-.
      apply (Hm _ (declared_name_parsed _ _ Hp)). reflexivity.
    + intros k Hk. rewrite keys_setitem in Hk.
      destruct (PyDict.contains _ d); [now left|].
      apply in_app_or in Hk. destruct Hk as [Hk|[<-|[]]]; [now left|].
      right. now apply declared_name_parsed.
  - destruct Hal as (Hp & -> & Hnew).
    pose proof (claimed_block_new args (xml_path f) _ root d Hnew) as Hb.
    unfold future_of, entry_of. rewrite Hp.
    rewrite (declared_name_parsed _ _ Hp).
    destruct (contribution _ _ _ _) as [[s lg] [a b]].
    destruct Hb as [l ->]. cbn [leave fst snd].
    split; [|split].
    + split; [reflexivity|]. intros n Hn. inversion Hn; subst.
      rewrite get_setitem_eq. cbn [PyDict.get].
      now rewrite String.eqb_refl.
    + intros m Hm. apply get_setitem_ne. intros <-.
      apply (Hm _ eq_refl). reflexivity.
    + intros k Hk. left. rewrite keys_setitem_present in Hk; [exact Hk|].
      apply contains_keys. unfold PyDict.contains. now rewrite Hnew.
  - cbn [fst snd]. auto.
Qed.

(** What holds of a worker against a registry depends on the registry
    under the name of its file only. *)
Lemma worker_alone_ext args (d d' : registry) w :
  (forall n, declared_name (fst w) = Some n ->
             PyDict.get n d' = PyDict.get n d) ->
  worker_alone args d w -> worker_alone args d' w.
Proof.
  unfold worker_alone. destruct w as [f c]. cbn [fst snd].
  intros Hext. destruct c as [|n root|n root|r].
  - intros H n Hn. rewrite (Hext _ Hn). now apply H.
  - intros (Hp & -> & H). split; [exact Hp|]. split; [reflexivity|].
    now rewrite (Hext _ (declared_name_parsed _ _ Hp)).
  - intros (Hp & -> & H). split; [exact Hp|]. split; [reflexivity|].
    now rewrite (Hext _ (declared_name_parsed _ _ Hp)).
  - intros [Hr H]. split; [exact Hr|]. intros n Hn.
    rewrite (Hext _ Hn). now apply H.
Qed.

(** Two places of a list of files with pairwise distinct declared names
    hold different names. *)
Lemma declared_names_distinct (files : list XmlFile) i j f g n m :
  NoDup (declared_names files) ->
  files !! i = Some f -> files !! j = Some g -> i <> j ->
  declared_name f = Some n -> declared_name g = Some m -> n <> m.
Proof.
  unfold declared_names. revert i j.
  induction files as [|x files IH]; intros i j Hnd Hi Hj Hij Hn Hm;
    [discriminate|].
  cbn [omap list_omap] in Hnd. fold (omap declared_name files) in Hnd.
  assert (Hin : forall k y z, files !! k = Some y -> declared_name y = Some z ->
                              z ∈ omap declared_name files).
  { intros k y z Hk Hz. apply list_elem_of_omap. exists y.
    split; [|exact Hz]. eapply list_elem_of_lookup_2, Hk. }
  destruct i as [|i], j as [|j]; cbn in Hi, Hj.
  - congruence.
  - inversion Hi; subst x. rewrite Hn in Hnd.
    apply NoDup_cons in Hnd. destruct Hnd as [Hnot _].
    intros ->. apply Hnot. eapply Hin; eauto.
  - inversion Hj; subst x. rewrite Hm in Hnd.
    apply NoDup_cons in Hnd. destruct Hnd as [Hnot _].
    intros <-. apply Hnot. eapply Hin; eauto.
  - apply (IH i j); auto.
    destruct (declared_name x); [now apply NoDup_cons in Hnd|exact Hnd].
Qed.

Lemma pool_step_alone args p i :
  NoDup (declared_names (map fst (workers p))) ->
  pool_alone args p -> pool_alone args (pool_step args p i).
Proof.
  intros Hnd [Hw Hk].
  destruct (workers p !! i) as [[f c]|] eqn:Hi;
    [|unfold pool_step; rewrite Hi; now split].
  pose proof (pool_step_files args p i) as Hfiles.
  destruct (pool_step_worker args p i f c Hi) as [Hs Hws].
  destruct (worker_step_alone args f c (shared p) (Hw _ _ Hi))
    as (Hown & Hframe & Hkeys).
  assert (Hlt : i < length (workers p)) by (eapply lookup_lt_Some, Hi).
  split.
  - intros j w Hj. rewrite Hs. rewrite Hws in Hj.
    destruct (decide (j = i)) as [->|Hne].
    + rewrite list_lookup_insert_eq in Hj by exact Hlt.
      inversion Hj; subst. exact Hown.
    + rewrite list_lookup_insert_ne in Hj by congruence.
      eapply worker_alone_ext; [|exact (Hw _ _ Hj)].
      intros n Hn. apply Hframe. intros n' Hn'.
      apply (declared_names_distinct (map fst (workers p)) j i (fst w) f);
        auto.
      * change (map fst ?l) with (fst <$> l). now rewrite list_lookup_fmap, Hj.
      * change (map fst ?l) with (fst <$> l). now rewrite list_lookup_fmap, Hi.
  - intros k Hin. rewrite Hfiles. rewrite Hs in Hin.
    apply Hkeys in Hin. destruct Hin as [Hin|Hin]; [now apply Hk|].
    unfold declared_names. apply list_elem_of_In, list_elem_of_omap.
    exists f. split; [|exact Hin].
    apply list_elem_of_lookup. exists i.
    change (map fst ?l) with (fst <$> l). now rewrite list_lookup_fmap, Hi.
Qed.

Lemma run_schedule_alone args schedule p :
  NoDup (declared_names (map fst (workers p))) ->
  pool_alone args p ->
  pool_alone args (run_schedule args schedule p) /\
  map fst (workers (run_schedule args schedule p)) = map fst (workers p).
Proof.
  revert p. induction schedule as [|i schedule IH]; intros p Hnd Hp.
  - now split.
  - destruct (IH (pool_step args p i)) as [H1 H2].
    + now rewrite pool_step_files.
    + now apply pool_step_alone.
    + split; [exact H1|]. cbn [run_schedule fold_left] in *.
      unfold run_schedule in H2. rewrite H2. apply pool_step_files.
Qed.

Lemma submit_alone args xml_files : pool_alone args (submit xml_files).
Proof.
  split.
  - intros j w Hj. unfold submit in Hj. cbn [workers] in Hj.
    change (map ?g ?l) with (g <$> l) in Hj.
    rewrite list_lookup_fmap in Hj.
    destruct (xml_files !! j) as [f|]; [|discriminate].
    inversion Hj; subst. unfold worker_alone. cbn [fst snd]. reflexivity.
  - intros k [].
Qed.

Lemma submit_files xml_files : map fst (workers (submit xml_files)) = xml_files.
Proof.
  unfold submit. cbn [workers]. rewrite map_map. cbn [fst]. apply map_id.
Qed.

(** In a pool whose workers have all left, each alone with its name, the
    futures are those of the files on their own. *)
Lemma finished_alone_futures args p :
  pool_alone args p -> Forall has_finished (workers p) ->
  map snd (workers p) =
  map (fun f => Finished (future_of args f)) (map fst (workers p)).
Proof.
  intros [Hw _] Hfin.
  assert (H : Forall (fun w => snd w = Finished (future_of args (fst w)))
                     (workers p)).
  { apply Forall_lookup. intros j [f c] Hj.
    pose proof (proj1 (Forall_lookup _ _) Hfin j _ Hj) as Hdone.
    specialize (Hw _ _ Hj). unfold has_finished, worker_alone in *.
    cbn [fst snd] in *. destruct c; try contradiction.
    destruct Hw as [-> _]. reflexivity. }
  clear Hw Hfin. revert H. generalize (workers p) as l. intros l H.
  induction H as [|w l Hw' _ IH]; [reflexivity|].
  cbn [map]. now rewrite Hw', IH.
Qed.

(** Two such pools over the same files hold the same suite under every
    name. *)
Lemma finished_alone_lookup args p1 p2 k :
  pool_alone args p1 -> Forall has_finished (workers p1) ->
  pool_alone args p2 -> Forall has_finished (workers p2) ->
  map fst (workers p1) = map fst (workers p2) ->
  PyDict.get k (shared p1) = PyDict.get k (shared p2).
Proof.
  intros [Hw1 Hk1] Hf1 [Hw2 Hk2] Hf2 Hfiles.
  assert (Hfin : forall p,
    (forall j w, workers p !! j = Some w -> worker_alone args (shared p) w) ->
    Forall has_finished (workers p) ->
    forall f, In f (map fst (workers p)) -> declared_name f = Some k ->
    PyDict.get k (shared p) = PyDict.get k (entry_of args f)).
  { intros p Hw Hf f Hin Hn. apply in_map_iff in Hin.
    destruct Hin as ([f' c] & Hfst & Hin). cbn [fst] in Hfst. subst f'.
    apply list_elem_of_In, list_elem_of_lookup in Hin. destruct Hin as [j Hj].
    pose proof (proj1 (Forall_lookup _ _) Hf j _ Hj) as Hdone.
    specialize (Hw _ _ Hj). unfold has_finished, worker_alone in *.
    cbn [fst snd] in *. destruct c; try contradiction.
    destruct Hw as [_ Hw]. now apply Hw. }
  destruct (in_dec string_dec k (declared_names (map fst (workers p1))))
    as [Hin|Hnot].
  - unfold declared_names in Hin.
    apply list_elem_of_In, list_elem_of_omap in Hin.
    destruct Hin as (f & Hf & Hn). apply list_elem_of_In in Hf.
    rewrite (Hfin p1 Hw1 Hf1 f Hf Hn).
    rewrite Hfiles in Hf. now rewrite (Hfin p2 Hw2 Hf2 f Hf Hn).
  - assert (H1 : PyDict.get k (shared p1) = None).
    { apply get_None_keys. intros H. apply Hnot. now apply Hk1. }
    assert (H2 : PyDict.get k (shared p2) = None).
    { apply get_None_keys. intros H. apply Hnot. rewrite Hfiles.
      now apply Hk2. }
    now rewrite H1, H2.
Qed.

Lemma get_Some_In {V : Type} (d : PyDict.t V) k v :
  NoDup (PyDict.keys d) -> (In (k, v) d <-> PyDict.get k d = Some v).
Proof.
  induction d as [|[k' v'] d IH]; intros Hnd; simpl.
  - split; [tauto|discriminate].
  - cbn [PyDict.keys map fst] in Hnd. apply NoDup_cons in Hnd.
    destruct Hnd as [Hnot Hnd]. specialize (IH Hnd).
    destruct (String.eqb_spec k k') as [->|Hne].
    + split.
      * intros [H|H]; [now inversion H|].
        exfalso. apply Hnot. apply list_elem_of_In.
        unfold PyDict.keys. apply in_map_iff. now exists (k', v).
      * intros H. inversion H. now left.
    + rewrite <- IH. split; [|tauto].
      intros [H|H]; [inversion H; congruence|exact H].
Qed.

(** Two dictionaries without a repeated key that agree on every lookup
    hold the same entries, up to their order. *)
Lemma dict_Permutation {V : Type} (d1 d2 : PyDict.t V) :
  NoDup (PyDict.keys d1) -> NoDup (PyDict.keys d2) ->
  (forall k, PyDict.get k d1 = PyDict.get k d2) ->
  Permutation d1 d2.
Proof.
  intros H1 H2 Hget. apply NoDup_Permutation.
  - eapply NoDup_fmap_1. exact H1.
  - eapply NoDup_fmap_1. exact H2.
  - intros [k v]. rewrite !list_elem_of_In.
    rewrite (get_Some_In d1 k v H1), (get_Some_In d2 k v H2), Hget.
    reflexivity.
Qed.

Lemma totals_of_Permutation c (d1 d2 : registry) :
  Permutation d1 d2 -> totals_of c d1 = totals_of c d2.
Proof.
  intros H. unfold totals_of, PyDict.keys, PyDict.values. f_equal.
  - rewrite !length_map. now apply Permutation_length.
  - apply list_sum_Permutation. now do 2 apply Permutation_map.
  - apply list_sum_Permutation. now do 2 apply Permutation_map.
  - apply list_sum_Permutation. now do 2 apply Permutation_map.
Qed.

(** X10: The comment of line 124 made precise: when the files that parse
    declare pairwise distinct suite names, the workers need no
    synchronization. Under every schedule that interleaves their steps
    and lets them all finish, each worker returns what it returns when
    the workers run one after the other, the registry holds the same
    suites under the same names (in the order in which the names were
    inserted), and the totals computed from it are the same. *)
Theorem interleaving_is_harmless_for_distinct_names :
  forall args xml_files schedule,
    NoDup (declared_names xml_files) ->
    Forall has_finished
      (workers (run_schedule args schedule (submit xml_files))) ->
    map snd (workers (run_schedule args schedule (submit xml_files))) =
      map Finished (snd (run_workers args xml_files [])) /\
    Permutation (shared (run_schedule args schedule (submit xml_files)))
                (final_registry args xml_files) /\
    (forall k,
        PyDict.get k (shared (run_schedule args schedule (submit xml_files))) =
        PyDict.get k (final_registry args xml_files)) /\
    (forall c,
        totals_of c (shared (run_schedule args schedule (submit xml_files))) =
        totals_of c (final_registry args xml_files)).
Proof.
  intros args xml_files schedule Hnd Hfin.
  set (p := run_schedule args schedule (submit xml_files)) in *.
  set (p2 := run_schedule args (serial_schedule 0 (length xml_files))
               (submit xml_files)).
  assert (Hnd' : NoDup (declared_names (map fst (workers (submit xml_files)))))
    by now rewrite submit_files.
  destruct (run_schedule_alone args schedule (submit xml_files) Hnd'
              (submit_alone args xml_files)) as [Hp Hfiles].
  destruct (run_schedule_alone args (serial_schedule 0 (length xml_files))
              (submit xml_files) Hnd' (submit_alone args xml_files))
    as [Hp2 Hfiles2].
  fold p in Hp, Hfiles. fold p2 in Hp2, Hfiles2.
  destruct (serial_schedule_run_workers args xml_files) as [Hshared2 Hpcs2].
  fold p2 in Hshared2, Hpcs2.
  assert (Hfin2 : Forall has_finished (workers p2)).
  { apply Forall_forall. intros [f c] Hin.
    apply list_elem_of_In in Hin.
    assert (Hc : In c (map snd (workers p2)))
      by (apply in_map_iff; now exists (f, c)).
    rewrite Hpcs2 in Hc. apply in_map_iff in Hc.
    destruct Hc as (r & <- & _). exact I. }
  assert (Hlookup : forall k, PyDict.get k (shared p) =
                              PyDict.get k (final_registry args xml_files)).
  { intros k. rewrite <- Hshared2.
    apply (finished_alone_lookup args p p2 k); auto. congruence. }
  assert (Hperm : Permutation (shared p) (final_registry args xml_files)).
  { apply dict_Permutation; [| |exact Hlookup].
    - apply run_schedule_NoDup. constructor.
    - apply run_workers_NoDup. constructor. }
  split; [|split; [exact Hperm|split; [exact Hlookup|]]].
  - rewrite <- Hpcs2.
    rewrite (finished_alone_futures args p Hp Hfin).
    rewrite (finished_alone_futures args p2 Hp2 Hfin2).
    congruence.
  - intros c. now apply totals_of_Permutation.
Qed.

(** * Progress, and what the command line does not change *)

Lemma worker_step_progress args f c d :
  steps_left (fst (fst (fst (worker_step args f c d)))) <=
  steps_left c - 1.
Proof.
  destruct c as [|n root|n root|r]; cbn [worker_step].
  - destruct (xml_content f) as [root|e].
    + destruct (PyDict.contains _ d); simpl; lia.
    + destruct (except_clauses _ _ e). simpl. lia.
  - simpl. lia.
  - destruct (claimed_block _ _ _ _ _) as [[[l d'] lg] c].
    destruct (leave _ l c). simpl. lia.
  - simpl. lia.
Qed.

Lemma run_schedule_progress args schedule p i f c :
  workers p !! i = Some (f, c) ->
  exists c',
    workers (run_schedule args schedule p) !! i = Some (f, c') /\
    steps_left c' <= steps_left c - count_occ Nat.eq_dec schedule i.
Proof.
  revert p c. induction schedule as [|j schedule IH]; intros p c Hi.
  - exists c. split; [exact Hi|]. simpl. lia.
  - cbn [run_schedule fold_left count_occ].
    fold (run_schedule args schedule (pool_step args p j)).
    destruct (Nat.eq_dec j i) as [->|Hne].
    + destruct (pool_step_worker args p i f c Hi) as [_ Hws].
      pose proof (worker_step_progress args f c (shared p)) as Hprog.
      destruct (IH (pool_step args p i)
                  (fst (fst (fst (worker_step args f c (shared p))))))
        as (c' & Hc' & Hle).
      { rewrite Hws. apply list_lookup_insert_eq.
        eapply lookup_lt_Some, Hi. }
      exists c'. split; [exact Hc'|]. lia.
    + apply IH.
      destruct (workers p !! j) as [[g cj]|] eqn:Hj.
      * destruct (pool_step_worker args p j g cj Hj) as [_ ->].
        now rewrite list_lookup_insert_ne.
      * unfold pool_step. now rewrite Hj.
Qed.

Lemma extract_test_cases_args args args' suite file_name root :
  fst (fst (extract_test_cases args suite file_name root)) =
    fst (fst (extract_test_cases args' suite file_name root)) /\
  snd (extract_test_cases args suite file_name root) =
    snd (extract_test_cases args' suite file_name root).
Proof.
  unfold extract_test_cases.
  destruct (any_in _ file_name); [now split|].
  destruct (Nat.eqb _ 0); now split.
Qed.

Lemma process_xml_file_args args args' f (d : registry) :
  fst (fst (process_xml_file args f d)) =
    fst (fst (process_xml_file args' f d)) /\
  snd (process_xml_file args f d) = snd (process_xml_file args' f d).
Proof.
  unfold process_xml_file, try_block.
  destruct (xml_content f) as [root|e]; [|now split].
  destruct (PyDict.contains _ d); [now split|].
  unfold claimed_block.
  destruct (PyDict.get _ _) as [s|]; [|now split].
  destruct (str_in ".xml" (xml_path f)); [|now split].
  destruct (extract_test_cases_args args args'
              (set_archive (xml_path f) s) (xml_path f) root) as [H1 H2].
  destruct (extract_test_cases args _ _ _) as [[s1 lg1] fc1].
  destruct (extract_test_cases args' _ _ _) as [[s2 lg2] fc2].
  cbn [fst snd] in *. subst. destruct (Nat.eqb fc2 0); now split.
Qed.

Lemma run_workers_args args args' order (d : registry) :
  fst (fst (run_workers args order d)) =
    fst (fst (run_workers args' order d)) /\
  snd (run_workers args order d) = snd (run_workers args' order d).
Proof.
  revert d. induction order as [|f rest IH]; intros d; [now split|].
  cbn [run_workers].
  destruct (process_xml_file_args args args' f d) as [H1 H2].
  destruct (process_xml_file args f d) as [[d1 lg1] r1].
  destruct (process_xml_file args' f d) as [[d2 lg2] r2].
  cbn [fst snd] in *. subst. specialize (IH d2). destruct IH as [I1 I2].
  destruct (run_workers args rest d2) as [[d3 lg3] rs3].
  destruct (run_workers args' rest d2) as [[d4 lg4] rs4].
  cbn [fst snd] in *. subst. now split.
Qed.

(** X8: The command line reaches the extraction through [args.debug] alone,
    and that flag changes the log and nothing else: with any two command
    lines the run returns the same registry and the same totals, or
    raises the same exception. *)
Theorem verbose_flag_changes_the_log_only :
  forall args args' sched input_dir rglob,
    snd (extract_junit_from_test_run args sched input_dir rglob) =
    snd (extract_junit_from_test_run args' sched input_dir rglob).
Proof.
  intros args args' sched input_dir rglob.
  unfold extract_junit_from_test_run.
  destruct (discover input_dir rglob) as [lg [xml_files|e]]; [|reflexivity].
  unfold aggregate.
  destruct (run_workers_args args args' (sched xml_files) []) as [H1 H2].
  destruct (run_workers args (sched xml_files) []) as [[d1 lg1] rs1].
  destruct (run_workers args' (sched xml_files) []) as [[d2 lg2] rs2].
  cbn [fst snd] in *. subst.
  destruct (collect rs2 _) as [lgc [c|e]]; [|reflexivity].
  destruct (tally (PyDict.values d2) (0, 0, 0)) as [lge [[p f] s]].
  reflexivity.
Qed.

(** X4: [extract_test_cases] on any suite: it returns the number of test
    cases that [findall] counts below the root, or zero for a file that
    is excluded by its name. When it returns zero the suite is exactly as
    it was; otherwise the file is recorded and one test case is appended,
    after those already there, for every element that [iter] visits. *)
Theorem extract_test_cases_zero_iff_untouched :
  forall args suite file_name root,
    let '(suite', _, n) := extract_test_cases args suite file_name root in
    n = (if excluded_by_name file_name then 0
         else length (findall_descendants "testcase" root)) /\
    (n = 0 -> suite' = suite) /\
    (n <> 0 ->
     suite_tests suite' =
       suite_tests suite ++ map new_testcase (iter "testcase" root) /\
     In file_name (suite_files suite') /\
     suite_name suite' = suite_name suite /\
     suite_archive suite' = suite_archive suite /\
     suite' <> suite).
Proof.
  intros args suite file_name root. unfold extract_test_cases.
  fold (excluded_by_name file_name).
  destruct (excluded_by_name file_name);
    [split; [reflexivity|split; [reflexivity|intros []; reflexivity]]|].
  pose proof (iter_length_findall root) as Hlen.
  destruct (Nat.eqb (length (findall_descendants "testcase" root)) 0) eqn:E.
  - apply Nat.eqb_eq in E. rewrite E.
    split; [reflexivity|split; [reflexivity|intros []; reflexivity]].
  - apply Nat.eqb_neq in E. rewrite fold_add_testcase.
    split; [reflexivity|]. split; [intros H; contradiction|]. intros _.
    cbn [suite_tests suite_files suite_name suite_archive add_file].
    split; [reflexivity|]. split; [|split; [reflexivity|split; [reflexivity|]]].
    + destruct (existsb (String.eqb file_name) (suite_files suite)) eqn:Hex.
      * apply existsb_exists in Hex. destruct Hex as (x & Hx & Heq).
        apply String.eqb_eq in Heq. now subst.
      * apply in_or_app. right. now left.
    + intros Heq. apply (f_equal suite_tests) in Heq.
      cbn [suite_tests] in Heq. apply (f_equal (@length _)) in Heq.
      rewrite length_app, length_map in Heq. lia.
Qed.

(** * The orchestrator over the interleaved pool *)

(** [aggregate] is the loop over the futures and the report of the
    totals, after the workers have run one after the other. *)
Lemma aggregate_collect_and_report args order :
  aggregate args order =
  collect_and_report (snd (fst (run_workers args order [])))
    (fst (fst (run_workers args order [])))
    (snd (run_workers args order [])).
Proof.
  unfold aggregate, collect_and_report.
  now destruct (run_workers args order []) as [[ts lg] futures].
Qed.

Lemma collect_and_report_reported lg (test_suites : registry) futures :
  reported (collect_and_report lg test_suites futures) =
  option_map (fun c => totals_of c test_suites)
    (returned (snd (collect futures
       {| archive_count := 0; test_file_count := 0; test_count := 0 |}))).
Proof.
  unfold collect_and_report, reported.
  destruct (collect futures _) as [lgc [c|e]]; [|reflexivity].
  pose proof (tally_sums (PyDict.values test_suites) 0 0 0) as Ht.
  destruct (tally (PyDict.values test_suites) (0, 0, 0)) as [lge [[p f] s]].
  simpl in Ht. inversion Ht; subst. reflexivity.
Qed.

(** The serial schedule gives every worker its three steps. *)
Lemma serial_schedule_count first n i :
  first <= i < first + n ->
  3 <= count_occ Nat.eq_dec (serial_schedule first n) i.
Proof.
  revert first. induction n as [|n IH]; intros first Hi; [lia|].
  change (serial_schedule first (S n))
    with ([first; first; first] ++ serial_schedule (S first) n).
  rewrite count_occ_app.
  destruct (Nat.eq_dec first i) as [->|Hne].
  - cbn [count_occ]. destruct (Nat.eq_dec i i); [lia|contradiction].
  - specialize (IH (S first)). lia.
Qed.

(** No step moves a worker to another file. *)
Lemma run_schedule_files args schedule p :
  map fst (workers (run_schedule args schedule p)) = map fst (workers p).
Proof.
  revert p. induction schedule as [|j schedule IH]; intros p; [reflexivity|].
  change (run_schedule args (j :: schedule) p)
    with (run_schedule args schedule (pool_step args p j)).
  now rewrite IH, pool_step_files.
Qed.

(** At the exit of the [with] block every worker has left, whatever the
    schedule. *)
Lemma run_pool_finished args schedule xml_files :
  Forall has_finished (workers (run_pool args schedule xml_files)).
Proof.
  apply Forall_lookup. intros i [f c] Hi. unfold run_pool in Hi.
  assert (Hlen : length (workers (run_schedule args
                   (schedule ++ serial_schedule 0 (length xml_files))
                   (submit xml_files))) = length xml_files).
  { rewrite <- (length_map fst). now rewrite run_schedule_files, submit_files. }
  assert (Hlt : i < length xml_files).
  { rewrite <- Hlen. eapply lookup_lt_Some, Hi. }
  destruct (lookup_lt_is_Some_2 xml_files i Hlt) as [g Hg].
  assert (Hsub : workers (submit xml_files) !! i = Some (g, AtParse)).
  { unfold submit. cbn [workers].
    change (map ?h ?l) with (h <$> l). now rewrite list_lookup_fmap, Hg. }
  destruct (run_schedule_progress args
              (schedule ++ serial_schedule 0 (length xml_files))
              (submit xml_files) i g AtParse Hsub) as (c' & Hc' & Hle).
  rewrite Hi in Hc'. inversion Hc'; subst.
  rewrite count_occ_app in Hle.
  pose proof (serial_schedule_count 0 (length xml_files) i) as H3.
  unfold has_finished. cbn [snd].
  destruct c' as [| | |r]; cbn [steps_left] in Hle; first [exact I|lia].
Qed.

(** The futures of a pool whose workers have all left. *)
Lemma pool_futures_finished p rs :
  map snd (workers p) = map Finished rs -> pool_futures p = rs.
Proof.
  unfold pool_futures. generalize (workers p) as ws.
  intros ws. revert rs.
  induction ws as [|[f c] ws IH]; intros [|r rs] H; try discriminate;
    [reflexivity|].
  cbn [map snd] in H. inversion H; subst.
  cbn [omap list_omap snd]. fold (omap (fun w : XmlFile * pc =>
          match snd w with
          | Finished r => Some r
          | AtParse | AtInsert _ _ | AtClaimed _ _ => None
          end) ws).
  now rewrite (IH rs).
Qed.

(** When the files that parse declare pairwise distinct suite names, a
    pool whose workers have all left holds what the workers leave when
    they run one after the other. *)
Lemma distinct_names_pool_is_serial args xml_files schedule :
  NoDup (declared_names xml_files) ->
  Forall has_finished
    (workers (run_schedule args schedule (submit xml_files))) ->
  map snd (workers (run_schedule args schedule (submit xml_files))) =
    map Finished (snd (run_workers args xml_files [])) /\
  Permutation (shared (run_schedule args schedule (submit xml_files)))
              (final_registry args xml_files).
Proof.
  intros Hnd Hfin.
  set (p := run_schedule args schedule (submit xml_files)) in *.
  set (p2 := run_schedule args (serial_schedule 0 (length xml_files))
               (submit xml_files)).
  assert (Hnd' : NoDup (declared_names (map fst (workers (submit xml_files)))))
    by now rewrite submit_files.
  destruct (run_schedule_alone args schedule (submit xml_files) Hnd'
              (submit_alone args xml_files)) as [Hp Hfiles].
  destruct (run_schedule_alone args (serial_schedule 0 (length xml_files))
              (submit xml_files) Hnd' (submit_alone args xml_files))
    as [Hp2 Hfiles2].
  fold p in Hp, Hfiles. fold p2 in Hp2, Hfiles2.
  destruct (serial_schedule_run_workers args xml_files) as [Hshared2 Hpcs2].
  fold p2 in Hshared2, Hpcs2.
  assert (Hfin2 : Forall has_finished (workers p2)).
  { apply Forall_forall. intros [f c] Hin.
    apply list_elem_of_In in Hin.
    assert (Hc : In c (map snd (workers p2)))
      by (apply in_map_iff; now exists (f, c)).
    rewrite Hpcs2 in Hc. apply in_map_iff in Hc.
    destruct Hc as (r & <- & _). exact I. }
  split.
  - rewrite <- Hpcs2.
    rewrite (finished_alone_futures args p Hp Hfin).
    rewrite (finished_alone_futures args p2 Hp2 Hfin2).
    congruence.
  - apply dict_Permutation.
    + apply run_schedule_NoDup. constructor.
    + apply run_workers_NoDup. constructor.
    + intros k. rewrite <- Hshared2.
      apply (finished_alone_lookup args p p2 k); auto. congruence.
Qed.




(** When the files that parse declare pairwise distinct suite names,
    every interleaving of the workers and every order of their futures
    reports what the workers report when they run one after the other. *)
Lemma aggregate_pool_distinct args schedule completion xml_files :
  NoDup (declared_names xml_files) ->
  (forall l, Permutation (completion l) l) ->
  reported (aggregate_pool args schedule completion xml_files) =
  reported (aggregate args xml_files).
Proof.
  intros Hnd Hc.
  rewrite aggregate_collect_and_report. unfold aggregate_pool.
  rewrite !collect_and_report_reported.
  pose proof (run_pool_finished args schedule xml_files) as Hfin.
  unfold run_pool in *.
  destruct (distinct_names_pool_is_serial args xml_files _ Hnd Hfin)
    as [Hw Hperm].
  rewrite (pool_futures_finished _ _ Hw).
  rewrite (collect_Permutation _ (snd (run_workers args xml_files [])))
    by apply Hc.
  destruct (returned _) as [c|]; [|reflexivity]. cbn [option_map].
  f_equal. now apply totals_of_Permutation.
Qed.

(** C8 (amended): the accumulation of lines 128-136 gives the same
    counters for every order of a given list of futures. When the
    candidate files that parse declare pairwise distinct suite names, the
    totals that a run reports (files, suites, tests, passed, failed,
    skipped, and whether any are reported at all) are the same for every
    order in which the workers run one after the other, for every
    interleaving of the steps of the workers, and for every order in
    which their futures are yielded. *)
Theorem totals_independent_of_completion_order :
  (forall futures futures' c,
      Permutation futures futures' ->
      returned (snd (collect futures c)) =
      returned (snd (collect futures' c))) /\
  (forall args sched sched' input_dir rglob,
      NoDup (declared_names (candidate_files rglob)) ->
      (forall l, Permutation (sched l) l) ->
      (forall l, Permutation (sched' l) l) ->
      reported (extract_junit_from_test_run args sched input_dir rglob) =
      reported (extract_junit_from_test_run args sched' input_dir rglob)) /\
  (forall args schedule schedule' completion completion' xml_files,
      NoDup (declared_names xml_files) ->
      (forall l, Permutation (completion l) l) ->
      (forall l, Permutation (completion' l) l) ->
      reported (aggregate_pool args schedule completion xml_files) =
        reported (aggregate_pool args schedule' completion' xml_files) /\
      reported (aggregate_pool args schedule completion xml_files) =
        reported (aggregate args xml_files)).
Proof.
  split; [|split].
  { intros futures futures' c H. now apply collect_Permutation. }
  - intros args sched sched' input_dir rglob Hnd Hs Hs'.
    unfold extract_junit_from_test_run.
    destruct (candidate_files rglob) as [|x l] eqn:Hc.
    + rewrite (discover_empty _ _ Hc). reflexivity.
    + assert (Hne : candidate_files rglob <> []) by (rewrite Hc; discriminate).
      rewrite (discover_nonempty _ _ Hne), Hc.
      pose proof (aggregate_order_independent args (x :: l) (sched (x :: l))
                    Hnd (Hs _)) as H1.
      pose proof (aggregate_order_independent args (x :: l) (sched' (x :: l))
                    Hnd (Hs' _)) as H2.
      destruct (aggregate args (sched (x :: l))) as [lg r].
      destruct (aggregate args (sched' (x :: l))) as [lg' r'].
      unfold reported in *. cbn [snd] in *. congruence.
  - intros args schedule schedule' completion completion' xml_files
           Hnd Hc Hc'.
    rewrite (aggregate_pool_distinct args schedule completion xml_files Hnd Hc).
    rewrite (aggregate_pool_distinct args schedule' completion' xml_files
               Hnd Hc').
    split; reflexivity.
Qed.

(** X6: The totals of a run that returns, when the workers run one after
    the other (in any order), and under every interleaving of their
    steps when the files that parse declare pairwise distinct suite
    names: no more contributing files than suites, no more suites than
    files processed, and no more tests counted than recorded as passed,
    failed or skipped; the two agree when no root element is itself a
    test case. *)
Theorem reported_counts_are_consistent :
  (forall args order lg test_suites t,
      aggregate args order = (lg, Return (test_suites, t)) ->
      total_files t <= total_suites t /\
      total_suites t <= length order /\
      total_tests t <= total_passed t + total_failed t + total_skipped t /\
      (Forall root_is_no_testcase order ->
       total_tests t = total_passed t + total_failed t + total_skipped t)) /\
  (forall args schedule completion xml_files t,
      NoDup (declared_names xml_files) ->
      (forall l, Permutation (completion l) l) ->
      reported (aggregate_pool args schedule completion xml_files) = Some t ->
      total_files t <= total_suites t /\
      total_suites t <= length xml_files /\
      total_tests t <= total_passed t + total_failed t + total_skipped t /\
      (Forall root_is_no_testcase xml_files ->
       total_tests t = total_passed t + total_failed t + total_skipped t)).
Proof.
  split; [exact aggregate_counts|].
  intros args schedule completion xml_files t Hnd Hc H.
  rewrite (aggregate_pool_distinct args schedule completion xml_files Hnd Hc)
    in H.
  unfold reported in H.
  destruct (aggregate args xml_files) as [lg [[ts t']|e]] eqn:E;
    cbn [snd] in H; [|discriminate].
  inversion H; subst t'. exact (aggregate_counts _ _ _ _ _ E).
Qed.

(** * The further properties on the sample inputs *)

Lemma worker_returns_one_file_iff_tests_witness :
  (1 = 0 /\ 3 = 0) \/ (1 = 1 /\ 0 < 3).
Proof.
  apply (worker_returns_one_file_iff_tests sample_args unit_file [] 1 3).
  vm_compute. reflexivity.
Defined.

Lemma unexpected_parse_exception_is_masked_witness :
  process_xml_file sample_args
    {| xml_path := "ci/unreadable.xml";
       xml_content := ParseRaises (OSError "read") |} [] =
  ([], [], Raise (UnboundLocalError "active_file")).
Proof.
  apply unexpected_parse_exception_is_masked; discriminate.
Defined.

Lemma extract_test_cases_zero_iff_untouched_witness :
  suite_tests
    (fst (fst (extract_test_cases sample_args (failing_suite "unit" 1)
                 "ci/unit/TEST-unit.xml" unit_root))) =
  suite_tests (failing_suite "unit" 1) ++
  map new_testcase (iter "testcase" unit_root).
Proof.
  pose proof (extract_test_cases_zero_iff_untouched sample_args
                (failing_suite "unit" 1) "ci/unit/TEST-unit.xml" unit_root)
    as H.
  destruct (extract_test_cases _ _ _ _) as [[suite' lg] n] eqn:E.
  destruct H as (Hn & _ & H). cbn [fst].
  apply H. rewrite Hn. vm_compute. discriminate.
Defined.

Lemma registry_entries_come_from_files_witness :
  suite_name (fst (fst (contribution sample_args (xml_path lint_report)
                          "lint" lint_root))) = "lint".
Proof.
  apply (registry_entries_come_from_files sample_args
           [unit_file; lint_report] "lint"
           (fst (fst (contribution sample_args (xml_path lint_report)
                        "lint" lint_root)))).
  vm_compute. right. left. reflexivity.
Defined.

Lemma reported_counts_are_consistent_witness :
  1 <= 2 /\ 2 <= 2.
Proof.
  destruct (proj1 reported_counts_are_consistent sample_args [lint_report; dup1]
              (fst (aggregate sample_args [lint_report; dup1]))
              (final_registry sample_args [lint_report; dup1])
              {| total_archives := 0; total_files := 1; total_suites := 2;
                 total_tests := 1; total_passed := 0; total_failed := 1;
                 total_skipped := 0 |}) as (H1 & H2 & _).
  - vm_compute. reflexivity.
  - exact (conj H1 H2).
Defined.

Lemma suites_come_from_candidate_files_witness :
  exists f,
    In f [lint_report; unit_file] /\
    str_in "split" (xml_path f) = false /\
    str_in "result_details" (xml_path f) = false /\
    declared_name f = Some "unit" /\
    suite_archive
      (fst (fst (contribution sample_args (xml_path unit_file)
                   "unit" unit_root))) = Some (xml_path f).
Proof.
  apply (suites_come_from_candidate_files sample_args (fun l => l) "ci"
           [lint_report; unit_file]
           (fst (extract_junit_from_test_run sample_args (fun l => l) "ci"
                   [lint_report; unit_file]))
           (final_registry sample_args [lint_report; unit_file])
           {| total_archives := 0; total_files := 1; total_suites := 2;
              total_tests := 3; total_passed := 2; total_failed := 1;
              total_skipped := 0 |}
           "unit").
  - intros l. reflexivity.
  - vm_compute. reflexivity.
  - vm_compute. right. left. reflexivity.
Defined.

Lemma failure_tables_in_name_order_witness :
  NoDup (map table_name
           (fst (fst (failure_tables "ci_summary.html" broken_run
                        (sorted (PyDict.keys broken_run)) 0)))).
Proof.
  apply (failure_tables_in_name_order "ci_summary.html" broken_run).
  vm_compute. apply NoDup_cons. split; [|apply NoDup_singleton].
  intros H. apply list_elem_of_In in H. destruct H as [H|[]]. discriminate.
Defined.

Lemma emitter_writes_report_and_backup_only_witness :
  fst (fst (append_failure_results sample_bs (WriteFails 5) broken_run
              "ci_summary.html"
              {[ "ci_summary.html" := sample_report;
                 "ci/a.xml" := "<testsuite/>" ]}))
    !! "ci/a.xml" =
  ({[ "ci_summary.html" := sample_report;
      "ci/a.xml" := "<testsuite/>" ]} : gmap string string) !! "ci/a.xml".
Proof.
  apply (emitter_writes_report_and_backup_only sample_bs (WriteFails 5)
           broken_run "ci_summary.html"); vm_compute; discriminate.
Defined.

Lemma failed_extraction_leaves_report_alone_witness :
  fst (fst (main sample_args sample_bs NoFault (fun l => l) None
              {[ "ci_summary.html" := sample_report ]})) =
  {[ "ci_summary.html" := sample_report ]}.
Proof.
  destruct (failed_extraction_leaves_report_alone sample_args sample_bs
              NoFault (fun l => l) None
              {[ "ci_summary.html" := sample_report ]}) as [_ H].
  - left. reflexivity.
  - exact H.
Defined.

Lemma main_backs_up_and_rewrites_witness :
  snd (main sample_args sample_bs NoFault (fun l => l)
         (Some [unit_file; lint_report]) ∅) = Return tt /\
  fst (fst (main sample_args sample_bs NoFault (fun l => l)
              (Some [unit_file; lint_report]) ∅))
    !! backup_path (arg_output sample_args) = Some blank_report.
Proof.
  destruct (main_backs_up_and_rewrites sample_args sample_bs (fun l => l)
              [unit_file; lint_report] ∅
              (fst (extract_junit_from_test_run sample_args (fun l => l)
                      (arg_input sample_args) [unit_file; lint_report]))
              (final_registry sample_args [unit_file; lint_report])
              {| total_archives := 0; total_files := 1; total_suites := 2;
                 total_tests := 3; total_passed := 2; total_failed := 1;
                 total_skipped := 0 |}) as (H1 & H2 & _).
  - vm_compute. reflexivity.
  - vm_compute. reflexivity.
  - split; [exact H1|exact H2].
Defined.

Lemma interleaving_is_harmless_for_distinct_names_witness :
  map snd (workers (run_schedule sample_args [0; 1; 1; 0; 1; 0]
                      (submit [unit_file; lint_report]))) =
  map Finished (snd (run_workers sample_args [unit_file; lint_report] [])).
Proof.
  apply (interleaving_is_harmless_for_distinct_names sample_args
           [unit_file; lint_report] [0; 1; 1; 0; 1; 0]).
  - vm_compute. apply NoDup_cons. split; [|apply NoDup_singleton].
    intros H. apply list_elem_of_In in H. destruct H as [H|[]]. discriminate.
  - vm_compute. repeat constructor.
Defined.

Lemma totals_independent_of_completion_order_witness :
  reported (extract_junit_from_test_run sample_args (fun l => l) "ci"
              [unit_file; lint_report]) =
  reported (extract_junit_from_test_run sample_args (@rev XmlFile) "ci"
              [unit_file; lint_report]) /\
  reported (aggregate_pool sample_args [0; 1; 1; 0] (fun l => l)
              [unit_file; lint_report]) =
  reported (aggregate_pool sample_args [1; 1; 0; 1] (@rev (result (nat * nat)))
              [unit_file; lint_report]).
Proof.
  assert (Hnd : NoDup (declared_names [unit_file; lint_report])).
  { vm_compute. apply NoDup_cons. split; [|apply NoDup_singleton].
    intros H. apply list_elem_of_In in H. destruct H as [H|[]]. discriminate. }
  split.
  - apply (proj1 (proj2 totals_independent_of_completion_order)).
    + exact Hnd.
    + intros l. reflexivity.
    + intros l. symmetry. apply Permutation_rev.
  - apply (proj2 (proj2 totals_independent_of_completion_order)).
    + exact Hnd.
    + intros l. reflexivity.
    + intros l. symmetry. apply Permutation_rev.
Defined.
